(** * LUMI: the course viewer, the calculus tome, the Socratic debate,
      the Gemini service and the localStorage mock backend

    A shallow embedding of the state-carrying logic of the LUMI client:
    - [CourseViewer]: the four-stage progression of
      src/components/CourseViewer.tsx;
    - [Calculus]: the step page of the calculus tome (CalculusPage and
      CALCULUS_CURRICULUM);
    - [Socratic]: the turn-based debate of the social page;
    - [Gemini]: the error handling of the generation operations of
      src/services/geminiService.ts;
    - [Json] and [LocalDb]: JSON texts and the [db] wrapper around
      localStorage;
    - [MockBackend]: courses, likes, comments and history of the mock
      backend over the values [db.get] reads;
    - [ObjectHeap]: the like and comment operations once more, over a heap
      of JavaScript objects with identity;
    - [JsObject]: lookups by name in objects used as maps;
    - [Archives]: the archive lists of the mock backend;
    - [Base64] and [Audio]: [btoa], [atob] and the audio helpers of the
      service;
    - [Debate]: the scoring of a standard debate round of the social page;
    - [Profile]: the badges of the profile page and the writers of the
      history;
    - [Editor]: the manual course editor of the creator studio;
    - [Accounts]: registration, login and the session of the mock backend.

    React state is a record; a handler is a function from the state of the
    render it was created in to the state after its updates. *)

From Stdlib Require Import ZArith QArith Lia List Bool Ascii DecimalString DecimalZ.
From Stdlib Require Floats.SpecFloat.
From Stdlib Require Strings.Byte.
From stdpp Require Import base option list strings gmap pretty.

Local Open Scope Z_scope.

(** ** JavaScript values shared by the components *)

(** A JavaScript [number] as far as the components compute with it: the
    not-a-number value, or an exact rational.  Quiz scores are quotients of
    two small counts; they are only ever compared with 60. *)
Inductive jsnum : Type :=
  | NaN
  | Num (q : Q).

(** [a >= b] on numbers: false as soon as one side is NaN. *)
Definition jsnum_ge (a b : jsnum) : bool :=
  match a, b with
  | Num x, Num y => Qle_bool y x
  | _, _ => false
  end.

(** [(a / b) * 100] for two array counts: [0 / 0] is NaN. *)
Definition percent_of (a b : nat) : jsnum :=
  match b with
  | O => NaN
  | S _ => Num ((Z.of_nat a # Pos.of_nat b) * 100)
  end.

(** The same computation in IEEE 754 binary64, the arithmetic the browser
    runs: whole numbers are exact, division and multiplication round to
    nearest.  It serves to check that the rational model decides the 60
    percent gate as the browser does. *)
Definition f64 (z : Z) : SpecFloat.spec_float :=
  SpecFloat.binary_normalize 53 1024 z 0 false.

Definition percent_binary64 (a b : nat) : SpecFloat.spec_float :=
  SpecFloat.SFmul 53 1024
    (SpecFloat.SFdiv 53 1024 (f64 (Z.of_nat a)) (f64 (Z.of_nat b))) (f64 100).

Definition ge_binary64 (x y : SpecFloat.spec_float) : bool :=
  SpecFloat.SFleb y x.

(** Both gates agree on every quiz of up to [limit] questions. *)
Definition gates_agree (limit : nat) : bool :=
  forallb (fun n =>
    forallb (fun c =>
      Bool.eqb (ge_binary64 (percent_binary64 c n) (f64 60))
               (jsnum_ge (percent_of c n) (Num 60)))
      (seq 0 (S n)))
    (seq 0 (S limit)).

(** A JavaScript string as its sequence of UTF-16 code units: the texts
    the user types and the service returns, where white space matters.
    Identifiers, keys and names are plain [string]s. *)
Definition ustring : Type := list N.

(** The code units of an ASCII literal. *)

Definition ustring_of (s : string) : ustring :=
  map Ascii.N_of_ascii (String.list_ascii_of_string s).

(** WhiteSpace and LineTerminator code points of ECMAScript, the ones
    [String.prototype.trim] strips. *)
Definition is_js_space (c : N) : bool :=
  let z := Z.of_N c in
  ((9 <=? z) && (z <=? 13)) || (z =? 32) || (z =? 160) || (z =? 5760)
  || ((8192 <=? z) && (z <=? 8202)) || (z =? 8232) || (z =? 8233)
  || (z =? 8239) || (z =? 8287) || (z =? 12288) || (z =? 65279).

Fixpoint trim_start (s : ustring) : ustring :=
  match s with
  | [] => []
  | c :: r => if is_js_space c then trim_start r else s
  end.

Definition trim (s : ustring) : ustring :=
  rev (trim_start (rev (trim_start s))).

(** [arr[i] = x] on a JavaScript array: inside the array the slot is
    overwritten, beyond its end the array grows and the skipped slots are
    holes (they read [undefined], here [None]). *)
Definition array_assign {A} (arr : list (option A)) (i : nat) (x : A)
  : list (option A) :=
  if (i <? length arr)%nat then <[i := Some x]> arr
  else arr ++ replicate (i - length arr) None ++ [Some x].

(** [arr[i]]: [undefined] for a hole and beyond the end. *)
Definition array_read {A} (arr : list (option A)) (i : nat) : option A :=
  match arr !! i with
  | Some v => v
  | None => None
  end.

(** ** src/components/CourseViewer.tsx *)

Module CourseViewer.

Inductive Level : Type := FLASHCARDS | QUIZ | APPLICATION | DEEP_DIVE.

(** The numeric value of the enum member. *)
Definition level_num (l : Level) : Z :=
  match l with
  | FLASHCARDS => 0
  | QUIZ => 1
  | APPLICATION => 2
  | DEEP_DIVE => 3
  end.

#[global] Instance Level_eq_dec : EqDecision Level.
Proof. solve_decision. Defined.

Record QuizQuestion : Type := mkQuestion {
  question : string;
  options : list string;
  answer : Z
}.

(** What a handler does besides updating the component state. *)
Inductive Effect : Type :=
  | Alert (msg : string)
  | AddToHistoryCompleted
  | OnBack.

Record State : Type := mkState {
  currentLevel : Level;
  maxUnlockedLevel : Level;
  currentCard : option nat;      (* None: NaN, after [% 0] *)
  isFlipped : bool;
  quizQuestions : list QuizQuestion;
  quizLoading : bool;
  quizAnswers : list (option Z);
  quizSubmitted : bool;
  quizScore : jsnum;
  applicationText : string;
  deepDiveText : string;
  insightLoading : bool;
  effects : list Effect          (* newest first *)
}.

(** The props the component is rendered with. *)
Record Props : Type := mkProps {
  flashcards : nat;              (* flashcards.length *)
  course_quiz : list QuizQuestion;   (* course.quiz || [] *)
  currentUser : option string
}.

Definition initial (p : Props) : State :=
  {| currentLevel := FLASHCARDS; maxUnlockedLevel := FLASHCARDS;
     currentCard := Some O; isFlipped := false;
     quizQuestions := course_quiz p; quizLoading := false;
     quizAnswers := []; quizSubmitted := false; quizScore := Num 0;
     applicationText := ""; deepDiveText := ""; insightLoading := false;
     effects := [] |}.

Definition set_levels (cur mx : Level) (s : State) : State :=
  {| currentLevel := cur; maxUnlockedLevel := mx;
     currentCard := currentCard s; isFlipped := isFlipped s;
     quizQuestions := quizQuestions s; quizLoading := quizLoading s;
     quizAnswers := quizAnswers s; quizSubmitted := quizSubmitted s;
     quizScore := quizScore s; applicationText := applicationText s;
     deepDiveText := deepDiveText s; insightLoading := insightLoading s;
     effects := effects s |}.

Definition add_effect (e : Effect) (s : State) : State :=
  {| currentLevel := currentLevel s; maxUnlockedLevel := maxUnlockedLevel s;
     currentCard := currentCard s; isFlipped := isFlipped s;
     quizQuestions := quizQuestions s; quizLoading := quizLoading s;
     quizAnswers := quizAnswers s; quizSubmitted := quizSubmitted s;
     quizScore := quizScore s; applicationText := applicationText s;
     deepDiveText := deepDiveText s; insightLoading := insightLoading s;
     effects := e :: effects s |}.

(** [unlockLevel]: the maximum moves only to a strictly greater level. *)
Definition unlockLevel (level : Level) (s : State) : State :=
  set_levels level
    (if level_num level >? level_num (maxUnlockedLevel s)
     then level else maxUnlockedLevel s) s.

Definition handleFinishFlashcards (s : State) : State := unlockLevel QUIZ s.

Definition handleFinishQuiz (s : State) : State :=
  if jsnum_ge (quizScore s) (Num 60) then unlockLevel APPLICATION s
  else add_effect
    (Alert "You must score at least 60% to proceed. Review the flashcards and try again.") s.

Definition handleFinishApplication (s : State) : State :=
  unlockLevel DEEP_DIVE s.

Definition handleFinishDeepDive (p : Props) (s : State) : State :=
  add_effect OnBack
    (match currentUser p with
     | Some u => if String.eqb u "" then s else add_effect AddToHistoryCompleted s
     | None => s
     end).

(** *** Flashcards *)

Definition set_card (c : option nat) (s : State) : State :=
  {| currentLevel := currentLevel s; maxUnlockedLevel := maxUnlockedLevel s;
     currentCard := c; isFlipped := false;
     quizQuestions := quizQuestions s; quizLoading := quizLoading s;
     quizAnswers := quizAnswers s; quizSubmitted := quizSubmitted s;
     quizScore := quizScore s; applicationText := applicationText s;
     deepDiveText := deepDiveText s; insightLoading := insightLoading s;
     effects := effects s |}.

Definition set_flipped (b : bool) (s : State) : State :=
  {| currentLevel := currentLevel s; maxUnlockedLevel := maxUnlockedLevel s;
     currentCard := currentCard s; isFlipped := b;
     quizQuestions := quizQuestions s; quizLoading := quizLoading s;
     quizAnswers := quizAnswers s; quizSubmitted := quizSubmitted s;
     quizScore := quizScore s; applicationText := applicationText s;
     deepDiveText := deepDiveText s; insightLoading := insightLoading s;
     effects := effects s |}.

(** [(prev + 1) % flashcards.length], with the 200 ms timer run to its
    end; the remainder by zero is NaN and NaN stays NaN. *)
Definition handleNextCard (p : Props) (s : State) : State :=
  set_card
    (match currentCard s, flashcards p with
     | Some k, S _ => Some ((k + 1) `mod` flashcards p)%nat
     | _, _ => None
     end) s.

(** [(prev - 1 + flashcards.length) % flashcards.length]. *)
Definition handlePrevCard (p : Props) (s : State) : State :=
  set_card
    (match currentCard s, flashcards p with
     | Some k, S _ =>
         Some (Z.to_nat ((Z.of_nat k - 1 + Z.of_nat (flashcards p))
                         `mod` Z.of_nat (flashcards p)))
     | _, _ => None
     end) s.

(** [currentCard === flashcards.length - 1] *)
Definition isLastCard (p : Props) (s : State) : bool :=
  match currentCard s with
  | Some k => Z.of_nat k =? Z.of_nat (flashcards p) - 1
  | None => false
  end.

(** *** Quiz *)

Definition set_quiz (qs : list QuizQuestion) (loading : bool)
    (ans : list (option Z)) (sub : bool) (score : jsnum) (s : State) : State :=
  {| currentLevel := currentLevel s; maxUnlockedLevel := maxUnlockedLevel s;
     currentCard := currentCard s; isFlipped := isFlipped s;
     quizQuestions := qs; quizLoading := loading;
     quizAnswers := ans; quizSubmitted := sub;
     quizScore := score; applicationText := applicationText s;
     deepDiveText := deepDiveText s; insightLoading := insightLoading s;
     effects := effects s |}.

Definition handleQuizSelect (qIndex optionIndex : nat) (s : State) : State :=
  if quizSubmitted s then s
  else set_quiz (quizQuestions s) (quizLoading s)
         (array_assign (quizAnswers s) qIndex (Z.of_nat optionIndex))
         (quizSubmitted s) (quizScore s) s.

(** [quizAnswers[i] === q.answer]: a hole is [undefined] and equals no
    number. *)
Definition answered_right (ans : list (option Z)) (i : nat) (q : QuizQuestion)
  : bool :=
  match array_read ans i with
  | Some a => a =? answer q
  | None => false
  end.

(** The [forEach] loop of [submitQuiz]: [i] is the index of the head of
    [qs], [correct] the counter. *)
Fixpoint count_correct (ans : list (option Z)) (qs : list QuizQuestion)
    (i correct : nat) : nat :=
  match qs with
  | [] => correct
  | q :: rest =>
      count_correct ans rest (S i)
        (if answered_right ans i q then S correct else correct)
  end.

Definition submitQuiz (s : State) : State :=
  if (length (quizAnswers s) <? length (quizQuestions s))%nat
  then add_effect (Alert "Please answer all questions.") s
  else
    let correct := count_correct (quizAnswers s) (quizQuestions s) 0 0 in
    let score := percent_of correct (length (quizQuestions s)) in
    set_quiz (quizQuestions s) (quizLoading s) (quizAnswers s) true score s.

(** *** The three fetch effects *)

Definition set_texts (app deep : string) (loading : bool) (s : State) : State :=
  {| currentLevel := currentLevel s; maxUnlockedLevel := maxUnlockedLevel s;
     currentCard := currentCard s; isFlipped := isFlipped s;
     quizQuestions := quizQuestions s; quizLoading := quizLoading s;
     quizAnswers := quizAnswers s; quizSubmitted := quizSubmitted s;
     quizScore := quizScore s; applicationText := app;
     deepDiveText := deep; insightLoading := loading;
     effects := effects s |}.

Definition is_empty_string (t : string) : bool := String.eqb t "".

(** *** The component as a transition system *)

Inductive Action : Type :=
  | ClickLevel (l : Level)            (* a button of the progression bar *)
  | FlipCard
  | NextCard
  | PrevCard
  | FinishFlashcards
  | QuizSelect (qIndex optionIndex : nat)
  | SubmitQuiz
  | FinishQuiz
  | FinishApplication
  | FinishDeepDive
  | QuizFetchStart                    (* the effect fires *)
  | QuizFetchDone (q : list QuizQuestion)
  | ApplicationFetchStart
  | ApplicationFetchDone (text : string)
  | DeepDiveFetchStart
  | DeepDiveFetchDone (text : string).

(** [maxUnlockedLevel >= l] *)
Definition isUnlocked (s : State) (l : Level) : bool :=
  level_num (maxUnlockedLevel s) >=? level_num l.

Definition handle (p : Props) (a : Action) (s : State) : State :=
  match a with
  | ClickLevel l => if isUnlocked s l then set_levels l (maxUnlockedLevel s) s else s
  | FlipCard => set_flipped (negb (isFlipped s)) s
  | NextCard => handleNextCard p s
  | PrevCard => handlePrevCard p s
  | FinishFlashcards => handleFinishFlashcards s
  | QuizSelect qi oi => handleQuizSelect qi oi s
  | SubmitQuiz => submitQuiz s
  | FinishQuiz => handleFinishQuiz s
  | FinishApplication => handleFinishApplication s
  | FinishDeepDive => handleFinishDeepDive p s
  | QuizFetchStart =>
      set_quiz (quizQuestions s) true (quizAnswers s) (quizSubmitted s)
        (quizScore s) s
  | QuizFetchDone q =>
      set_quiz q false (quizAnswers s) (quizSubmitted s) (quizScore s) s
  | ApplicationFetchStart | DeepDiveFetchStart =>
      set_texts (applicationText s) (deepDiveText s) true s
  | ApplicationFetchDone t => set_texts t (deepDiveText s) false s
  | DeepDiveFetchDone t => set_texts (applicationText s) t false s
  end.

(** What the rendered page lets happen: a control that is not rendered,
    or is disabled, fires nothing. *)
Definition enabled (p : Props) (s : State) (a : Action) : bool :=
  match a with
  | ClickLevel l => isUnlocked s l
  | FlipCard | PrevCard => bool_decide (currentLevel s = FLASHCARDS)
  | NextCard =>
      bool_decide (currentLevel s = FLASHCARDS) && negb (isLastCard p s)
  | FinishFlashcards =>
      bool_decide (currentLevel s = FLASHCARDS) && isLastCard p s
  | QuizSelect qi _ =>
      bool_decide (currentLevel s = QUIZ) && negb (quizLoading s)
      && negb (quizSubmitted s) && (qi <? length (quizQuestions s))%nat
  | SubmitQuiz =>
      bool_decide (currentLevel s = QUIZ) && negb (quizLoading s)
      && negb (quizSubmitted s)
  | FinishQuiz =>
      bool_decide (currentLevel s = QUIZ) && negb (quizLoading s)
      && quizSubmitted s && jsnum_ge (quizScore s) (Num 60)
  | FinishApplication =>
      bool_decide (currentLevel s = APPLICATION) && negb (insightLoading s)
  | FinishDeepDive =>
      bool_decide (currentLevel s = DEEP_DIVE) && negb (insightLoading s)
  | QuizFetchStart =>
      bool_decide (currentLevel s = QUIZ)
      && (length (quizQuestions s) =? 0)%nat && negb (quizLoading s)
  | ApplicationFetchStart =>
      bool_decide (currentLevel s = APPLICATION)
      && is_empty_string (applicationText s) && negb (insightLoading s)
  | DeepDiveFetchStart =>
      bool_decide (currentLevel s = DEEP_DIVE)
      && is_empty_string (deepDiveText s) && negb (insightLoading s)
  | QuizFetchDone _ | ApplicationFetchDone _ | DeepDiveFetchDone _ => true
  end.

Definition step (p : Props) (s : State) (a : Action) : State :=
  if enabled p s a then handle p a s else s.

Definition run (p : Props) (s : State) (acts : list Action) : State :=
  fold_left (step p) acts s.

End CourseViewer.

(** ** The calculus tome: CALCULUS_CURRICULUM and CalculusPage *)

Module Calculus.

Inductive StepType : Type := observation | incantation | casting | mastery.

(** A [Step] of the curriculum.  The display-only texts ([text], [latex],
    [hint], the slider's label and range) do not reach any handler and are
    left out; of [sliderConfig] the handlers read [default]. *)
Record Step : Type := mkStep {
  id : string;
  type : StepType;
  slider_default : option Q;
  question : option string;
  correctAnswer : option string
}.

Record Chapter : Type := mkChapter {
  chapter_id : string;
  title : string;
  steps : list Step
}.

Definition CALCULUS_CURRICULUM : list Chapter :=
  [ mkChapter "limits" "The Limit"
      [ mkStep "l1-obs" observation (Some (3 # 2)) None None;
        mkStep "l1-inc" incantation (Some (1 # 10)) None None;
        mkStep "l1-cast" casting None (Some "Enter the slope:") (Some "2.1") ];
    mkChapter "derivatives" "The Derivative"
      [ mkStep "d1-obs" observation (Some 0%Q) None None;
        mkStep "d1-inc" incantation (Some 1%Q) None None;
        mkStep "d1-cast" casting None (Some "Calculate the slope:") (Some "6") ];
    mkChapter "integrals" "The Integral"
      [ mkStep "i1-obs" observation (Some 4%Q) None None;
        mkStep "i1-inc" incantation (Some 20%Q) None None;
        mkStep "i1-cast" casting None (Some "Enter the area:") (Some "9") ] ].

Inductive Feedback : Type := neutral | correct | wrong.

#[global] Instance Feedback_eq_dec : EqDecision Feedback.
Proof. solve_decision. Defined.

Record State : Type := mkState {
  currentChapterIndex : Z;
  currentStepIndex : Z;
  sliderValue : Q;
  userInput : ustring;
  feedback : Feedback;
  left_page : bool       (* the final alert was shown and onBack called *)
}.

(** [arr[i]] for a numeric index. *)
Definition at_index {A} (arr : list A) (i : Z) : option A :=
  if i <? 0 then None else arr !! Z.to_nat i.

Section Page.
Variable curriculum : list Chapter.

Definition chapter_of (s : State) : option Chapter :=
  at_index curriculum (currentChapterIndex s).

Definition step_of (s : State) : option Step :=
  match chapter_of s with
  | Some ch => at_index (steps ch) (currentStepIndex s)
  | None => None
  end.

(** The effect on [currentStepIndex, currentChapterIndex]: it runs after
    the render that follows a change of either index, and once on
    mount. *)
Definition reset_for (ci si : Z) (s : State) : State :=
  let here := mkState ci si (sliderValue s) (userInput s) (feedback s)
                (left_page s) in
  match step_of here with
  | Some st =>
      mkState ci si
        (match slider_default st with
         | Some d => d
         | None => sliderValue s
         end) [] neutral (left_page s)
  | None => here
  end.

Definition initial : State :=
  reset_for 0 0 (mkState 0 0 0%Q [] neutral false).

Definition handleNext (s : State) : State :=
  match chapter_of s with
  | None => s
  | Some ch =>
      if currentStepIndex s <? Z.of_nat (length (steps ch)) - 1
      then reset_for (currentChapterIndex s) (currentStepIndex s + 1) s
      else if currentChapterIndex s <? Z.of_nat (length curriculum) - 1
      then reset_for (currentChapterIndex s + 1) 0 s
      else mkState (currentChapterIndex s) (currentStepIndex s)
             (sliderValue s) (userInput s) (feedback s) true
  end.

Definition handlePrev (s : State) : State :=
  if currentStepIndex s >? 0
  then reset_for (currentChapterIndex s) (currentStepIndex s - 1) s
  else if currentChapterIndex s >? 0
  then
    match at_index curriculum (currentChapterIndex s - 1) with
    | Some prev =>
        reset_for (currentChapterIndex s - 1)
          (Z.of_nat (length (steps prev)) - 1) s
    | None => s
    end
  else s.

(** [!step.correctAnswer]: a missing answer and the empty string. *)
Definition no_answer (st : Step) : bool :=
  match correctAnswer st with
  | None => true
  | Some a => String.eqb a ""
  end.

Definition ustring_eqb (a b : ustring) : bool := bool_decide (a = b).

Definition checkAnswer (s : State) : State :=
  match step_of s with
  | None => s
  | Some st =>
      if no_answer st then s
      else
        mkState (currentChapterIndex s) (currentStepIndex s)
          (sliderValue s) (userInput s)
          (if ustring_eqb (trim (userInput s))
                (ustring_of (default "" (correctAnswer st)))
           then correct else wrong)
          (left_page s)
  end.

(** The [disabled] attribute of the Next button:
    [step.question !== undefined && feedback !== 'correct']. *)
Definition next_disabled (s : State) : bool :=
  match step_of s with
  | Some st =>
      bool_decide (question st <> None)
      && bool_decide (feedback s <> correct)
  | None => false
  end.

(** The answer box is rendered for a truthy [step.question]. *)
Definition question_shown (s : State) : bool :=
  match step_of s with
  | Some st =>
      match question st with
      | Some q => negb (String.eqb q "")
      | None => false
      end
  | None => false
  end.

Inductive Action : Type :=
  | SetInput (v : ustring)
  | Check
  | Next
  | Prev
  | SetSlider (v : Q).

Definition handle (a : Action) (s : State) : State :=
  match a with
  | SetInput v =>
      mkState (currentChapterIndex s) (currentStepIndex s) (sliderValue s)
        v (feedback s) (left_page s)
  | Check => checkAnswer s
  | Next => handleNext s
  | Prev => handlePrev s
  | SetSlider v =>
      mkState (currentChapterIndex s) (currentStepIndex s) v
        (userInput s) (feedback s) (left_page s)
  end.

Definition enabled (s : State) (a : Action) : bool :=
  negb (left_page s) &&
  match a with
  | SetInput _ | Check =>
      question_shown s && negb (bool_decide (feedback s = correct))
  | Next => negb (next_disabled s)
  | Prev =>
      negb ((currentChapterIndex s =? 0) && (currentStepIndex s =? 0))
  | SetSlider _ =>
      match step_of s with
      | Some st => bool_decide (slider_default st <> None)
      | None => false
      end
  end.

Definition step (s : State) (a : Action) : State :=
  if enabled s a then handle a s else s.

Definition run (s : State) (acts : list Action) : State :=
  fold_left step acts s.

End Page.

End Calculus.

(** ** The Socratic debate of the social page

    The debate of SocialPage with [battleConfig.mode = 'socratic'] and a
    topic chosen.  An event is a click, a key stroke, or the resolution of
    a promise an async handler awaits.  A handler reads the state of the
    latest render, and its updates are rendered before the next event; the
    continuation of an async handler keeps the variables it closed over
    ([newHistory]) and updates the turn through [prev => prev + 1]. *)

Module Socratic.

Inductive Role : Type := skeptic | user.

#[global] Instance Role_eq_dec : EqDecision Role.
Proof. solve_decision. Defined.

Record Msg : Type := mkMsg { role : Role; text : ustring }.

Inductive BattleState : Type :=
  lobby | matchmaking | active | judging | results.

#[global] Instance BattleState_eq_dec : EqDecision BattleState.
Proof. solve_decision. Defined.

(** What [judgeSocraticRound] resolves to. *)
Record Verdict : Type := mkVerdict {
  pass : bool;
  score : Z;
  verdict_feedback : string
}.

(** An async handler suspended at its [await]: the call it waits for and
    the variables its continuation closes over. *)
Inductive Pending : Type :=
  | AwaitOpening                            (* generateSocraticChallenge *)
  | AwaitRebuttal (newHistory : list Msg)   (* simulateSkepticTurn *)
  | AwaitVerdict.                           (* judgeSocraticRound *)

#[global] Instance Msg_eq_dec : EqDecision Msg.
Proof. solve_decision. Defined.

#[global] Instance Pending_eq_dec : EqDecision Pending.
Proof. solve_decision. Defined.

(** A promise resolves: its handler (the oldest one waiting for that
    call) leaves the waiting list. *)
Fixpoint settle (p : Pending) (l : list Pending) : list Pending :=
  match l with
  | [] => []
  | q :: rest => if decide (p = q) then rest else q :: settle p rest
  end.

Record State : Type := mkState {
  battleState : BattleState;
  socraticTurn : Z;
  socraticHistory : list Msg;
  socraticResult : option Verdict;
  userAnswer : ustring;
  pending : list Pending;
  (* instrumentation: the histories [judgeSocraticRound] was called with
     since the round started, newest first *)
  judge_calls : list (list Msg)
}.

Definition initial : State :=
  mkState lobby 0 [] None [] [] [].

(** [startMatchmaking] in socratic mode with a topic chosen, up to the
    [await] of [startSocraticRound]. *)
Definition startSocraticRound (s : State) : State :=
  mkState active 1 [] None [] (pending s ++ [AwaitOpening]) [].

(** The continuation of [startSocraticRound]. *)
Definition opening_arrives (opening : ustring) (s : State) : State :=
  mkState (battleState s) (socraticTurn s) [mkMsg skeptic opening]
    (socraticResult s) (userAnswer s)
    (settle AwaitOpening (pending s)) (judge_calls s).

(** [!userAnswer.trim()] *)
Definition is_blank (t : ustring) : bool :=
  match trim t with
  | [] => true
  | _ :: _ => false
  end.

(** [submitSocraticAnswer] up to its [await]. *)
Definition submitSocraticAnswer (s : State) : State :=
  if is_blank (userAnswer s) then s
  else
    let newHistory := socraticHistory s ++ [mkMsg user (userAnswer s)] in
    if socraticTurn s <? 3
    then mkState (battleState s) (socraticTurn s) newHistory
           (socraticResult s) [] (pending s ++ [AwaitRebuttal newHistory])
           (judge_calls s)
    else mkState judging (socraticTurn s) newHistory
           (socraticResult s) [] (pending s ++ [AwaitVerdict])
           (newHistory :: judge_calls s).

(** The continuation after [simulateSkepticTurn]. *)
Definition rebuttal_arrives (newHistory : list Msg) (rebuttal : ustring)
    (s : State) : State :=
  mkState (battleState s) (socraticTurn s + 1)
    (newHistory ++ [mkMsg skeptic rebuttal])
    (socraticResult s) (userAnswer s)
    (settle (AwaitRebuttal newHistory) (pending s))
    (judge_calls s).

(** The continuation after [judgeSocraticRound]. *)
Definition verdict_arrives (v : Verdict) (s : State) : State :=
  mkState results (socraticTurn s) (socraticHistory s) (Some v)
    (userAnswer s) (settle AwaitVerdict (pending s))
    (judge_calls s).

Inductive Event : Type :=
  | Start                                   (* Face The Skeptic *)
  | TypeAnswer (t : ustring)
  | Speak                                   (* the button, or Enter *)
  | Abandon                                 (* also Return to Lobby *)
  | OpeningArrives (opening : ustring)
  | RebuttalArrives (newHistory : list Msg) (rebuttal : ustring)
  | VerdictArrives (v : Verdict).

Definition handle (e : Event) (s : State) : State :=
  match e with
  | Start => startSocraticRound s
  | TypeAnswer t =>
      mkState (battleState s) (socraticTurn s) (socraticHistory s)
        (socraticResult s) t (pending s) (judge_calls s)
  | Speak => submitSocraticAnswer s
  | Abandon =>
      mkState lobby (socraticTurn s) (socraticHistory s) (socraticResult s)
        (userAnswer s) (pending s) (judge_calls s)
  | OpeningArrives o => opening_arrives o s
  | RebuttalArrives h r => rebuttal_arrives h r s
  | VerdictArrives v => verdict_arrives v s
  end.

(** What can happen in a state: the lobby shows the start button, the
    input row is rendered while the state is [active], and a promise
    resolves only if its handler is waiting for it. *)
Definition enabled (s : State) (e : Event) : bool :=
  match e with
  | Start => bool_decide (battleState s = lobby)
  | TypeAnswer _ | Speak => bool_decide (battleState s = active)
  | Abandon =>
      bool_decide (battleState s = active)
      || bool_decide (battleState s = judging)
      || bool_decide (battleState s = results)
  | OpeningArrives _ => bool_decide (AwaitOpening ∈ pending s)
  | RebuttalArrives h _ => bool_decide (AwaitRebuttal h ∈ pending s)
  | VerdictArrives _ => bool_decide (AwaitVerdict ∈ pending s)
  end.

Definition step (s : State) (e : Event) : State :=
  if enabled s e then handle e s else s.

Definition run (s : State) (evs : list Event) : State :=
  fold_left step evs s.

(** The user waits for the skeptic: Start and Speak happen only when no
    reply is outstanding. *)
Definition patient (s : State) (e : Event) : bool :=
  match e with
  | Start | Speak => bool_decide (pending s = [])
  | _ => true
  end.

Fixpoint patient_run (s : State) (evs : list Event) : bool :=
  match evs with
  | [] => true
  | e :: rest => patient s e && patient_run (step s e) rest
  end.

(** The roles of [h] alternate, the first one being [r]. *)
Fixpoint alternates (r : Role) (h : list Msg) : bool :=
  match h with
  | [] => true
  | m :: rest =>
      bool_decide (role m = r)
      && alternates (match r with skeptic => user | user => skeptic end) rest
  end.

Definition user_turns (h : list Msg) : nat :=
  length (filter (fun m => role m = user) h).

End Socratic.

(** ** src/services/geminiService.ts: the generation operations *)

Module Gemini.

(** How a promise settles. *)
Inductive Settled (E A : Type) : Type :=
  | Resolved (a : A)
  | Rejected (e : E).
Arguments Resolved {E A} a.
Arguments Rejected {E A} e.

Definition bind {E A B} (m : Settled E A) (k : A -> Settled E B)
  : Settled E B :=
  match m with
  | Resolved a => k a
  | Rejected e => Rejected e
  end.

(** [try { body } catch (e) { handler }] *)
Definition try_catch {E A} (body : Settled E A) (handler : E -> Settled E A)
  : Settled E A :=
  match body with
  | Resolved a => Resolved a
  | Rejected e => handler e
  end.

Notation "'await' x <- m 'in' k" := (bind m (fun x => k))
  (at level 10, x name, m at level 200, k at level 200).


(** What is thrown: the three texts [generateVideoIntro] inspects. *)
Record Error : Type := mkError {
  message : string;
  status : string;
  serialized : string      (* JSON.stringify(error) *)
}.

Definition SyntaxError : Error := mkError "SyntaxError" "" "{}".

Record Part : Type := mkPart { inlineData : option ustring }.

(** A [GenerateContentResponse]: [response.text] and the parts of its
    first candidate ([[]] when any link of the optional chain is
    missing). *)
Record Response : Type := mkResponse {
  text : option ustring;
  parts : list Part
}.

Section Service.
(** The value a JSON text denotes, and [JSON.parse], which throws a
    SyntaxError ([None]) on other texts. *)
Variable json : Type.
Variable JSON_parse : ustring -> option json.

Record Judgement : Type := mkJudgement {
  j_user : string; j_score : Z; j_feedback : ustring
}.

Inductive Value : Type :=
  | VNull
  | VText (t : ustring)
  | VJson (j : json)
  | VEmptyArray
  | VJudgements (l : list Judgement)
  | VVerdict (pass : bool) (score : Z) (feedback : ustring)
  | VBytes (b : ustring).

Definition M : Type -> Type := Settled Error.

Definition parse (t : ustring) : M Value :=
  match JSON_parse t with
  | Some j => Resolved (VJson j)
  | None => Rejected SyntaxError
  end.

(** [response.text || fallback]: the empty text is falsy too. *)
Definition text_or (r : Response) (fallback : string) : ustring :=
  match text r with
  | Some (c :: t) => c :: t
  | _ => ustring_of fallback
  end.

(** [response.text?.trim() || fallback] *)
Definition trimmed_or (r : Response) (fallback : string) : ustring :=
  match text r with
  | Some t =>
      match trim t with
      | [] => ustring_of fallback
      | c :: t' => c :: t'
      end
  | None => ustring_of fallback
  end.

(** The first part that carries inline data. *)
Fixpoint first_inline (ps : list Part) : option ustring :=
  match ps with
  | [] => None
  | p :: rest =>
      match inlineData p with
      | Some d => Some d
      | None => first_inline rest
      end
  end.

(** The operations whose body is one [generateContent] call inside
    [try]; [remote] is how that call settles. *)
Inductive Op : Type :=
  | generateCoverImage
  | generateCourseContent
  | personalizeFlashcards
  | generateQuiz
  | generateApplicationInsight
  | generateDeepDive
  | generateBattleRound (topic : ustring)
  | simulateOpponentTurn
  | judgeBattleRound (answers : list (string * ustring))
  | generateSocraticChallenge
  | simulateSkepticTurn
  | judgeSocraticRound
  | generateCalculusProblem
  | generateSpeech (atob : ustring -> option ustring).

(** The [try] block. *)
Definition body (op : Op) (remote : M Response) : M Value :=
  await response <- remote in
  match op with
  | generateCoverImage =>
      Resolved (match first_inline (parts response) with
                | Some d => VText (ustring_of "data:image/png;base64," ++ d)
                | None => VNull
                end)
  | generateCourseContent | judgeSocraticRound =>
      parse (text_or response "{}")
  | personalizeFlashcards | generateQuiz | judgeBattleRound _ =>
      parse (text_or response "[]")
  | generateCalculusProblem => parse (text_or response "null")
  | generateApplicationInsight =>
      Resolved (VText (text_or response
        "The practical applications are vast but currently obscured."))
  | generateDeepDive =>
      Resolved (VText (text_or response "The deeper mysteries remain hidden."))
  | generateBattleRound _ =>
      Resolved (VText (trimmed_or response
        "Analyze the significance of this topic."))
  | simulateOpponentTurn =>
      Resolved (VText (trimmed_or response "I must contemplate this further."))
  | generateSocraticChallenge =>
      Resolved (VText (trimmed_or response
        "Explain this concept to me, for I find it logically flawed."))
  | simulateSkepticTurn =>
      Resolved (VText (trimmed_or response
        "Your definition lacks precision. Clarify."))
  | generateSpeech atob =>
      match parts response with
      | {| inlineData := Some (c :: d) |} :: _ =>
          match atob (c :: d) with
          | Some bytes => Resolved (VBytes bytes)
          | None => Rejected (mkError "InvalidCharacterError" "" "{}")
          end
      | _ => Resolved VNull
      end
  end.

(** The value of the [catch] block. *)
Definition fallback (op : Op) : Value :=
  match op with
  | generateCoverImage | generateCourseContent | personalizeFlashcards
  | generateCalculusProblem | generateSpeech _ => VNull
  | generateQuiz => VEmptyArray
  | generateApplicationInsight =>
      VText (ustring_of "Could not retrieve application data.")
  | generateDeepDive =>
      VText (ustring_of "Could not retrieve deep dive data.")
  | generateBattleRound topic =>
      VText (ustring_of "Discuss the implications of " ++ topic
             ++ ustring_of ".")
  | simulateOpponentTurn => VText (ustring_of "An interesting point.")
  | judgeBattleRound answers =>
      VJudgements
        (map (fun a => mkJudgement (fst a) 50
                         (ustring_of "The wind whispers silence.")) answers)
  | generateSocraticChallenge =>
      VText (ustring_of "Why does this concept exist?")
  | simulateSkepticTurn =>
      VText (ustring_of "I remain unconvinced. Try again.")
  | judgeSocraticRound =>
      VVerdict false 0 (ustring_of "The defense collapsed.")
  end.

Definition perform (op : Op) (remote : M Response) : M Value :=
  try_catch (body op remote) (fun _ => Resolved (fallback op)).

(** *** generateVideoIntro *)







(** *** The callers *)

Variable json_truthy : json -> bool.

Definition truthy (v : Value) : bool :=
  match v with
  | VNull => false
  | VText [] => false
  | VJson j => json_truthy j
  | _ => true
  end.

Inductive Ui : Type :=
  | ShowAlert (msg : string)
  | SetStatus (msg : string)
  | SetBattleState (st : string)
  | SetData (v : Value).





(** [handleAISubmit] of the cover page, up to the check of [content]. *)
Definition handleAISubmit (content : M Value) : M (list Ui) :=
  try_catch
    (await content <- content in
     if truthy content then Resolved [SetData content]
     else Rejected (mkError "AI failed to generate curriculum" "" "{}"))
    (fun _ => Resolved [SetStatus "The archives are silent (Error)."]).

End Service.

End Gemini.

(** ** JSON texts

    A model of [JSON.stringify] and [JSON.parse] on the values the backend
    stores: null, booleans, whole numbers, strings (over the code units
    below 256), arrays, and objects as their fields in enumeration order.
    [stringify] writes the compact text of ECMAScript; [parse] reads the
    texts that [stringify] writes and answers [None], the SyntaxError, for
    every text that is not JSON (and for JSON written another way: white
    space, fractions, exponents, escapes above 255). *)

Module Json.

#[warnings="-register-all"]
Inductive json : Type :=
  | JNull
  | JBool (b : bool)
  | JNumber (z : Z)
  | JString (s : string)
  | JArray (items : list json)
  | JObject (fields : list (string * json)).

(** The double quote and the backslash. *)
Abbreviation dq := ("034"%char) (only parsing).
Abbreviation bs := ("092"%char) (only parsing).

Definition hex_digit (n : nat) : Ascii.ascii :=
  nth n (String.list_ascii_of_string "0123456789abcdef") "0"%char.

Definition escape_char (c : Ascii.ascii) : string :=
  let n := Ascii.nat_of_ascii c in
  if (n =? 34)%nat then String bs (String dq "")
  else if (n =? 92)%nat then String bs (String bs "")
  else if (n =? 8)%nat then String bs "b"
  else if (n =? 12)%nat then String bs "f"
  else if (n =? 10)%nat then String bs "n"
  else if (n =? 13)%nat then String bs "r"
  else if (n =? 9)%nat then String bs "t"
  else if (n <? 32)%nat
  then String bs (String "u" (String "0" (String "0"
         (String (hex_digit (n / 16)) (String (hex_digit (n mod 16)) "")))))
  else String c "".

Fixpoint escape (s : string) : string :=
  match s with
  | EmptyString => ""
  | String c rest => escape_char c +:+ escape rest
  end.

Definition quote (s : string) : string :=
  String dq (escape s +:+ String dq "").

Fixpoint stringify (v : json) : string :=
  match v with
  | JNull => "null"
  | JBool true => "true"
  | JBool false => "false"
  | JNumber z => NilZero.string_of_int (Z.to_int z)
  | JString s => quote s
  | JArray items =>
      "[" +:+
      match items with
      | [] => ""
      | x :: more =>
          stringify x +:+
          (fix tail (l : list json) : string :=
             match l with
             | [] => ""
             | y :: l' => "," +:+ stringify y +:+ tail l'
             end) more
      end +:+ "]"
  | JObject fields =>
      "{" +:+
      match fields with
      | [] => ""
      | (k, x) :: more =>
          quote k +:+ ":" +:+ stringify x +:+
          (fix tail (l : list (string * json)) : string :=
             match l with
             | [] => ""
             | (k', y) :: l' => "," +:+ quote k' +:+ ":" +:+ stringify y +:+ tail l'
             end) more
      end +:+ "}"
  end.

Definition is_num_char (c : Ascii.ascii) : bool :=
  let n := Ascii.nat_of_ascii c in
  (n =? 45)%nat || ((48 <=? n)%nat && (n <=? 57)%nat).

Fixpoint span_num (s : string) : string * string :=
  match s with
  | EmptyString => ("", "")
  | String c rest =>
      if is_num_char c
      then let (a, b) := span_num rest in (String c a, b)
      else ("", s)
  end.

Definition parse_number (s : string) : option (json * string) :=
  let (t, rest) := span_num s in
  match NilZero.int_of_string t with
  | Some d =>
      if String.eqb (NilZero.string_of_int (Z.to_int (Z.of_int d))) t
      then Some (JNumber (Z.of_int d), rest)
      else None
  | None => None
  end.

Definition hex_value (c : Ascii.ascii) : option nat :=
  let n := Ascii.nat_of_ascii c in
  if ((48 <=? n) && (n <=? 57))%nat then Some (n - 48)%nat
  else if ((97 <=? n) && (n <=? 102))%nat then Some (n - 87)%nat
  else if ((65 <=? n) && (n <=? 70))%nat then Some (n - 55)%nat
  else None.

Definition hex4 (a b c d : Ascii.ascii) : option nat :=
  match hex_value a, hex_value b, hex_value c, hex_value d with
  | Some x, Some y, Some z, Some w => Some (((x * 16 + y) * 16 + z) * 16 + w)%nat
  | _, _, _, _ => None
  end.

Definition prepend (c : Ascii.ascii) (r : option (string * string))
  : option (string * string) :=
  match r with
  | Some (str, after) => Some (String c str, after)
  | None => None
  end.

Fixpoint parse_string_body (s : string) : option (string * string) :=
  match s with
  | EmptyString => None
  | String c r =>
      let n := Ascii.nat_of_ascii c in
      if (n =? 34)%nat then Some ("", r)
      else if (n =? 92)%nat then
        match r with
        | EmptyString => None
        | String e r' =>
            let m := Ascii.nat_of_ascii e in
            if (m =? 34)%nat then prepend dq (parse_string_body r')
            else if (m =? 92)%nat then prepend bs (parse_string_body r')
            else if (m =? 47)%nat then prepend "/"%char (parse_string_body r')
            else if (m =? 98)%nat then prepend "008"%char (parse_string_body r')
            else if (m =? 102)%nat then prepend "012"%char (parse_string_body r')
            else if (m =? 110)%nat then prepend "010"%char (parse_string_body r')
            else if (m =? 114)%nat then prepend "013"%char (parse_string_body r')
            else if (m =? 116)%nat then prepend "009"%char (parse_string_body r')
            else if (m =? 117)%nat then
              match r' with
              | String h1 (String h2 (String h3 (String h4 r''))) =>
                  match hex4 h1 h2 h3 h4 with
                  | Some code =>
                      if (code <? 256)%nat
                      then prepend (Ascii.ascii_of_nat code) (parse_string_body r'')
                      else None
                  | None => None
                  end
              | _ => None
              end
            else None
        end
      else if (n <? 32)%nat then None
      else prepend c (parse_string_body r)
  end.

(** The rest of [s] behind the word it must start with. *)
Fixpoint strip (word s : string) : option string :=
  match word with
  | EmptyString => Some s
  | String a word' =>
      match s with
      | String b s' => if Ascii.eqb a b then strip word' s' else None
      | EmptyString => None
      end
  end.

Definition expect (word : string) (s : string) (v : json)
  : option (json * string) :=
  match strip word s with
  | Some rest => Some (v, rest)
  | None => None
  end.

Fixpoint parse_value (fuel : nat) (s : string) : option (json * string) :=
  match fuel with
  | O => None
  | S fuel =>
      match s with
      | EmptyString => None
      | String c rest =>
          let n := Ascii.nat_of_ascii c in
          if is_num_char c then parse_number s
          else if (n =? 110)%nat then expect "ull" rest JNull
          else if (n =? 116)%nat then expect "rue" rest (JBool true)
          else if (n =? 102)%nat then expect "alse" rest (JBool false)
          else if (n =? 34)%nat then
            match parse_string_body rest with
            | Some (str, after) => Some (JString str, after)
            | None => None
            end
          else if (n =? 91)%nat then
            match rest with
            | EmptyString => None
            | String c' after =>
                if (Ascii.nat_of_ascii c' =? 93)%nat then Some (JArray [], after)
                else
                  match parse_value fuel rest with
                  | Some (x, after) =>
                      match parse_items fuel after with
                      | Some (more, after') => Some (JArray (x :: more), after')
                      | None => None
                      end
                  | None => None
                  end
            end
          else if (n =? 123)%nat then
            match rest with
            | String "}" after => Some (JObject [], after)
            | _ =>
                match parse_field fuel rest with
                | Some (kx, after) =>
                    match parse_fields fuel after with
                    | Some (more, after') => Some (JObject (kx :: more), after')
                    | None => None
                    end
                | None => None
                end
            end
          else None
      end
  end
with parse_items (fuel : nat) (s : string) : option (list json * string) :=
  match fuel with
  | O => None
  | S fuel =>
      match s with
      | String "]" after => Some ([], after)
      | String "," rest =>
          match parse_value fuel rest with
          | Some (x, after) =>
              match parse_items fuel after with
              | Some (more, after') => Some (x :: more, after')
              | None => None
              end
          | None => None
          end
      | _ => None
      end
  end
with parse_field (fuel : nat) (s : string) : option ((string * json) * string) :=
  match fuel with
  | O => None
  | S fuel =>
      match s with
      | String q rest =>
          if (Ascii.nat_of_ascii q =? 34)%nat then
            match parse_string_body rest with
            | Some (k, String ":" after) =>
                match parse_value fuel after with
                | Some (x, after') => Some ((k, x), after')
                | None => None
                end
            | _ => None
            end
          else None
      | EmptyString => None
      end
  end
with parse_fields (fuel : nat) (s : string)
  : option (list (string * json) * string) :=
  match fuel with
  | O => None
  | S fuel =>
      match s with
      | String "}" after => Some ([], after)
      | String "," rest =>
          match parse_field fuel rest with
          | Some (kx, after) =>
              match parse_fields fuel after with
              | Some (more, after') => Some (kx :: more, after')
              | None => None
              end
          | None => None
          end
      | _ => None
      end
  end.

Definition parse (s : string) : option json :=
  match parse_value (S (String.length s)) s with
  | Some (v, EmptyString) => Some v
  | _ => None
  end.

(** The text of the elements after the first, and of the fields after the
    first, as [stringify] writes them. *)
Fixpoint tail_items (l : list json) : string :=
  match l with
  | [] => ""
  | y :: l' => "," +:+ stringify y +:+ tail_items l'
  end.

Definition field_text (kx : string * json) : string :=
  quote (fst kx) +:+ ":" +:+ stringify (snd kx).

Fixpoint tail_fields (l : list (string * json)) : string :=
  match l with
  | [] => ""
  | (k, y) :: l' => "," +:+ quote k +:+ ":" +:+ stringify y +:+ tail_fields l'
  end.

Fixpoint all_num (s : string) : bool :=
  match s with
  | EmptyString => true
  | String c rest => is_num_char c && all_num rest
  end.

(** What may follow a number: nothing that would continue it. *)
Definition ends_number (rest : string) : Prop :=
  match rest with
  | EmptyString => True
  | String c _ => is_num_char c = false
  end.

End Json.

(** ** The [db] wrapper around localStorage *)

Module LocalDb.

Section Db.
(** The values JSON texts denote, with [null]; [JSON.parse] throws a
    SyntaxError ([None]) on a text that is not JSON, [JSON.stringify]
    is defined on every such value. *)
Variable json : Type.
Variable null : json.
Variable JSON_parse : string -> option json.
Variable JSON_stringify : json -> string.

(** localStorage: a finite map from keys to texts. *)
Definition getItem (key : string) (store : gmap string string)
  : option string := store !! key.

Definition setItem (key value : string) (store : gmap string string)
  : gmap string string := <[key := value]> store.

(** [db.get]: a missing item and the empty text are falsy; the [catch]
    turns the SyntaxError into [null]. *)
Definition get (key : string) (store : gmap string string) : json :=
  match getItem key store with
  | Some (String c rest) =>
      match JSON_parse (String c rest) with
      | Some value => value
      | None => null
      end
  | Some EmptyString => null
  | None => null
  end.

(** [db.save] *)
Definition save (key : string) (data : json) (store : gmap string string)
  : gmap string string :=
  setItem key (JSON_stringify data) store.

End Db.

(** [db] over the JSON model. *)
Definition db_get (key : string) (store : gmap string string) : Json.json :=
  get Json.json Json.JNull Json.parse key store.

Definition db_save (key : string) (data : Json.json)
    (store : gmap string string) : gmap string string :=
  save Json.json Json.stringify key data store.

End LocalDb.

(** ** The mock backend: courses, likes, comments, history *)

Module MockBackend.

Record Comment : Type := mkComment {
  comment_id : string;
  comment_author : string;
  comment_text : string;
  comment_timestamp : Z
}.

Inductive CourseType : Type := flashcard | video | mixed.

(** The fields of a [Course] that the backend only carries along
    ([description], [content], [roadmap] and the other display fields
    travel with them). *)
Record CourseInfo : Type := mkInfo {
  title : string;
  subject : string;
  type : CourseType;
  level : string;
  author : string
}.

(** A [Course]; an optional social field that is missing is [None]. *)
Record Course : Type := mkCourse {
  id : string;
  info : CourseInfo;
  isPublic : option bool;
  likes : option (list string);
  comments : option (list Comment)
}.

Inductive HistoryAction : Type := viewed | completed.

Record HistoryRecord : Type := mkHistory {
  h_courseId : string;
  h_timestamp : Z;
  h_action : HistoryAction
}.

#[global] Instance Comment_eq_dec : EqDecision Comment.
Proof. solve_decision. Defined.
#[global] Instance CourseType_eq_dec : EqDecision CourseType.
Proof. solve_decision. Defined.
#[global] Instance CourseInfo_eq_dec : EqDecision CourseInfo.
Proof. solve_decision. Defined.
#[global] Instance Course_eq_dec : EqDecision Course.
Proof. solve_decision. Defined.

(** What [db.get<T>] reads under the keys [lumi_db_courses] and
    [lumi_db_history], at the types the backend reads them with: the stored
    value, or [null] ([None]) while nothing was saved under the key; the
    JSON text underneath is the matter of [LocalDb].
    [Record<string, HistoryRecord[]>] is a finite map over its own
    properties: the names are those of registered users, and [saveUser]
    registers no name that [Object.prototype] defines.
    [localStorage.setItem] is taken to succeed (no quota). *)
Record Db : Type := mkDb {
  stored_courses : option (list Course);
  stored_history : option (gmap string (list HistoryRecord))
}.

Definition ENGINEERING_FOLDER : list (string * string) :=
  [ ("Module 1: Partial Derivatives",
     "Definitions, physical meaning, notation, and engineering interpretation.");
    ("Module 2: Chain Rule (Multivariable)",
     "Modeling systems where variables depend indirectly on other parameters.");
    ("Module 3: Extreme Values and Saddle Points",
     "Analysis of critical points and equilibrium in physical systems.");
    ("Module 4: Taylor’s Series",
     "Quadratic and Cubic Approximations for complex functions.") ].

Section Backend.
(** [Date.now()] when the module is loaded: the seed comment is dated
    from it. *)
Variable load_time : Z.

Definition SYSTEM_COURSES : list Course :=
  imap (fun i md =>
          mkCourse ("lumi-sys-eng-mod" +:+ pretty (i + 1)%nat)
            (mkInfo (fst md) "Engineering" flashcard "Undergraduate" "LUMI AI")
            (Some true) (Some ["scholar"; "curator"]) (Some []))
       ENGINEERING_FOLDER
  ++ [ mkCourse "lumi-sys-calc-001"
         (mkInfo "Calculus: Partial Differentiation" "Mathematics"
            flashcard "Undergraduate" "LUMI AI")
         (Some true) (Some ["scholar"; "novice"])
         (Some [mkComment "c1" "scholar"
                  "The section on Gradients is particularly illuminating."
                  (load_time - 1000000)]);
       mkCourse "lumi-sys-quant-002"
         (mkInfo "Quantum Physics: Wave Mechanics" "Physics" mixed
            "Undergraduate" "LUMI AI")
         (Some true) (Some ["curator"]) (Some []) ].

(** [c.id.startsWith('lumi-sys-')] *)
Definition is_system_id (i : string) : bool := String.prefix "lumi-sys-" i.

Definition getCourses (db : Db) : list Course :=
  let userCourses := default [] (stored_courses db) in
  let filteredUserCourses :=
    filter (fun c => is_system_id (id c) = false) userCourses in
  let normalizedSystem :=
    map (fun c => mkCourse (id c) (info c) (Some true)
                    (Some (default [] (likes c)))
                    (Some (default [] (comments c))))
        SYSTEM_COURSES in
  normalizedSystem ++ filteredUserCourses.

(** [c.isPublic] as a filter condition. *)
Definition getPublicCourses (db : Db) : list Course :=
  filter (fun c => isPublic c = Some true) (getCourses db).

Definition save_courses (courses : list Course) (db : Db) : Db :=
  mkDb (Some courses) (stored_history db).

(** [courses.findIndex(c => c.id === courseId)] with the element. *)
Definition find_course (courseId : string) (courses : list Course)
  : option (nat * Course) :=
  list_find (fun c => id c = courseId) courses.

Definition saveCourse (course : Course) (db : Db) : Db :=
  let courses := default [] (stored_courses db) in
  match find_course (id course) courses with
  | Some (index, _) => save_courses (<[index := course]> courses) db
  | None => save_courses (courses ++ [course]) db
  end.

Definition with_likes (c : Course) (l : list string) : Course :=
  mkCourse (id c) (info c) (isPublic c) (Some l) (comments c).

Definition with_comments (c : Course) (l : list Comment) : Course :=
  mkCourse (id c) (info c) (isPublic c) (likes c) (Some l).

(** The two branches on [likes.includes(username)]. *)
Definition toggled (likes : list string) (username : string) : list string :=
  if bool_decide (username ∈ likes)
  then filter (fun u => u <> username) likes
  else likes ++ [username].

Definition toggleLikeCourse (courseId username : string) (db : Db) : Db :=
  let courses := default [] (stored_courses db) in
  match find_course courseId courses with
  | Some (courseIndex, course) =>
      let likes := default [] (likes course) in
      let course := with_likes course (toggled likes username) in
      save_courses (<[courseIndex := course]> courses) db
  | None =>
      match find (fun c => bool_decide (id c = courseId)) SYSTEM_COURSES with
      | Some sysCourse =>
          let newCourse := with_likes sysCourse (default [] (likes sysCourse)) in
          let newCourse :=
            with_likes newCourse
              (toggled (default [] (likes newCourse)) username) in
          save_courses (courses ++ [newCourse]) db
      | None => db
      end
  end.

Definition addCommentToCourse (courseId : string) (comment : Comment)
    (db : Db) : Db :=
  let courses := default [] (stored_courses db) in
  match find_course courseId courses with
  | Some (courseIndex, course) =>
      let course :=
        with_comments course (comment :: default [] (comments course)) in
      save_courses (<[courseIndex := course]> courses) db
  | None =>
      match find (fun c => bool_decide (id c = courseId)) SYSTEM_COURSES with
      | Some sysCourse =>
          let newCourse :=
            with_comments sysCourse
              (comment :: default [] (comments sysCourse)) in
          save_courses (courses ++ [newCourse]) db
      | None => db
      end
  end.

(** [addToHistory]; [now] is the value of [Date.now()]. *)
Definition addToHistory (now : Z) (username courseId : string)
    (action : HistoryAction) (db : Db) : Db :=
  let allHistory := default ∅ (stored_history db) in
  let userHistory := default [] (allHistory !! username) in
  let filtered :=
    filter (fun h => h_courseId h <> courseId) userHistory in
  let filtered := mkHistory courseId now action :: filtered in
  mkDb (stored_courses db)
    (Some (<[username := take 30 filtered]> allHistory)).


End Backend.

End MockBackend.

(** ** The same operations over a heap of JavaScript objects

    Courses and their [likes] and [comments] arrays are objects with an
    identity: [SYSTEM_COURSES] holds references to the seed objects, a
    spread copies references, [JSON.parse] allocates, and an assignment to
    a field writes one cell. *)

Module ObjectHeap.
Import MockBackend.

(** A reference is an index into the heap. *)
Abbreviation loc := nat (only parsing).

Record CourseObj : Type := mkObj {
  o_id : string;
  o_info : CourseInfo;
  o_isPublic : option bool;
  o_likes : option loc;
  o_comments : option loc
}.

(** [Comment] objects are never written to: an array holds them by
    value. *)
Inductive cell : Type :=
  | CObj (o : CourseObj)
  | CStrings (l : list string)
  | CComments (l : list Comment)
  | CCourses (l : list loc).

Abbreviation heap := (list cell) (only parsing).

(** A computation on the heap; [None] is a TypeError (a reference that
    does not hold what the code reads from it). *)
Definition M (A : Type) : Type := heap -> option (A * heap).

Definition ret {A} (a : A) : M A := fun h => Some (a, h).

Definition bind {A B} (m : M A) (k : A -> M B) : M B :=
  fun h => match m h with
           | Some (a, h') => k a h'
           | None => None
           end.

Notation "'let!' x ':=' m 'in' k" := (bind m (fun x => k))
  (at level 10, x name, m at level 200, k at level 200).

Definition alloc (c : cell) : M loc := fun h => Some (length h, h ++ [c]).

Definition write (a : loc) (c : cell) : M unit :=
  fun h => if (a <? length h)%nat then Some (tt, <[a := c]> h) else None.

Definition read_obj (a : loc) : M CourseObj :=
  fun h => match h !! a with Some (CObj o) => Some (o, h) | _ => None end.

Definition read_strings (a : loc) : M (list string) :=
  fun h => match h !! a with Some (CStrings l) => Some (l, h) | _ => None end.

Definition read_comments (a : loc) : M (list Comment) :=
  fun h => match h !! a with Some (CComments l) => Some (l, h) | _ => None end.

Definition read_courses (a : loc) : M (list loc) :=
  fun h => match h !! a with Some (CCourses l) => Some (l, h) | _ => None end.

(** An optional field: allocate, or read, the array behind it. *)
Definition alloc_opt {A} (mk : A -> cell) (v : option A) : M (option loc) :=
  match v with
  | Some x => let! a := alloc (mk x) in ret (Some a)
  | None => ret None
  end.

Definition read_opt {A} (rd : loc -> M A) (a : option loc) : M (option A) :=
  match a with
  | Some a => let! x := rd a in ret (Some x)
  | None => ret None
  end.

(** *** JSON.parse and JSON.stringify of a course list *)

Definition new_course (c : Course) : M loc :=
  let! l := alloc_opt CStrings (likes c) in
  let! k := alloc_opt CComments (comments c) in
  alloc (CObj (mkObj (id c) (info c) (isPublic c) l k)).

Fixpoint new_courses (cs : list Course) : M (list loc) :=
  match cs with
  | [] => ret []
  | c :: rest =>
      let! a := new_course c in
      let! more := new_courses rest in
      ret (a :: more)
  end.

(** [db.get<Course[]>(STORAGE_KEYS.COURSES) || []] *)
Definition get_courses (db : Db) : M loc :=
  let! locs := new_courses (default [] (stored_courses db)) in
  alloc (CCourses locs).

Definition read_course (a : loc) : M Course :=
  let! o := read_obj a in
  let! l := read_opt read_strings (o_likes o) in
  let! k := read_opt read_comments (o_comments o) in
  ret (mkCourse (o_id o) (o_info o) (o_isPublic o) l k).

Fixpoint read_all (locs : list loc) : M (list Course) :=
  match locs with
  | [] => ret []
  | a :: rest =>
      let! c := read_course a in
      let! more := read_all rest in
      ret (c :: more)
  end.

(** [db.save(STORAGE_KEYS.COURSES, courses)] *)
Definition save_array (courses : loc) (db : Db) : M Db :=
  let! locs := read_courses courses in
  let! cs := read_all locs in
  ret (save_courses cs db).

(** [findIndex] and [find] by id over an array of course references. *)
Fixpoint find_index (courseId : string) (locs : list loc) (i : nat)
  : M (option (nat * loc)) :=
  match locs with
  | [] => ret None
  | a :: rest =>
      let! o := read_obj a in
      if decide (o_id o = courseId) then ret (Some (i, a))
      else find_index courseId rest (S i)
  end.

Definition set_likes (o : CourseObj) (l : loc) : CourseObj :=
  mkObj (o_id o) (o_info o) (o_isPublic o) (Some l) (o_comments o).

Definition set_comments (o : CourseObj) (l : loc) : CourseObj :=
  mkObj (o_id o) (o_info o) (o_isPublic o) (o_likes o) (Some l).

(** [x || []] for an optional array field. *)
Definition or_empty (mk : cell) (a : option loc) : M loc :=
  match a with
  | Some a => ret a
  | None => alloc mk
  end.

(** The module-level constant: the seed objects are allocated once, when
    the module is loaded. *)
Definition load_module (load_time : Z) : M loc :=
  let! locs := new_courses (SYSTEM_COURSES load_time) in
  alloc (CCourses locs).

Section Operations.
(** The reference held by [SYSTEM_COURSES]. *)
Variable SYSTEM_COURSES_ref : loc.

Definition toggleLikeCourse (courseId username : string) (db : Db) : M Db :=
  let! courses := get_courses db in
  let! locs := read_courses courses in
  let! found := find_index courseId locs 0 in
  match found with
  | Some (courseIndex, course) =>
      let! o := read_obj course in
      let! likes := or_empty (CStrings []) (o_likes o) in
      let! l := read_strings likes in
      let! fresh := alloc (CStrings (toggled l username)) in
      let! _ := write course (CObj (set_likes o fresh)) in
      let! _ := write courses (CCourses (<[courseIndex := course]> locs)) in
      save_array courses db
  | None =>
      let! seeds := read_courses SYSTEM_COURSES_ref in
      let! sysFound := find_index courseId seeds 0 in
      match sysFound with
      | Some (_, sysCourse) =>
          let! so := read_obj sysCourse in
          let! src := or_empty (CStrings []) (o_likes so) in
          let! l0 := read_strings src in
          let! copy := alloc (CStrings l0) in
          let! newCourse := alloc (CObj (set_likes so copy)) in
          let! l1 := read_strings copy in
          let! fresh := alloc (CStrings (toggled l1 username)) in
          let! _ := write newCourse (CObj (set_likes so fresh)) in
          let! _ := write courses (CCourses (locs ++ [newCourse])) in
          save_array courses db
      | None => ret db
      end
  end.

Definition addCommentToCourse (courseId : string) (comment : Comment)
    (db : Db) : M Db :=
  let! courses := get_courses db in
  let! locs := read_courses courses in
  let! found := find_index courseId locs 0 in
  match found with
  | Some (courseIndex, course) =>
      let! o := read_obj course in
      let! old := or_empty (CComments []) (o_comments o) in
      let! l := read_comments old in
      let! fresh := alloc (CComments (comment :: l)) in
      let! _ := write course (CObj (set_comments o fresh)) in
      let! _ := write courses (CCourses (<[courseIndex := course]> locs)) in
      save_array courses db
  | None =>
      let! seeds := read_courses SYSTEM_COURSES_ref in
      let! sysFound := find_index courseId seeds 0 in
      match sysFound with
      | Some (_, sysCourse) =>
          let! so := read_obj sysCourse in
          let! old := or_empty (CComments []) (o_comments so) in
          let! l := read_comments old in
          let! fresh := alloc (CComments (comment :: l)) in
          let! newCourse := alloc (CObj (set_comments so fresh)) in
          let! _ := write courses (CCourses (locs ++ [newCourse])) in
          save_array courses db
      | None => ret db
      end
  end.

End Operations.

(** The cells of [h] are still there, unchanged, in [h']. *)
Definition untouched (h h' : heap) : Prop :=
  forall a : loc, (a < length h)%nat -> h' !! a = h !! a.

(** [h] holds the course [c] at [a]. *)
Definition holds_opt {A} (mk : A -> cell) (h : heap) (a : option loc)
    (v : option A) : Prop :=
  match a, v with
  | Some a, Some x => h !! a = Some (mk x)
  | None, None => True
  | _, _ => False
  end.

Definition holds_course (h : heap) (a : loc) (c : Course) : Prop :=
  exists o, h !! a = Some (CObj o)
    /\ o_id o = id c /\ o_info o = info c /\ o_isPublic o = isPublic c
    /\ holds_opt CStrings h (o_likes o) (likes c)
    /\ holds_opt CComments h (o_comments o) (comments c).

(** The module was loaded: [sys] is the array of the seed courses. *)
Definition seeded (load_time : Z) (h : heap) (sys : loc) : Prop :=
  exists locs, h !! sys = Some (CCourses locs)
    /\ Forall2 (holds_course h) locs (SYSTEM_COURSES load_time).

End ObjectHeap.

(** ** JavaScript objects used as maps

    An object read from the store or built with [{}] is a finite map over
    its own properties; a lookup by name also finds what
    [Object.prototype] defines. *)

Module JsObject.

(** The property names of [Object.prototype]. *)
Definition OBJECT_PROTOTYPE : list string :=
  [ "constructor"; "__defineGetter__"; "__defineSetter__"; "hasOwnProperty";
    "__lookupGetter__"; "__lookupSetter__"; "isPrototypeOf";
    "propertyIsEnumerable"; "toString"; "valueOf"; "__proto__";
    "toLocaleString" ].

(** [obj[name]]: an own property, a member of [Object.prototype] (a
    function or the prototype itself: truthy, without the fields of a
    record), or [undefined]. *)
Inductive Property (A : Type) : Type :=
  | Own (a : A)
  | Inherited
  | Undefined.
Arguments Own {A} a.
Arguments Inherited {A}.
Arguments Undefined {A}.

Definition property {A} (obj : gmap string A) (name : string) : Property A :=
  match obj !! name with
  | Some a => Own a
  | None =>
      if bool_decide (name ∈ OBJECT_PROTOTYPE) then Inherited else Undefined
  end.

(** [obj[name] = v] for a text or a number [v]: without an own property
    of that name, [__proto__] names the setter of [Object.prototype],
    which drops such a value. *)
Definition assign {A} (obj : gmap string A) (name : string) (v : A)
  : gmap string A :=
  match obj !! name with
  | None => if String.eqb name "__proto__" then obj else <[name := v]> obj
  | Some _ => <[name := v]> obj
  end.

End JsObject.

(** ** The mock backend: archives

    [toggleArchive] and [getUserArchives], over the value [db.get] reads
    under [lumi_db_archives]: the archived course ids by user name, or
    [null] ([None]) before the first save. *)

Module Archives.
Import JsObject.

(** [arr.indexOf(x)]: the first index holding [x]. *)
Definition indexOf (x : string) (arr : list string) : option nat :=
  fst <$> list_find (fun y => y = x) arr.

(** How [toggleArchive] ends: with the object it saved, or with the
    TypeError of [userArchives.indexOf] when [allArchives[username]] is a
    member of [Object.prototype]; nothing is saved then. *)
Inductive Toggled : Type :=
  | Saved (allArchives : gmap string (list string))
  | TypeError.

Definition toggleArchive (username courseId : string)
    (stored : option (gmap string (list string))) : Toggled :=
  let allArchives := default ∅ stored in
  match property allArchives username with
  | Inherited => TypeError
  | found =>
      let userArchives :=
        match found with Own ids => ids | _ => [] end in
      let userArchives :=
        match indexOf courseId userArchives with
        | Some index => delete index userArchives      (* splice(index, 1) *)
        | None => userArchives ++ [courseId]           (* push *)
        end in
      Saved (<[username := userArchives]> allArchives)
  end.

(** [getUserArchives]; [None]: the value returned is a member of
    [Object.prototype], not an array. *)
Definition getUserArchives (username : string)
    (stored : option (gmap string (list string))) : option (list string) :=
  match property (default ∅ stored) username with
  | Own ids => Some ids
  | Undefined => Some []
  | Inherited => None
  end.

End Archives.

(** ** Base64 and the audio helpers of geminiService.ts

    [btoa] and [atob] as the HTML standard defines them (forgiving-base64
    encode and decode, RFC 4648 alphabet) over strings of code units, and
    [encodeAudio] and [decodeAudio] over the bytes of a [Uint8Array]. *)

Module Base64.
Local Open Scope N_scope.

(** The code unit of the [n]-th character of the alphabet
    [A-Z a-z 0-9 + /]. *)
Definition sextet_unit (n : N) : N :=
  if n <? 26 then 65 + n
  else if n <? 52 then 97 + (n - 26)
  else if n <? 62 then 48 + (n - 52)
  else if n =? 62 then 43
  else 47.

(** The position in the alphabet of a code unit, if it has one. *)
Definition unit_sextet (u : N) : option N :=
  if (65 <=? u) && (u <=? 90) then Some (u - 65)
  else if (97 <=? u) && (u <=? 122) then Some (u - 97 + 26)
  else if (48 <=? u) && (u <=? 57) then Some (u - 48 + 52)
  else if u =? 43 then Some 62
  else if u =? 47 then Some 63
  else None.

(** Groups of three octets as four sextets; a last group of one or two
    octets gives two or three sextets, the missing bits being zero. *)
Fixpoint sextets (octets : list N) : list N :=
  match octets with
  | a :: b :: c :: rest =>
      a / 4 :: (a mod 4) * 16 + b / 16 :: (b mod 16) * 4 + c / 64
        :: c mod 64 :: sextets rest
  | [a; b] => [a / 4; (a mod 4) * 16 + b / 16; (b mod 16) * 4]
  | [a] => [a / 4; (a mod 4) * 16]
  | [] => []
  end.

(** The [=] signs that fill the last group of four characters. *)
Definition padding (octets : nat) : ustring :=
  match (octets mod 3)%nat with
  | 1%nat => [61; 61]
  | 2%nat => [61]
  | _ => []
  end.

Definition encode (octets : list N) : ustring :=
  map sextet_unit (sextets octets) ++ padding (length octets).

(** [btoa(data)]: an InvalidCharacterError ([None]) when a code unit is
    above 255. *)
Definition btoa (data : ustring) : option ustring :=
  if forallb (fun u => u <=? 255) data then Some (encode data) else None.

(** Groups of four sextets as three octets; of a last group of two or
    three sextets the bits that do not fill an octet are dropped. *)
Fixpoint octets (s : list N) : list N :=
  match s with
  | a :: b :: c :: d :: rest =>
      a * 4 + b / 16 :: (b mod 16) * 16 + c / 4 :: (c mod 4) * 64 + d
        :: octets rest
  | [a; b; c] => [a * 4 + b / 16; (b mod 16) * 16 + c / 4]
  | [a; b] => [a * 4 + b / 16]
  | _ => []
  end.

(** TAB, LF, FF, CR and SPACE. *)
Definition is_ascii_whitespace (u : N) : bool :=
  (u =? 9) || (u =? 10) || (u =? 12) || (u =? 13) || (u =? 32).

(** "If data ends with one or two U+003D (=) code points, then remove
    them from data", applied when the length is a multiple of four. *)
Definition strip_padding (data : ustring) : ustring :=
  if (length data mod 4 =? 0)%nat then
    match rev data with
    | u :: v :: r =>
        if u =? 61 then (if v =? 61 then rev r else rev (v :: r)) else data
    | [u] => if u =? 61 then [] else data
    | [] => data
    end
  else data.

(** [atob(data)]: white space is removed first; an InvalidCharacterError
    ([None]) when what remains, the padding stripped, has a length of one
    more than a multiple of four or a code unit outside the alphabet. *)
Definition atob (data : ustring) : option ustring :=
  let data :=
    filter (B := list N) (fun u => is_ascii_whitespace u = false) data in
  let data := strip_padding data in
  if (length data mod 4 =? 1)%nat then None
  else octets <$> mapM unit_sextet data.

End Base64.

Module Audio.

(** The value stored into a [Uint8Array] slot: the number modulo 256. *)
Definition to_uint8 (n : N) : Byte.byte :=
  default Byte.x00 (Byte.of_N (n mod 256)).

(** [encodeAudio]: the binary string holds one code unit per byte,
    [String.fromCharCode(bytes[i])]. *)
Definition encodeAudio (bytes : list Byte.byte) : option ustring :=
  let binary := map Byte.to_N bytes in
  Base64.btoa binary.

(** [decodeAudio]: [bytes[i] = binaryString.charCodeAt(i)]. *)
Definition decodeAudio (base64 : ustring) : option (list Byte.byte) :=
  binaryString ← Base64.atob base64;
  Some (map to_uint8 binaryString).

End Audio.

(** ** The standard debate of the social page: scoring a round

    [submitStandardAnswer] of SocialPage after its awaits.  The judge's
    reply is taken at its declared type, an array of
    [{ user, score, feedback }] with whole-number scores. *)

Module Debate.

Record Entry : Type := mkEntry { user : string; answer : ustring }.

Record Scored : Type := mkScored {
  s_user : string;
  s_answer : ustring;
  s_score : Z;
  s_feedback : ustring
}.

(** [userAnswer || "(No argument presented)"] *)
Definition userEntry (username : string) (userAnswer : ustring) : Entry :=
  mkEntry username
    match userAnswer with
    | [] => ustring_of "(No argument presented)"
    | _ :: _ => userAnswer
    end.

(** [[userEntry, ...opponentEntries]]; [reply] is what
    [simulateOpponentTurn] resolves to for each opponent. *)
Definition allAnswers (username : string) (userAnswer : ustring)
    (opponents : list string) (reply : string -> ustring) : list Entry :=
  userEntry username userAnswer
    :: map (fun op => mkEntry op (reply op)) opponents.

(** [judgment.find(res => res.user === a.user)] *)
Definition verdict_for (judgment : list Gemini.Judgement) (a : Entry)
  : option Gemini.Judgement :=
  find (fun res => bool_decide (Gemini.j_user res = user a)) judgment.

(** [j?.score || 50]: no entry and a zero score are falsy. *)
Definition score_or_50 (j : option Gemini.Judgement) : Z :=
  match j with
  | Some res => if Gemini.j_score res =? 0 then 50 else Gemini.j_score res
  | None => 50
  end.

(** [j?.feedback || "Adequate."] *)
Definition feedback_or_adequate (j : option Gemini.Judgement) : ustring :=
  match j with
  | Some res =>
      match Gemini.j_feedback res with
      | [] => ustring_of "Adequate."
      | c :: t => c :: t
      end
  | None => ustring_of "Adequate."
  end.

Definition finalResults (judgment : list Gemini.Judgement)
    (answers : list Entry) : list Scored :=
  map (fun a =>
         let j := verdict_for judgment a in
         mkScored (user a) (answer a) (score_or_50 j) (feedback_or_adequate j))
      answers.

(** [x || 0] on a number. *)
Definition or_zero (x : option Z) : Z := default 0 x.

(** The updater of [setTotalScores]: the [forEach] over the results.
    Where [next[r.user]] is a member of [Object.prototype] the sum is a
    text: assigned to [__proto__] it is dropped, under any other name the
    totals are no longer numbers ([None]). *)
Definition add_scores (prev : gmap string Z) (results : list Scored)
  : option (gmap string Z) :=
  foldl
    (fun acc r =>
       next ← acc;
       match JsObject.property next (s_user r) with
       | JsObject.Own x =>
           Some (<[s_user r := or_zero (Some x) + or_zero (Some (s_score r))]>
                   next)
       | JsObject.Undefined =>
           Some (<[s_user r := or_zero None + or_zero (Some (s_score r))]> next)
       | JsObject.Inherited =>
           if String.eqb (s_user r) "__proto__" then Some next else None
       end)
    (Some prev) results.

End Debate.

(** ** The profile page: badges from the history

    [earnedBadges] of ProfilePage, and the two places that write the
    history: [handleOpenCourse] of App ('viewed') and
    [handleFinishDeepDive] of CourseViewer ('completed'), both for the
    user who is logged in. *)

Module Profile.
Import MockBackend.






(** [handleFinishDeepDive] of CourseViewer with [currentUser] set. *)
Definition handleFinishDeepDive (now : Z) (username courseId : string)
    (db : Db) : Db :=
  addToHistory now username courseId completed db.

End Profile.

(** ** The course editor of the creator studio

    The manual editor of CreateCourse: the card handlers and
    [saveEditorCourse].  Of [editorCourse] the model keeps the fields the
    handlers read; a field that is [undefined] is [None]. *)

Module Editor.

Record Flashcard : Type := mkCard { front : string; back : string }.

Inductive CardField : Type := Front | Back.

Record EditorCourse : Type := mkEditor {
  title : option string;
  subject : option string;
  level : option string;
  description : option string;
  content : option (list Flashcard)
}.

Definition with_content (c : EditorCourse) (cards : list Flashcard)
  : EditorCourse :=
  mkEditor (title c) (subject c) (level c) (description c) (Some cards).

Definition set_field (card : Flashcard) (field : CardField) (value : string)
  : Flashcard :=
  match field with
  | Front => mkCard value (back card)
  | Back => mkCard (front card) value
  end.

(** [handleCardChange]: an index without a card changes nothing. *)
Definition handleCardChange (index : nat) (field : CardField)
    (value : string) (c : EditorCourse) : EditorCourse :=
  let newContent := default [] (content c) in
  match newContent !! index with
  | Some card => with_content c (<[index := set_field card field value]> newContent)
  | None => c
  end.

Definition addCard (c : EditorCourse) : EditorCourse :=
  with_content c (default [] (content c) ++ [mkCard "" ""]).

(** [arr.filter((_, i) => i !== index)] *)
Definition without_index {A} (index : nat) (arr : list A) : list A :=
  map snd (List.filter (fun ix => negb (fst ix =? index)%nat) (imap pair arr)).

Definition removeCard (index : nat) (c : EditorCourse) : EditorCourse :=
  with_content c (without_index index (default [] (content c))).

(** [x || d] on a string: [undefined] and the empty string are falsy. *)
Definition or_text (x : option string) (d : string) : string :=
  match x with
  | Some (String a r) => String a r
  | _ => d
  end.

Definition falsy_text (x : option string) : bool :=
  match x with
  | Some (String _ _) => false
  | _ => true
  end.

Inductive Saved : Type :=
  | Alerted (msg : string)
  | Stored (db : MockBackend.Db).     (* then [onSuccess()] *)

(** [saveEditorCourse]; [now] is the value of [Date.now()]. *)
Definition saveEditorCourse (now : Z) (currentUser : string)
    (c : EditorCourse) (db : MockBackend.Db) : Saved :=
  if falsy_text (title c) || (length (default [] (content c)) =? 0)%nat
  then Alerted "Please provide a title and at least one flashcard."
  else
    let newCourse :=
      MockBackend.mkCourse ("course-" +:+ pretty now)
        (MockBackend.mkInfo (or_text (title c) "Untitled")
           (or_text (subject c) "General") MockBackend.flashcard
           (or_text (level c) "Intermediate") currentUser)
        (Some true) (Some []) (Some []) in
    Stored (MockBackend.saveCourse newCourse db).

End Editor.

(** ** The mock backend: accounts and sessions

    [saveUser], [loginUser] with [initDefaultUsers], [logoutUser],
    [getCurrentUser] and [getAllScholars], over the values [db.get] reads
    under [lumi_db_users] and [lumi_db_sessions] and the two items of
    sessionStorage.  An object read from the store is a finite map over its
    own properties, looked up as [JsObject] has it.  What the browser
    draws at random (salts, the session token)
    is an argument. *)

Module Accounts.
Import JsObject.

Record User : Type := mkUser {
  username : string;
  email : string;
  avatarUrl : string;
  bio : string;
  badges : list string;
  streak : Z;
  followers : Z;
  following : Z;
  profileBackground : option string
}.

Record UserRecord : Type := mkRecord {
  user : User;
  passwordHash : string;
  salt : string
}.

Record Store : Type := mkStore {
  stored_users : option (gmap string UserRecord);    (* lumi_db_users *)
  stored_sessions : option (gmap string string);     (* lumi_db_sessions *)
  session_token : option string;     (* sessionStorage: lumi_session_token *)
  session_user : option string       (* sessionStorage: lumi_session_user *)
}.

Definition save_users (users : gmap string UserRecord) (st : Store) : Store :=
  mkStore (Some users) (stored_sessions st) (session_token st)
    (session_user st).

(** How a call ends, and the store it leaves. *)
Inductive Outcome (A : Type) : Type :=
  | Returns (a : A) (st : Store)
  | Throws (msg : string) (st : Store).
Arguments Returns {A} a st.
Arguments Throws {A} msg st.

Section Backend.
(** SHA-256 of the UTF-8 bytes of a text, in hexadecimal. *)
Variable sha256_hex : string -> string.

Definition hashPassword (password salt : string) : string :=
  sha256_hex (password +:+ salt +:+ "LUMI_PEPPER_2025").

(** [saveUser]; [salt] is the value of [generateSalt()]. *)
Definition saveUser (salt : string) (user : User) (passwordRaw : string)
    (st : Store) : Outcome bool :=
  let users := default ∅ (stored_users st) in
  match property users (username user) with
  | Own _ | Inherited =>
      Throws "Scholar already exists in the archives." st
  | Undefined =>
      let passwordHash := hashPassword passwordRaw salt in
      Returns true
        (save_users (<[username user := mkRecord user passwordHash salt]> users)
           st)
  end.

Definition default_user (u email bio : string) (bg : option string) : User :=
  mkUser u email ("https://api.dicebear.com/7.x/avataaars/svg?seed=" +:+ u)
    bio ["Founder"] 10 42 12 bg.

Definition default_record (salt : string) (u p email bio : string)
    (bg : option string) : UserRecord :=
  mkRecord (default_user u email bio bg) (hashPassword p salt) salt.

(** [initDefaultUsers]; the three salts are drawn in this order. *)
Definition initDefaultUsers (salts : string * string * string) (st : Store)
  : gmap string UserRecord * Store :=
  let '(s1, s2, s3) := salts in
  let users : gmap string UserRecord := ∅ in
  let users :=
    <["scholar" := default_record s1 "scholar" "password123" "scholar@lumi.ai"
        "A dedicated researcher of the arcane arts."
        (Some "https://images.unsplash.com/photo-1507842217159-a289200b4f40?q=80&w=2000&auto=format&fit=crop")]>
      users in
  let users :=
    <["curator" := default_record s2 "curator" "museum2025" "curator@lumi.ai"
        "Keeper of the ancient texts." None]> users in
  let users :=
    <["novice" := default_record s3 "novice" "learn" "novice@lumi.ai"
        "Just beginning the journey." None]> users in
  (users, save_users users st).

(** [loginUser]; [token] is the value of
    [Math.random().toString(36).substring(2)], digits and lower-case
    letters. *)
Definition loginUser (salts : string * string * string) (token : string)
    (username passwordRaw : string) (st : Store)
  : option (User * string) * Store :=
  let users := default ∅ (stored_users st) in
  let '(users, st) :=
    if bool_decide (users = ∅) then initDefaultUsers salts st
    else (users, st) in
  match property users username with
  | Own record =>
      let challengeHash := hashPassword passwordRaw (salt record) in
      if String.eqb (passwordHash record) challengeHash then
        let sessions := default ∅ (stored_sessions st) in
        let sessions := assign sessions token username in
        (Some (user record, token),
         mkStore (stored_users st) (Some sessions) (Some token)
           (session_user st))
      else (None, st)
  | Inherited | Undefined => (None, st)
  end.




(** [getAllScholars]; the users come in the order of [Object.values],
    which the finite map does not keep: the result is read as a set. *)
Definition getAllScholars (salts : string * string * string) (st : Store)
  : list User * Store :=
  let users := default ∅ (stored_users st) in
  let st :=
    if bool_decide (users = ∅) then snd (initDefaultUsers salts st) else st in
  (map (fun kv => user (snd kv)) (map_to_list users), st).

End Backend.

End Accounts.

(** ** Definitions that follow the words of the specification *)




(** * Theorems *)

(** ** CourseViewer *)

Section CourseViewerFacts.
Import CourseViewer.

Lemma unlockLevel_max (l : Level) (s : State) :
  maxUnlockedLevel (unlockLevel l s)
  = if level_num l >? level_num (maxUnlockedLevel s)
    then l else maxUnlockedLevel s.
Proof. reflexivity. Qed.

Lemma unlockLevel_monotone (l : Level) (s : State) :
  level_num (maxUnlockedLevel s) <= level_num (maxUnlockedLevel (unlockLevel l s)).
Proof.
  rewrite unlockLevel_max.
  destruct (level_num l >? level_num (maxUnlockedLevel s)) eqn:E; lia.
Qed.

Lemma handleFinishQuiz_monotone (s : State) :
  level_num (maxUnlockedLevel s)
  <= level_num (maxUnlockedLevel (handleFinishQuiz s)).
Proof.
  unfold handleFinishQuiz.
  destruct (jsnum_ge _ _); [apply unlockLevel_monotone | simpl; lia].
Qed.

(** No handler lowers the maximum, enabled or not. *)
Lemma handle_monotone (p : Props) (a : Action) (s : State) :
  level_num (maxUnlockedLevel s) <= level_num (maxUnlockedLevel (handle p a s)).
Proof.
  destruct a; cbn [handle];
    first [ apply unlockLevel_monotone
          | apply handleFinishQuiz_monotone
          | reflexivity
          | idtac ].
  - destruct (isUnlocked s l); reflexivity.
  - unfold handleQuizSelect. destruct (quizSubmitted s); reflexivity.
  - unfold submitQuiz. destruct (_ <? _)%nat; reflexivity.
  - unfold handleFinishDeepDive.
    destruct (currentUser p) as [u|]; [destruct (String.eqb u "")|];
      reflexivity.
Qed.

Lemma step_monotone (p : Props) (s : State) (a : Action) :
  level_num (maxUnlockedLevel s) <= level_num (maxUnlockedLevel (step p s a)).
Proof.
  unfold step. destruct (enabled p s a); [apply handle_monotone | lia].
Qed.

Lemma run_monotone (p : Props) (acts : list Action) (s : State) :
  level_num (maxUnlockedLevel s) <= level_num (maxUnlockedLevel (run p s acts)).
Proof.
  revert s. induction acts as [|a acts IH]; intros s; simpl; [lia|].
  etransitivity; [apply (step_monotone p s a) | apply IH].
Qed.

End CourseViewerFacts.

(** C9. Over any sequence of CourseViewer actions the maximum unlocked
    level never decreases: [unlockLevel] moves it only to a strictly greater
    level and keeps it otherwise, no action lowers it, and a stage that is
    unlocked stays unlocked. *)
Theorem C9_maxUnlockedLevel_never_decreases
    (p : CourseViewer.Props) (s : CourseViewer.State)
    (acts : list CourseViewer.Action) :
  CourseViewer.level_num (CourseViewer.maxUnlockedLevel s)
    <= CourseViewer.level_num
         (CourseViewer.maxUnlockedLevel (CourseViewer.run p s acts))
  /\ (forall l,
        CourseViewer.maxUnlockedLevel (CourseViewer.unlockLevel l s)
        = if CourseViewer.level_num l
               >? CourseViewer.level_num (CourseViewer.maxUnlockedLevel s)
          then l else CourseViewer.maxUnlockedLevel s)
  /\ (forall l, CourseViewer.isUnlocked s l = true ->
        CourseViewer.isUnlocked (CourseViewer.run p s acts) l = true).
Proof.
  split; [apply run_monotone|]. split; [intros l; apply unlockLevel_max|].
  intros l. unfold CourseViewer.isUnlocked.
  pose proof (run_monotone p acts s). rewrite !Z.geb_le. lia.
Qed.

(** The guarantee at work: Knowledge, then a passed quiz, then a step back
    to the cards. *)
Lemma C9_witness :
  let p := CourseViewer.mkProps 1
             [CourseViewer.mkQuestion "q" ["a"; "b"] 1] None in
  let s := CourseViewer.run p (CourseViewer.initial p)
             [CourseViewer.FinishFlashcards; CourseViewer.QuizSelect 0 1;
              CourseViewer.SubmitQuiz; CourseViewer.FinishQuiz] in
  CourseViewer.isUnlocked s CourseViewer.APPLICATION = true
  /\ CourseViewer.isUnlocked
       (CourseViewer.run p s
          [CourseViewer.ClickLevel CourseViewer.FLASHCARDS;
           CourseViewer.FinishFlashcards])
       CourseViewer.APPLICATION = true.
Proof.
  split; [reflexivity|].
  apply (C9_maxUnlockedLevel_never_decreases _ _ _). reflexivity.
Defined.

Section QuizFacts.
Import CourseViewer.




Lemma gates_agree_spec (limit c n : nat) :
  gates_agree limit = true -> (c <= n <= limit)%nat ->
  ge_binary64 (percent_binary64 c n) (f64 60)
  = jsnum_ge (percent_of c n) (Num 60).
Proof.
  unfold gates_agree. intros Hall H. rewrite forallb_forall in Hall.
  specialize (Hall n). rewrite forallb_forall in Hall.
  apply Bool.eqb_prop. apply Hall; apply in_seq; lia.
Qed.

(** In binary64 the score reaches 60 exactly when the exact quotient does,
    for every quiz of up to a hundred questions (0 of 0 is NaN in both). *)
Lemma binary64_gate (c n : nat) :
  (c <= n <= 100)%nat ->
  ge_binary64 (percent_binary64 c n) (f64 60)
  = jsnum_ge (percent_of c n) (Num 60).
Proof.
  apply gates_agree_spec. vm_cast_no_check (eq_refl true).
Qed.

Lemma unlockLevel_effects (l : Level) (s : State) :
  effects (unlockLevel l s) = effects s.
Proof. reflexivity. Qed.

End QuizFacts.




(** ** The calculus tome *)

Section CalculusFacts.
Import Calculus.

Lemma at_index_elem {A} (arr : list A) (i : Z) (x : A) :
  at_index arr i = Some x -> x ∈ arr.
Proof.
  unfold at_index. destruct (i <? 0); [discriminate|].
  apply list_elem_of_lookup_2.
Qed.

Lemma step_of_elem (cur : list Chapter) (s : State) (st : Step) :
  step_of cur s = Some st -> exists ch, ch ∈ cur /\ st ∈ steps ch.
Proof.
  unfold step_of, chapter_of.
  destruct (at_index cur (currentChapterIndex s)) as [ch|] eqn:E;
    [|discriminate].
  intros H. exists ch. split; eauto using at_index_elem.
Qed.

(** [checkAnswer] on a step with a non-empty answer. *)
Lemma checkAnswer_feedback (cur : list Chapter) (s : State) (st : Step)
    (a : string) :
  step_of cur s = Some st -> correctAnswer st = Some a -> a <> "" ->
  (feedback (checkAnswer cur s) = correct
   <-> trim (userInput s) = ustring_of a).
Proof.
  intros Hst Ha Hne. unfold checkAnswer, no_answer. rewrite Hst, Ha.
  destruct (String.eqb_spec a "") as [|_]; [contradiction|].
  simpl. unfold ustring_eqb. case_bool_decide; split; congruence.
Qed.

(** Every step of the curriculum that asks a question carries a
    non-empty answer. *)
Lemma curriculum_answers (ch : Chapter) (st : Step) :
  ch ∈ CALCULUS_CURRICULUM -> st ∈ steps ch -> question st <> None ->
  exists a, correctAnswer st = Some a /\ a <> "".
Proof.
  intros Hch Hst Hq. unfold CALCULUS_CURRICULUM in Hch.
  repeat (apply elem_of_cons in Hch as [-> | Hch]);
    try (apply elem_of_nil in Hch; contradiction);
    simpl in Hst;
    repeat (apply elem_of_cons in Hst as [-> | Hst]);
    try (apply elem_of_nil in Hst; contradiction);
    simpl in Hq; try congruence;
    eexists; (split; [reflexivity | discriminate]).
Qed.

Definition in_range (s : State) : Prop :=
  0 <= currentChapterIndex s < 3 /\ 0 <= currentStepIndex s < 3.

Lemma in_range_step_of (s : State) :
  in_range s -> exists st, step_of CALCULUS_CURRICULUM s = Some st.
Proof.
  destruct s as [ci si sl inp fb lp]. unfold in_range. simpl. intros [Hc Hs].
  assert (Hci : ci = 0 \/ ci = 1 \/ ci = 2) by lia.
  assert (Hsi : si = 0 \/ si = 1 \/ si = 2) by lia.
  destruct Hci as [-> | [-> | ->]]; destruct Hsi as [-> | [-> | ->]];
    eexists; reflexivity.
Qed.

(** What has been checked right stays typed in the box. *)
Definition answered (s : State) : Prop :=
  feedback s = correct ->
  exists st a, step_of CALCULUS_CURRICULUM s = Some st
    /\ correctAnswer st = Some a
    /\ trim (userInput s) = ustring_of a.

Lemma reset_for_neutral (ci si : Z) (s : State) :
  0 <= ci < 3 -> 0 <= si < 3 ->
  in_range (reset_for CALCULUS_CURRICULUM ci si s)
  /\ feedback (reset_for CALCULUS_CURRICULUM ci si s) = neutral.
Proof.
  intros Hc Hs.
  assert (Hci : ci = 0 \/ ci = 1 \/ ci = 2) by lia.
  assert (Hsi : si = 0 \/ si = 1 \/ si = 2) by lia.
  destruct Hci as [-> | [-> | ->]]; destruct Hsi as [-> | [-> | ->]];
    (split; [unfold in_range; simpl; lia | reflexivity]).
Qed.

Lemma step_preserves (s : State) (a : Action) :
  in_range s /\ answered s ->
  in_range (step CALCULUS_CURRICULUM s a)
  /\ answered (step CALCULUS_CURRICULUM s a).
Proof.
  intros [Hr Ha]. unfold step.
  destruct (enabled CALCULUS_CURRICULUM s a) eqn:En; [|split; assumption].
  destruct a as [v| | | |v]; cbn [handle].
  - (* typing: the box is disabled once the answer is right *)
    split; [exact Hr|]. intros Hfb. simpl in Hfb.
    unfold enabled in En. rewrite Hfb in En.
    rewrite bool_decide_eq_true_2 in En by reflexivity.
    rewrite !andb_false_r in En. discriminate.
  - (* Check *)
    destruct (in_range_step_of s Hr) as [st Hst].
    unfold checkAnswer. rewrite Hst.
    destruct (no_answer st) eqn:Hno; [split; assumption|].
    split; [exact Hr|]. intros Hfb. simpl in Hfb.
    unfold ustring_eqb in Hfb. case_bool_decide as Heq; [|discriminate].
    unfold no_answer in Hno.
    destruct (correctAnswer st) as [ans|] eqn:Hans; [|discriminate].
    exists st, ans. simpl. repeat split; assumption.
  - (* Next *)
    destruct Hr as [Hc Hs]. destruct s as [ci si sl inp fb lp].
    simpl in Hc, Hs.
    assert (Hci : ci = 0 \/ ci = 1 \/ ci = 2) by lia.
    assert (Hsi : si = 0 \/ si = 1 \/ si = 2) by lia.
    destruct Hci as [-> | [-> | ->]]; destruct Hsi as [-> | [-> | ->]];
      (split; [unfold in_range; simpl; lia |]);
      try (intros Hfb; discriminate Hfb).
    exact Ha.
  - (* Prev *)
    destruct Hr as [Hc Hs]. destruct s as [ci si sl inp fb lp].
    simpl in Hc, Hs.
    assert (Hci : ci = 0 \/ ci = 1 \/ ci = 2) by lia.
    assert (Hsi : si = 0 \/ si = 1 \/ si = 2) by lia.
    destruct Hci as [-> | [-> | ->]]; destruct Hsi as [-> | [-> | ->]];
      (split; [unfold in_range; simpl; lia |]);
      try (intros Hfb; discriminate Hfb).
    exact Ha.
  - split; [exact Hr|]. exact Ha.
Qed.

Lemma run_preserves (acts : list Action) (s : State) :
  in_range s /\ answered s ->
  in_range (run CALCULUS_CURRICULUM s acts)
  /\ answered (run CALCULUS_CURRICULUM s acts).
Proof.
  revert s. induction acts as [|a acts IH]; intros s H; simpl; [exact H|].
  apply IH, step_preserves, H.
Qed.

Lemma initial_ok :
  in_range (initial CALCULUS_CURRICULUM)
  /\ answered (initial CALCULUS_CURRICULUM).
Proof.
  split; [unfold in_range; simpl; lia | intros H; discriminate H].
Qed.

End CalculusFacts.

(** C4. On every step of the calculus curriculum that defines a question,
    [checkAnswer] sets the feedback to 'correct' exactly when the trimmed
    input equals the step's [correctAnswer]; the Next button is disabled
    exactly while the feedback is not 'correct', a disabled Next changes
    nothing, and whenever Next can fire on such a step the text in the box,
    trimmed, is the correct answer. *)
Theorem C4_exact_answer_gates_next (acts : list Calculus.Action)
    (st : Calculus.Step) :
  let cur := Calculus.CALCULUS_CURRICULUM in
  let s := Calculus.run cur (Calculus.initial cur) acts in
  Calculus.step_of cur s = Some st ->
  Calculus.question st <> None ->
  exists a,
    Calculus.correctAnswer st = Some a
    /\ (forall s0, Calculus.step_of cur s0 = Some st ->
          (Calculus.feedback (Calculus.checkAnswer cur s0) = Calculus.correct
           <-> trim (Calculus.userInput s0) = ustring_of a))
    /\ (Calculus.next_disabled cur s = true
        <-> Calculus.feedback s <> Calculus.correct)
    /\ (Calculus.feedback s <> Calculus.correct ->
        Calculus.step cur s Calculus.Next = s)
    /\ (Calculus.enabled cur s Calculus.Next = true ->
        Calculus.feedback s = Calculus.correct
        /\ trim (Calculus.userInput s) = ustring_of a).
Proof.
  intros cur s. subst cur s. intros Hst Hq.
  set (cur := Calculus.CALCULUS_CURRICULUM) in *.
  set (s := Calculus.run cur (Calculus.initial cur) acts) in *.
  destruct (step_of_elem _ _ _ Hst) as (ch & Hch & Hin).
  destruct (curriculum_answers ch st Hch Hin Hq) as (a & Ha & Hne).
  assert (Hdis : Calculus.next_disabled cur s = true
                 <-> Calculus.feedback s <> Calculus.correct).
  { unfold Calculus.next_disabled. rewrite Hst.
    rewrite (bool_decide_eq_true_2 _ Hq). simpl.
    apply bool_decide_eq_true. }
  exists a. split; [exact Ha|]. split; [|split; [exact Hdis|split]].
  - intros s0 Hs0. apply (checkAnswer_feedback cur s0 st a); assumption.
  - intros Hfb. apply Hdis in Hfb. unfold Calculus.step, Calculus.enabled.
    rewrite Hfb. rewrite andb_false_r. reflexivity.
  - intros En. unfold Calculus.enabled in En.
    apply andb_true_iff in En as [_ En]. apply negb_true_iff in En.
    assert (Hfb : Calculus.feedback s = Calculus.correct).
    { destruct (decide (Calculus.feedback s = Calculus.correct)) as [E|E];
        [exact E|]. apply Hdis in E. congruence. }
    split; [exact Hfb|].
    destruct (run_preserves acts _ initial_ok) as [_ Hans].
    destruct (Hans Hfb) as (st' & a' & Hst' & Ha' & Htrim).
    unfold s, cur in *. assert (st' = st) as -> by congruence.
    assert (a' = a) as -> by congruence. exact Htrim.
Qed.

(** The third step of the first chapter: the answer " 2.1 " is accepted
    after trimming and opens Next. *)
Lemma C4_witness :
  let cur := Calculus.CALCULUS_CURRICULUM in
  let acts := [Calculus.Next; Calculus.Next;
               Calculus.SetInput (ustring_of " 2.1 "); Calculus.Check] in
  let s := Calculus.run cur (Calculus.initial cur) acts in
  Calculus.enabled cur s Calculus.Next = true
  /\ trim (Calculus.userInput s) = ustring_of "2.1".
Proof.
  intros cur acts s.
  destruct (C4_exact_answer_gates_next acts
              (Calculus.mkStep "l1-cast" Calculus.casting None
                 (Some "Enter the slope:") (Some "2.1")))
    as (a & Ha & _ & _ & _ & Hnext); [reflexivity | discriminate |].
  injection Ha as <-.
  split; [reflexivity|]. apply Hnext. reflexivity.
Defined.

(** ** The Socratic debate *)

Section SocraticFacts.
Import Socratic.

Definition other (r : Role) : Role :=
  match r with skeptic => user | user => skeptic end.

Lemma alternates_unfold (r : Role) (m : Msg) (h : list Msg) :
  alternates r (m :: h) = bool_decide (role m = r) && alternates (other r) h.
Proof. destruct r; reflexivity. Qed.

(** Appending the message the parity asks for keeps the alternation. *)
Lemma alternates_snoc (h : list Msg) (r : Role) (m : Msg) :
  alternates r h = true ->
  role m = (if Nat.even (length h) then r else other r) ->
  alternates r (h ++ [m]) = true.
Proof.
  revert r. induction h as [|x h IH]; intros r Hh Hm.
  - simpl in *. rewrite Hm. destruct r; reflexivity.
  - rewrite <- app_comm_cons, alternates_unfold in *.
    apply andb_true_iff in Hh as [Hx Hh]. rewrite Hx. simpl.
    apply IH; [exact Hh|]. rewrite Hm.
    change (length (x :: h)) with (S (length h)).
    rewrite Nat.even_succ, <- Nat.negb_even.
    destruct (Nat.even (length h)), r; reflexivity.
Qed.

Lemma user_turns_cons (m : Msg) (h : list Msg) :
  user_turns (m :: h)
  = ((if decide (role m = user) then 1 else 0) + user_turns h)%nat.
Proof.
  unfold user_turns. rewrite filter_cons.
  destruct (decide (role m = user)); reflexivity.
Qed.

Lemma alternates_user_turns (h : list Msg) (r : Role) :
  alternates r h = true ->
  match r with
  | skeptic => length h = (2 * user_turns h)%nat
               \/ length h = (2 * user_turns h + 1)%nat
  | user => length h = (2 * user_turns h)%nat
            \/ (length h + 1)%nat = (2 * user_turns h)%nat
  end.
Proof.
  revert r. induction h as [|x h IH]; intros r Hh.
  - destruct r; left; reflexivity.
  - rewrite alternates_unfold in Hh. apply andb_true_iff in Hh as [Hx Hh].
    apply bool_decide_eq_true in Hx. specialize (IH _ Hh).
    rewrite user_turns_cons, Hx. simpl length.
    destruct r; simpl in IH |- *; lia.
Qed.

(** The states a patient user can find the debate in. *)
Definition settled (s : State) : Prop :=
  match pending s with
  | [] =>
      (battleState s = lobby /\ socraticHistory s = []
       /\ socraticTurn s = 0 /\ judge_calls s = [])
      \/ (alternates skeptic (socraticHistory s) = true
          /\ Z.of_nat (length (socraticHistory s)) = 2 * socraticTurn s - 1
          /\ 1 <= socraticTurn s <= 3 /\ judge_calls s = [])
      \/ (alternates skeptic (socraticHistory s) = true
          /\ length (socraticHistory s) = 6%nat /\ socraticTurn s = 3
          /\ judge_calls s = [socraticHistory s] /\ battleState s <> active)
  | [AwaitOpening] =>
      socraticHistory s = [] /\ socraticTurn s = 1 /\ judge_calls s = []
  | [AwaitRebuttal h] =>
      h = socraticHistory s
      /\ alternates skeptic (socraticHistory s) = true
      /\ Z.of_nat (length (socraticHistory s)) = 2 * socraticTurn s
      /\ 1 <= socraticTurn s < 3 /\ judge_calls s = []
  | [AwaitVerdict] =>
      alternates skeptic (socraticHistory s) = true
      /\ length (socraticHistory s) = 6%nat /\ socraticTurn s = 3
      /\ judge_calls s = [socraticHistory s] /\ battleState s <> active
  | _ => False
  end.

Lemma even_of_double (n : nat) (t : Z) :
  Z.of_nat n = 2 * t -> Nat.even n = true.
Proof.
  intros H. apply Nat.even_spec. exists (Z.to_nat t). lia.
Qed.

Lemma odd_of_double (n : nat) (t : Z) :
  Z.of_nat n = 2 * t - 1 -> Nat.even n = false.
Proof.
  intros H. rewrite <- Nat.negb_odd. apply negb_false_iff, Nat.odd_spec.
  exists (Z.to_nat (t - 1)). lia.
Qed.

Lemma step_settled (s : State) (e : Event) :
  settled s -> patient s e = true -> settled (step s e).
Proof.
  intros Hs Hp. unfold step.
  destruct (enabled s e) eqn:En; [|exact Hs].
  destruct s as [bs turn h res ua pend calls].
  unfold settled in Hs. simpl in Hs.
  destruct e as [|t| | |o|h' r|v]; simpl in En, Hp |- *.
  - (* Start *)
    apply bool_decide_eq_true in Hp. subst pend. unfold settled. simpl. auto.
  - (* typing *)
    exact Hs.
  - (* Speak *)
    apply bool_decide_eq_true in Hp. subst pend.
    apply bool_decide_eq_true in En. subst bs.
    unfold submitSocraticAnswer. simpl.
    destruct (is_blank ua); [exact Hs|].
    destruct Hs as [(Hl & _)|[(Halt & Hlen & Hturn & Hcalls)|(_ & _ & _ & _ & Hna)]];
      [discriminate Hl | | contradiction].
    destruct (Z.ltb_spec turn 3) as [Hlt|Hge]; unfold settled; simpl.
    + repeat split; try lia; try assumption.
      * apply alternates_snoc; [exact Halt|].
        rewrite (odd_of_double _ _ Hlen). reflexivity.
      * rewrite length_app. simpl. lia.
    + assert (turn = 3) as -> by lia.
      repeat split; try assumption; try discriminate.
      * apply alternates_snoc; [exact Halt|].
        rewrite (odd_of_double _ _ Hlen). reflexivity.
      * rewrite length_app. simpl. lia.
      * rewrite Hcalls. reflexivity.
  - (* Abandon *)
    unfold settled. simpl.
    destruct pend as [|[|h'|] [|]]; try contradiction; try exact Hs.
    + destruct Hs as [Hs|[Hs|Hs]]; [left; tauto | right; left; tauto|].
      right; right. repeat split; try tauto. discriminate.
    + repeat split; try tauto. discriminate.
  - (* the opening arrives *)
    apply bool_decide_eq_true in En.
    destruct pend as [|[|h'|] [|]]; try contradiction;
      try (apply list_elem_of_singleton in En; discriminate En);
      try (apply elem_of_nil in En; contradiction).
    destruct Hs as (-> & -> & ->). unfold settled. simpl.
    try rewrite decide_True by reflexivity.
    right; left. repeat split; try lia.
  - (* a rebuttal arrives *)
    apply bool_decide_eq_true in En.
    destruct pend as [|[|h0|] [|]]; try contradiction;
      try (apply list_elem_of_singleton in En; discriminate En);
      try (apply elem_of_nil in En; contradiction).
    apply list_elem_of_singleton in En. injection En as ->.
    destruct Hs as (-> & Halt & Hlen & Hturn & ->). unfold settled. simpl.
    try rewrite decide_True by reflexivity.
    right; left. repeat split; try lia.
    + apply alternates_snoc; [exact Halt|].
      rewrite (even_of_double _ _ Hlen). reflexivity.
    + rewrite length_app. simpl. lia.
  - (* the verdict arrives *)
    apply bool_decide_eq_true in En.
    destruct pend as [|[|h0|] [|]]; try contradiction;
      try (apply list_elem_of_singleton in En; discriminate En);
      try (apply elem_of_nil in En; contradiction).
    unfold settled. simpl. try rewrite decide_True by reflexivity.
    right; right. repeat split; try tauto. discriminate.
Qed.

Lemma run_settled (evs : list Event) (s : State) :
  settled s -> patient_run s evs = true -> settled (run s evs).
Proof.
  revert s. induction evs as [|e evs IH]; intros s Hs Hp; simpl in *;
    [exact Hs|].
  apply andb_true_iff in Hp as [Hp Hrest].
  apply IH; [apply step_settled; assumption | exact Hrest].
Qed.

Lemma initial_settled : settled initial.
Proof. left. repeat split. Qed.

End SocraticFacts.

(** While the user waits for each reply of the skeptic, the debate keeps
    its turns: the history alternates from the skeptic's opening on, the
    turn counter stays within 0..3, and [judgeSocraticRound] is called at
    most once in a round, namely when, and only when, the history holds the
    user's third answer. *)
Theorem patient_debate_keeps_turns (evs : list Socratic.Event) :
  Socratic.patient_run Socratic.initial evs = true ->
  let s := Socratic.run Socratic.initial evs in
  Socratic.alternates Socratic.skeptic (Socratic.socraticHistory s) = true
  /\ 0 <= Socratic.socraticTurn s <= 3
  /\ (Socratic.user_turns (Socratic.socraticHistory s) <= 3)%nat
  /\ (Socratic.user_turns (Socratic.socraticHistory s) = 3%nat
      -> Socratic.judge_calls s = [Socratic.socraticHistory s])
  /\ (Socratic.user_turns (Socratic.socraticHistory s) <> 3%nat
      -> Socratic.judge_calls s = []).
Proof.
  intros Hp s. pose proof (run_settled evs _ initial_settled Hp) as Hs.
  fold s in Hs. unfold settled in Hs.
  assert (Hu := alternates_user_turns (Socratic.socraticHistory s)
                  Socratic.skeptic).
  simpl in Hu.
  assert (Hnil : Socratic.user_turns [] = 0%nat) by reflexivity.
  destruct (Socratic.pending s) as [|[|h'|] [|]]; try contradiction.
  - destruct Hs as [(_ & Hh & Ht & Hc)|[(Ha & Hl & Ht & Hc)|(Ha & Hl & Ht & Hc & _)]].
    + rewrite Hh, Ht, Hc, Hnil.
      repeat split; try lia; try reflexivity.
    + specialize (Hu Ha).
      repeat split; try assumption; try lia;
        intros H; first [assumption | exfalso; lia].
    + specialize (Hu Ha).
      repeat split; try assumption; try lia;
        intros H; first [assumption | exfalso; lia].
  - destruct Hs as (Hh & Ht & Hc). rewrite Hh, Ht, Hc, Hnil.
    repeat split; try lia; try reflexivity.
  - destruct Hs as (_ & Ha & Hl & Ht & Hc). specialize (Hu Ha).
    repeat split; try assumption; try lia;
      intros H; first [assumption | exfalso; lia].
  - destruct Hs as (Ha & Hl & Ht & Hc & _). specialize (Hu Ha).
    repeat split; try assumption; try lia;
      intros H; first [assumption | exfalso; lia].
Qed.

(** A complete patient round: three answers, each after the skeptic's
    message, then the verdict. *)
Lemma patient_debate_witness :
  let o := ustring_of "Is it there, or is it not?" in
  let a := ustring_of "It approaches." in
  let h1 := [Socratic.mkMsg Socratic.skeptic o;
             Socratic.mkMsg Socratic.user a] in
  let h2 := h1 ++ [Socratic.mkMsg Socratic.skeptic o;
                   Socratic.mkMsg Socratic.user a] in
  let evs := [Socratic.Start; Socratic.OpeningArrives o;
              Socratic.TypeAnswer a; Socratic.Speak;
              Socratic.RebuttalArrives h1 o;
              Socratic.TypeAnswer a; Socratic.Speak;
              Socratic.RebuttalArrives h2 o;
              Socratic.TypeAnswer a; Socratic.Speak;
              Socratic.VerdictArrives (Socratic.mkVerdict true 90 "Well defended.")] in
  Socratic.user_turns (Socratic.socraticHistory (Socratic.run Socratic.initial evs))
  = 3%nat
  /\ length (Socratic.judge_calls (Socratic.run Socratic.initial evs)) = 1%nat.
Proof.
  intros o a h1 h2 evs. split; [reflexivity|].
  destruct (patient_debate_keeps_turns evs) as (_ & _ & _ & H & _);
    [reflexivity|].
  rewrite H; reflexivity.
Defined.

(** C5 at the failing input.  The input row stays enabled while a reply of
    the skeptic is outstanding.  An answer sent before the opening arrives
    starts the history with a user message; two answers sent in a row sit
    side by side in the history; and after three answers sent before any
    rebuttal came back, the three rebuttals raise the turn counter to 4
    with no call of [judgeSocraticRound], which then happens on the fourth
    answer. *)
Theorem C5_impatient_user_breaks_turns :
  let o := ustring_of "Is it there, or is it not?" in
  let a := ustring_of "It approaches." in
  let m_o := Socratic.mkMsg Socratic.skeptic o in
  let m_a := Socratic.mkMsg Socratic.user a in
  let early := [Socratic.Start; Socratic.TypeAnswer a; Socratic.Speak] in
  let twice := [Socratic.Start; Socratic.OpeningArrives o;
                Socratic.TypeAnswer a; Socratic.Speak;
                Socratic.TypeAnswer a; Socratic.Speak] in
  let thrice := twice ++
               [Socratic.TypeAnswer a; Socratic.Speak;
                Socratic.RebuttalArrives [m_o; m_a] o;
                Socratic.RebuttalArrives [m_o; m_a; m_a] o;
                Socratic.RebuttalArrives [m_o; m_a; m_a; m_a] o] in
  let fourth := thrice ++ [Socratic.TypeAnswer a; Socratic.Speak] in
  Socratic.socraticHistory (Socratic.run Socratic.initial early) = [m_a]
  /\ Socratic.socraticHistory (Socratic.run Socratic.initial twice)
     = [m_o; m_a; m_a]
  /\ Socratic.alternates Socratic.skeptic
       (Socratic.socraticHistory (Socratic.run Socratic.initial twice)) = false
  /\ Socratic.socraticTurn (Socratic.run Socratic.initial thrice) = 4
  /\ Socratic.judge_calls (Socratic.run Socratic.initial thrice) = []
  /\ Socratic.judge_calls (Socratic.run Socratic.initial fourth)
     = [[m_o; m_a; m_a; m_a; m_o; m_a]].
Proof. repeat split. Qed.

(** ** The Gemini service *)

Section GeminiFacts.
Import Gemini.
Context {json : Type} (JSON_parse : ustring -> option json)
        (json_truthy : json -> bool).

(** The [catch] of every single-call operation swallows whatever the
    [try] block throws. *)
Lemma perform_resolves (op : Op) (remote : M Response) :
  exists v, perform json JSON_parse op remote = Resolved v.
Proof.
  unfold perform, try_catch.
  destruct (body json JSON_parse op remote); eauto.
Qed.

Lemma perform_fallback (op : Op) (e : Error) :
  perform json JSON_parse op (Rejected e) = Resolved (fallback json op).
Proof. reflexivity. Qed.


End GeminiFacts.




(** ** The localStorage wrapper *)

Section LocalDbFacts.
Import LocalDb.
Context {json : Type} (null : json)
        (JSON_parse : string -> option json)
        (JSON_stringify : json -> string).



Lemma get_save_other (key key' : string) (v : json)
    (store : gmap string string) :
  key <> key' ->
  get json null JSON_parse key' (save json JSON_stringify key v store)
  = get json null JSON_parse key' store.
Proof.
  intros Hne. unfold get, getItem, save, setItem.
  rewrite lookup_insert_ne by exact Hne. reflexivity.
Qed.

End LocalDbFacts.

Lemma to_int_proper (z : Z) :
  Z.to_int z <> Decimal.Pos Decimal.Nil /\ Z.to_int z <> Decimal.Neg Decimal.Nil.
Proof.
  destruct z as [|p|p]; simpl; split; try discriminate;
    intros [= H]; exact (DecimalPos.Unsigned.to_uint_nonnil p H).
Qed.

Section JsonFacts.
Import Json.

Lemma string_app_cons (x : ascii) (a b : string) :
  String x a +:+ b = String x (a +:+ b).
Proof. reflexivity. Qed.

Lemma string_app_assoc (a b c : string) : (a +:+ b) +:+ c = a +:+ (b +:+ c).
Proof.
  induction a as [|x a IH]; [reflexivity|].
  rewrite !string_app_cons, IH. reflexivity.
Qed.

Lemma string_app_nil_r (a : string) : a +:+ "" = a.
Proof.
  induction a as [|x a IH]; [reflexivity|].
  rewrite string_app_cons, IH. reflexivity.
Qed.

Lemma string_app_length (a b : string) :
  String.length (a +:+ b) = (String.length a + String.length b)%nat.
Proof.
  induction a as [|x a IH]; [reflexivity|].
  rewrite string_app_cons. simpl. rewrite IH. reflexivity.
Qed.

Lemma body_escape_char (c : ascii) (tail : string) :
  parse_string_body (escape_char c +:+ tail) = prepend c (parse_string_body tail).
Proof. destruct c as [[] [] [] [] [] [] [] []]; reflexivity. Qed.

Lemma body_escape (s rest : string) :
  parse_string_body (escape s +:+ String dq rest) = Some (s, rest).
Proof.
  induction s as [|c s IH]; [reflexivity|].
  cbn [escape]. rewrite string_app_assoc, body_escape_char, IH. reflexivity.
Qed.

Lemma all_num_uint (u : Decimal.uint) :
  all_num (NilEmpty.string_of_uint u) = true.
Proof. induction u; simpl; assumption || reflexivity. Qed.

Lemma span_num_app (t rest : string) :
  all_num t = true -> ends_number rest -> span_num (t +:+ rest) = (t, rest).
Proof.
  intros Ht Hrest. induction t as [|c t IH].
  - destruct rest as [|c r]; [reflexivity|]. simpl in Hrest |- *.
    rewrite Hrest. reflexivity.
  - simpl in Ht. apply andb_true_iff in Ht as [Hc Ht].
    rewrite string_app_cons. simpl. rewrite Hc, (IH Ht). reflexivity.
Qed.

Lemma all_num_nilzero (u : Decimal.uint) :
  all_num (NilZero.string_of_uint u) = true.
Proof.
  destruct u; try reflexivity;
    match goal with
    | |- all_num (NilZero.string_of_uint ?d) = true => exact (all_num_uint d)
    end.
Qed.

Lemma all_num_int (z : Z) :
  all_num (NilZero.string_of_int (Z.to_int z)) = true.
Proof.
  destruct z as [|p|p]; [reflexivity| |]; unfold Z.to_int, NilZero.string_of_int.
  - apply all_num_nilzero.
  - cbn [all_num]. rewrite all_num_nilzero. reflexivity.
Qed.

Lemma num_first (z : Z) :
  exists c t, NilZero.string_of_int (Z.to_int z) = String c t
              /\ is_num_char c = true.
Proof.
  pose proof (all_num_int z) as H.
  destruct (NilZero.string_of_int (Z.to_int z)) as [|c t] eqn:E.
  - exfalso. destruct z as [|p|p]; try discriminate E.
    unfold Z.to_int, NilZero.string_of_int, NilZero.string_of_uint in E.
    destruct (Pos.to_uint p); discriminate E.
  - exists c, t. split; [reflexivity|]. simpl in H.
    apply andb_true_iff in H as [Hc _]. exact Hc.
Qed.

Lemma parse_number_print (z : Z) (rest : string) :
  ends_number rest ->
  parse_number (NilZero.string_of_int (Z.to_int z) +:+ rest)
  = Some (JNumber z, rest).
Proof.
  intros Hrest. unfold parse_number.
  rewrite (span_num_app _ _ (all_num_int z) Hrest).
  destruct (to_int_proper z) as [Hp Hn].
  rewrite NilZero.isi by assumption.
  rewrite DecimalZ.of_to, String.eqb_refl. reflexivity.
Qed.


Lemma stringify_array (x : json) (more : list json) :
  stringify (JArray (x :: more))
  = "[" +:+ (stringify x +:+ tail_items more) +:+ "]".
Proof. reflexivity. Qed.

Lemma stringify_object (k : string) (x : json) (more : list (string * json)) :
  stringify (JObject ((k, x) :: more))
  = "{" +:+ (quote k +:+ ":" +:+ stringify x +:+ tail_fields more) +:+ "}".
Proof. reflexivity. Qed.

(** No value starts with a closing bracket, and none is empty. *)
Lemma stringify_first (v : json) :
  exists c t, stringify v = String c t
              /\ (Ascii.nat_of_ascii c =? 93)%nat = false.
Proof.
  destruct v as [|[|]|z|s|[|x more]|[|[k x] more]];
    try (eexists _, _; split; reflexivity).
  destruct (num_first z) as (c & t & Heq & Hc). exists c, t.
  split; [exact Heq|]. unfold is_num_char in Hc.
  apply Nat.eqb_neq. intros E. rewrite E in Hc. discriminate Hc.
Qed.

Lemma tail_items_ends (l : list json) (rest : string) :
  ends_number (tail_items l +:+ "]" +:+ rest).
Proof. destruct l; exact eq_refl. Qed.

Lemma tail_fields_ends (l : list (string * json)) (rest : string) :
  ends_number (tail_fields l +:+ "}" +:+ rest).
Proof. destruct l as [|[k y] l]; exact eq_refl. Qed.

Definition parses_back (fuel : nat) : Prop :=
  (forall v rest, (String.length (stringify v) <= fuel)%nat ->
     ends_number rest ->
     parse_value (S fuel) (stringify v +:+ rest) = Some (v, rest))
  /\ (forall l rest, (String.length (tail_items l) <= fuel)%nat ->
       parse_items (S fuel) (tail_items l +:+ "]" +:+ rest) = Some (l, rest))
  /\ (forall k x rest, (String.length (field_text (k, x)) <= fuel)%nat ->
       ends_number rest ->
       parse_field (S fuel) (quote k +:+ ":" +:+ stringify x +:+ rest)
       = Some ((k, x), rest))
  /\ (forall l rest, (String.length (tail_fields l) <= fuel)%nat ->
       parse_fields (S fuel) (tail_fields l +:+ "}" +:+ rest) = Some (l, rest)).

Lemma parse_value_scalar (fuel : nat) (v : json) (rest : string) :
  match v with JArray (_ :: _) | JObject (_ :: _) => False | _ => True end ->
  ends_number rest ->
  parse_value (S fuel) (stringify v +:+ rest) = Some (v, rest).
Proof.
  intros Hv Hrest.
  destruct v as [|[|]|z|s|[|x more]|[|kx more]]; try contradiction;
    try reflexivity.
  - destruct (num_first z) as (c & t & Heq & Hc).
    cbn [stringify]. rewrite Heq, string_app_cons. cbn [parse_value].
    rewrite Hc. rewrite <- string_app_cons, <- Heq.
    apply parse_number_print. exact Hrest.
  - cbn [stringify]. unfold quote. rewrite string_app_cons, string_app_assoc.
    rewrite string_app_cons. change ("" +:+ rest) with rest.
    cbn [parse_value]. cbn. rewrite (body_escape s rest). reflexivity.
Qed.


Lemma string_first_app (a r : string) (c : ascii) (t : string) :
  a = String c t -> a +:+ r = String c (t +:+ r).
Proof. intros ->. reflexivity. Qed.

Lemma quote_app (k rest : string) :
  quote k +:+ rest = String dq (escape k +:+ String dq rest).
Proof.
  unfold quote. rewrite string_app_cons, string_app_assoc. reflexivity.
Qed.

Lemma parse_value_array (f : nat) (R : string) :
  parse_value (S f) (String "[" R)
  = match R with
    | EmptyString => None
    | String c' after =>
        if (Ascii.nat_of_ascii c' =? 93)%nat then Some (JArray [], after)
        else
          match parse_value f R with
          | Some (x, after) =>
              match parse_items f after with
              | Some (more, after') => Some (JArray (x :: more), after')
              | None => None
              end
          | None => None
          end
    end.
Proof. reflexivity. Qed.

Lemma parse_value_object (f : nat) (k T : string) :
  parse_value (S f) (String "{" (quote k +:+ T))
  = match parse_field f (quote k +:+ T) with
    | Some (kx, after) =>
        match parse_fields f after with
        | Some (more, after') => Some (JObject (kx :: more), after')
        | None => None
        end
    | None => None
    end.
Proof. reflexivity. Qed.

Lemma parse_items_comma (f : nat) (R : string) :
  parse_items (S f) (String "," R)
  = match parse_value f R with
    | Some (x, after) =>
        match parse_items f after with
        | Some (more, after') => Some (x :: more, after')
        | None => None
        end
    | None => None
    end.
Proof. reflexivity. Qed.

Lemma parse_fields_comma (f : nat) (R : string) :
  parse_fields (S f) (String "," R)
  = match parse_field f R with
    | Some (kx, after) =>
        match parse_fields f after with
        | Some (more, after') => Some (kx :: more, after')
        | None => None
        end
    | None => None
    end.
Proof. reflexivity. Qed.

Lemma parse_field_quote (f : nat) (k T : string) :
  parse_field (S f) (quote k +:+ String ":" T)
  = match parse_value f T with
    | Some (x, after') => Some ((k, x), after')
    | None => None
    end.
Proof.
  rewrite quote_app.
  change (parse_field (S f) (String dq (escape k +:+ String dq (String ":" T))))
    with (match parse_string_body (escape k +:+ String dq (String ":" T)) with
          | Some (k, String ":" after) =>
              match parse_value f after with
              | Some (x, after') => Some ((k, x), after')
              | None => None
              end
          | _ => None
          end).
  rewrite body_escape. reflexivity.
Qed.

Lemma parses_back_all (fuel : nat) : parses_back fuel.
Proof.
  induction fuel as [|f (IHV & IHI & IHF & IHFs)].
  - repeat split.
    + intros v rest Hlen _. exfalso.
      destruct (stringify_first v) as (c & t & Heq & _).
      rewrite Heq in Hlen. simpl in Hlen. lia.
    + intros [|y l] rest Hlen; [reflexivity|]. exfalso.
      cbn [tail_items] in Hlen. rewrite string_app_cons in Hlen.
      simpl in Hlen. lia.
    + intros k x rest Hlen _. exfalso. unfold field_text in Hlen.
      rewrite quote_app in Hlen. simpl in Hlen. lia.
    + intros [|[k y] l] rest Hlen; [reflexivity|]. exfalso.
      cbn [tail_fields] in Hlen. rewrite string_app_cons in Hlen.
      simpl in Hlen. lia.
  - repeat split.
    + (* a value *)
      intros v rest Hlen Hrest.
      destruct v as [|b|z|s|[|x more]|[|[k x] more]];
        try (apply parse_value_scalar; [exact I | exact Hrest]).
      * (* a non-empty array *)
        rewrite stringify_array in *.
        rewrite !string_app_length in Hlen. simpl in Hlen.
        rewrite !string_app_assoc.
        set (R := tail_items more +:+ "]" +:+ rest).
        change (parse_value (S (S f)) (String "[" (stringify x +:+ R))
                = Some (JArray (x :: more), rest)).
        destruct (stringify_first x) as (c & t & Heq & Hc).
        rewrite parse_value_array.
        rewrite (string_first_app _ R c t Heq). rewrite Hc.
        rewrite <- (string_first_app _ R c t Heq).
        rewrite (IHV x R) by (try apply tail_items_ends; lia).
        unfold R. rewrite (IHI more rest) by lia. reflexivity.
      * (* a non-empty object *)
        rewrite stringify_object in *.
        rewrite !string_app_length in Hlen. simpl in Hlen.
        rewrite !string_app_assoc.
        set (R := tail_fields more +:+ "}" +:+ rest).
        change (parse_value (S (S f))
                  (String "{" (quote k +:+ ":" +:+ stringify x +:+ R))
                = Some (JObject ((k, x) :: more), rest)).
        rewrite parse_value_object.
        rewrite (IHF k x R).
        -- unfold R. rewrite (IHFs more rest) by lia. reflexivity.
        -- unfold field_text. simpl fst. simpl snd.
           rewrite !string_app_length. simpl. lia.
        -- apply tail_fields_ends.
    + (* the elements after the first *)
      intros [|y l] rest Hlen; [reflexivity|].
      cbn [tail_items] in *. rewrite !string_app_length in Hlen.
      simpl in Hlen. rewrite !string_app_assoc.
      set (R := tail_items l +:+ "]" +:+ rest).
      change (parse_items (S (S f)) (String "," (stringify y +:+ R))
              = Some (y :: l, rest)).
      rewrite parse_items_comma.
      rewrite (IHV y R) by (try apply tail_items_ends; lia).
      unfold R. rewrite (IHI l rest) by lia. reflexivity.
    + (* a field *)
      intros k x rest Hlen Hrest. unfold field_text in Hlen.
      simpl fst in Hlen. simpl snd in Hlen.
      rewrite !string_app_length in Hlen. simpl in Hlen.
      change (":" +:+ stringify x +:+ rest)
        with (String ":" (stringify x +:+ rest)).
      rewrite parse_field_quote.
      rewrite (IHV x rest) by (try exact Hrest; lia). reflexivity.
    + (* the fields after the first *)
      intros [|[k y] l] rest Hlen; [reflexivity|].
      cbn [tail_fields] in *. rewrite !string_app_length in Hlen.
      simpl in Hlen. rewrite !string_app_assoc.
      set (R := tail_fields l +:+ "}" +:+ rest).
      change (parse_fields (S (S f))
                (String "," (quote k +:+ ":" +:+ stringify y +:+ R))
              = Some ((k, y) :: l, rest)).
      rewrite parse_fields_comma.
      rewrite (IHF k y R).
      * unfold R. rewrite (IHFs l rest) by lia. reflexivity.
      * unfold field_text. simpl fst. simpl snd.
        rewrite !string_app_length. simpl. lia.
      * apply tail_fields_ends.
Qed.

(** [JSON.parse] gives back what [JSON.stringify] wrote. *)
Theorem parse_stringify (v : json) : parse (stringify v) = Some v.
Proof.
  unfold parse.
  destruct (parses_back_all (String.length (stringify v))) as (HV & _).
  rewrite <- (string_app_nil_r (stringify v)) at 2.
  rewrite (HV v "" (Nat.le_refl _) I). reflexivity.
Qed.

End JsonFacts.

(** Over any codec that round-trips, [db.get] reads back what [db.save]
    wrote: the text [JSON.stringify] writes is never empty, so it is
    truthy. *)
Lemma get_save_roundtrip {json : Type} (null : json)
    (JSON_parse : string -> option json) (JSON_stringify : json -> string)
    (key : string) (v : json) (store : gmap string string) :
  (forall v, JSON_parse (JSON_stringify v) = Some v) ->
  JSON_parse "" = None ->
  LocalDb.get json null JSON_parse key
    (LocalDb.save json JSON_stringify key v store) = v.
Proof.
  intros Hround Hempty.
  unfold LocalDb.get, LocalDb.getItem, LocalDb.save, LocalDb.setItem.
  rewrite lookup_insert_eq.
  destruct (JSON_stringify v) as [|c rest] eqn:Htext.
  - specialize (Hround v). rewrite Htext, Hempty in Hround. discriminate.
  - rewrite <- Htext, Hround. reflexivity.
Qed.



(** ** The mock backend over values *)

Section BackendFacts.
Import MockBackend.

Lemma toggled_self (l : list string) (username : string) :
  username ∈ toggled l username <-> username ∉ l.
Proof.
  unfold toggled. case_bool_decide as H.
  - rewrite list_elem_of_filter. tauto.
  - rewrite elem_of_app, list_elem_of_singleton. tauto.
Qed.

Lemma toggled_other (l : list string) (username u : string) :
  u <> username -> (u ∈ toggled l username <-> u ∈ l).
Proof.
  intros Hne. unfold toggled. case_bool_decide as H.
  - rewrite list_elem_of_filter. tauto.
  - rewrite elem_of_app, list_elem_of_singleton. tauto.
Qed.

Lemma toggled_twice (l : list string) (username u : string) :
  u ∈ toggled (toggled l username) username <-> u ∈ l.
Proof.
  destruct (decide (u = username)) as [->|Hne].
  - rewrite toggled_self, toggled_self.
    destruct (decide (username ∈ l)); tauto.
  - rewrite !toggled_other by exact Hne. reflexivity.
Qed.

(** Overwriting the found course by one with the same id leaves it the
    first match. *)
Lemma find_course_insert (courseId : string) (courses : list Course)
    (i : nat) (c c' : Course) :
  find_course courseId courses = Some (i, c) -> id c' = id c ->
  find_course courseId (<[i := c']> courses) = Some (i, c').
Proof.
  unfold find_course. intros H Hid.
  apply list_find_Some in H as (Hi & Hc & Hbefore).
  apply list_find_Some. split; [|split].
  - apply list_lookup_insert_eq. eapply lookup_lt_Some, Hi.
  - congruence.
  - intros j y Hj Hlt. rewrite list_lookup_insert_ne in Hj by lia.
    eapply Hbefore; eassumption.
Qed.

Lemma toggle_stored (load_time : Z) (courseId username : string) (db : Db)
    (i : nat) (c : Course) :
  find_course courseId (default [] (stored_courses db)) = Some (i, c) ->
  stored_courses (toggleLikeCourse load_time courseId username db)
  = Some (<[i := with_likes c (toggled (default [] (likes c)) username)]>
            (default [] (stored_courses db))).
Proof. intros H. unfold toggleLikeCourse. rewrite H. reflexivity. Qed.

(** What [getCourses] returns under a system id is a normalized seed
    course: nothing stored under such an id is ever read. *)
Lemma getCourses_system (load_time : Z) (db : Db) (c : Course) :
  c ∈ getCourses load_time db -> is_system_id (id c) = true ->
  exists seed, seed ∈ SYSTEM_COURSES load_time
    /\ id c = id seed /\ likes c = Some (default [] (likes seed)).
Proof.
  unfold getCourses. rewrite elem_of_app. intros [H|H] Hsys.
  - apply list_elem_of_In, in_map_iff in H as (seed & <- & Hin).
    exists seed. apply list_elem_of_In in Hin. auto.
  - apply list_elem_of_filter in H as [Hno _]. congruence.
Qed.

End BackendFacts.

(** C1 at the failing input.  With nothing stored, alice likes the system
    course lumi-sys-quant-002: the copy with her like is saved, yet the only
    course [getCourses] returns under that id still has the seed's likes,
    without alice.  More generally no like toggled on a system course is
    ever visible in [getCourses]: it drops every stored course whose id
    starts with lumi-sys-. *)
Theorem C1_system_like_is_not_visible (load_time : Z) :
  let db := MockBackend.toggleLikeCourse load_time "lumi-sys-quant-002" "alice"
              (MockBackend.mkDb None None) in
  (exists copy, MockBackend.stored_courses db = Some [copy]
     /\ MockBackend.id copy = "lumi-sys-quant-002"
     /\ MockBackend.likes copy = Some ["curator"; "alice"])
  /\ (forall c, c ∈ MockBackend.getCourses load_time db ->
        MockBackend.id c = "lumi-sys-quant-002" ->
        MockBackend.likes c = Some ["curator"])
  /\ (forall stored courseId username c,
        c ∈ MockBackend.getCourses load_time
              (MockBackend.toggleLikeCourse load_time courseId username stored) ->
        MockBackend.is_system_id (MockBackend.id c) = true ->
        exists seed, seed ∈ MockBackend.SYSTEM_COURSES load_time
          /\ MockBackend.id c = MockBackend.id seed
          /\ MockBackend.likes c
             = Some (default [] (MockBackend.likes seed))).
Proof.
  split; [|split].
  - eexists. repeat split.
  - intros c Hc Hid.
    destruct (getCourses_system load_time _ c Hc) as (seed & Hseed & Hids & Hl).
    { rewrite Hid. reflexivity. }
    rewrite Hl. rewrite Hid in Hids.
    unfold MockBackend.SYSTEM_COURSES in Hseed. simpl in Hseed.
    repeat (apply elem_of_cons in Hseed as [-> | Hseed]);
      try (apply elem_of_nil in Hseed; contradiction);
      first [discriminate Hids | reflexivity].
  - intros stored courseId username c Hc Hsys.
    exact (getCourses_system load_time _ c Hc Hsys).
Qed.

(** C10. For a course found in the stored list, [toggleLikeCourse] adds
    the username to its likes when absent and removes it when present, and
    touches nothing else; a second call with the same arguments brings the
    likes of that course back to the original membership. *)
Theorem C10_toggle_like_twice (load_time : Z) (courseId username : string)
    (db : MockBackend.Db) (i : nat) (c : MockBackend.Course) :
  MockBackend.find_course courseId (default [] (MockBackend.stored_courses db))
  = Some (i, c) ->
  let once := MockBackend.toggleLikeCourse load_time courseId username db in
  let twice := MockBackend.toggleLikeCourse load_time courseId username once in
  exists c1 c2,
    default [] (MockBackend.stored_courses once) !! i = Some c1
    /\ default [] (MockBackend.stored_courses twice) !! i = Some c2
    /\ (username ∈ default [] (MockBackend.likes c1)
        <-> username ∉ default [] (MockBackend.likes c))
    /\ (forall u, u <> username ->
          (u ∈ default [] (MockBackend.likes c1)
           <-> u ∈ default [] (MockBackend.likes c)))
    /\ (forall u, u ∈ default [] (MockBackend.likes c2)
                  <-> u ∈ default [] (MockBackend.likes c))
    /\ MockBackend.with_likes c1 [] = MockBackend.with_likes c []
    /\ MockBackend.with_likes c2 [] = MockBackend.with_likes c []
    /\ (forall j, j <> i ->
          default [] (MockBackend.stored_courses once) !! j
          = default [] (MockBackend.stored_courses db) !! j
          /\ default [] (MockBackend.stored_courses twice) !! j
             = default [] (MockBackend.stored_courses db) !! j).
Proof.
  intros Hfind once twice.
  set (stored := default [] (MockBackend.stored_courses db)) in *.
  set (c1 := MockBackend.with_likes c
               (MockBackend.toggled (default [] (MockBackend.likes c)) username)).
  set (c2 := MockBackend.with_likes c1
               (MockBackend.toggled (default [] (MockBackend.likes c1)) username)).
  assert (Hi : (i < length stored)%nat).
  { apply list_find_Some in Hfind as (Hi & _). eapply lookup_lt_Some, Hi. }
  assert (Honce : MockBackend.stored_courses once = Some (<[i := c1]> stored)).
  { apply toggle_stored. exact Hfind. }
  assert (Hfind1 : MockBackend.find_course courseId
                     (default [] (MockBackend.stored_courses once))
                   = Some (i, c1)).
  { rewrite Honce. simpl. apply (find_course_insert _ _ _ c); [exact Hfind|].
    reflexivity. }
  assert (Htwice : MockBackend.stored_courses twice
                   = Some (<[i := c2]> (<[i := c1]> stored))).
  { unfold twice. rewrite (toggle_stored _ _ _ _ i c1 Hfind1), Honce.
    reflexivity. }
  exists c1, c2. rewrite Honce, Htwice. simpl.
  split; [apply list_lookup_insert_eq; exact Hi|].
  split; [apply list_lookup_insert_eq; rewrite length_insert; exact Hi|].
  split; [apply toggled_self|].
  split; [intros u Hu; apply toggled_other; exact Hu|].
  split; [intros u; apply toggled_twice|].
  split; [reflexivity|]. split; [reflexivity|].
  intros j Hj. rewrite !list_lookup_insert_ne by congruence. split; reflexivity.
Qed.

(** A user course liked by bob: alice's like comes and goes. *)
Lemma C10_witness :
  let course := MockBackend.mkCourse "course-1700000000000"
                  (MockBackend.mkInfo "Knots" "Mathematics"
                     MockBackend.flashcard "Graduate" "bob")
                  (Some true) (Some ["bob"]) (Some []) in
  let db := MockBackend.mkDb (Some [course]) None in
  exists c2,
    default [] (MockBackend.stored_courses
                  (MockBackend.toggleLikeCourse 0 "course-1700000000000" "alice"
                     (MockBackend.toggleLikeCourse 0 "course-1700000000000"
                        "alice" db))) !! 0%nat = Some c2
    /\ ("alice" ∈ default [] (MockBackend.likes c2) <-> "alice" ∈ ["bob"]).
Proof.
  intros course db.
  destruct (C10_toggle_like_twice 0 "course-1700000000000" "alice" db 0 course)
    as (c1 & c2 & _ & H2 & _ & _ & Hsame & _); [reflexivity|].
  exists c2. split; [exact H2 | apply Hsame].
Defined.


(** ** The mock backend over the object heap *)

Section HeapFacts.
Import MockBackend ObjectHeap.

Lemma holds_opt_app {A} (mk : A -> cell) (h ext : heap) (a : option loc)
    (v : option A) :
  holds_opt mk h a v -> holds_opt mk (h ++ ext) a v.
Proof.
  destruct a, v; simpl; try tauto. intros H.
  rewrite lookup_app_l; [exact H|]. eapply lookup_lt_Some, H.
Qed.

(** Allocation does not disturb what the heap holds. *)
Lemma holds_course_app (h ext : heap) (a : loc) (c : Course) :
  holds_course h a c -> holds_course (h ++ ext) a c.
Proof.
  intros (o & Ho & Hid & Hinfo & Hpub & Hl & Hk). exists o.
  repeat split; try assumption; try (apply holds_opt_app; assumption).
  rewrite lookup_app_l; [exact Ho|]. eapply lookup_lt_Some, Ho.
Qed.

Lemma holds_opt_write {A} (mk : A -> cell) (h : heap) (a : loc) (y : cell)
    (b : option loc) (v : option A) :
  (forall x, h !! a <> Some (mk x)) ->
  holds_opt mk h b v -> holds_opt mk (<[a := y]> h) b v.
Proof.
  intros Hkind. destruct b as [b|], v as [x|]; simpl; try tauto. intros H.
  rewrite list_lookup_insert_ne; [exact H|]. intros ->. exact (Hkind x H).
Qed.

(** A write to another object, or to a cell that is no string or comment
    array, does not disturb the course at [b]. *)
Lemma holds_course_write (h : heap) (a b : loc) (y : cell) (c : Course) :
  a <> b ->
  (forall l, h !! a <> Some (CStrings l)) ->
  (forall l, h !! a <> Some (CComments l)) ->
  holds_course h b c -> holds_course (<[a := y]> h) b c.
Proof.
  intros Hne Hs Hc (o & Ho & Hid & Hinfo & Hpub & Hl & Hk). exists o.
  repeat split; try assumption; try (apply holds_opt_write; assumption).
  rewrite list_lookup_insert_ne by exact Hne. exact Ho.
Qed.

Lemma read_opt_strings (h : heap) (a : option loc) (v : option (list string)) :
  holds_opt CStrings h a v -> read_opt read_strings a h = Some (v, h).
Proof.
  destruct a, v; simpl; try tauto.
  intros H. unfold bind, read_strings. rewrite H. reflexivity.
Qed.

Lemma read_opt_comments (h : heap) (a : option loc) (v : option (list Comment)) :
  holds_opt CComments h a v -> read_opt read_comments a h = Some (v, h).
Proof.
  destruct a, v; simpl; try tauto.
  intros H. unfold bind, read_comments. rewrite H. reflexivity.
Qed.

(** [JSON.stringify] reads back the course the heap holds. *)
Lemma read_course_holds (h : heap) (a : loc) (c : Course) :
  holds_course h a c -> read_course a h = Some (c, h).
Proof.
  intros (o & Ho & Hid & Hinfo & Hpub & Hl & Hk).
  unfold read_course, bind, read_obj. rewrite Ho.
  rewrite (read_opt_strings _ _ _ Hl), (read_opt_comments _ _ _ Hk).
  unfold ret. rewrite Hid, Hinfo, Hpub. destruct c; reflexivity.
Qed.

Lemma read_all_holds (h : heap) (locs : list loc) (cs : list Course) :
  Forall2 (holds_course h) locs cs -> read_all locs h = Some (cs, h).
Proof.
  induction 1 as [|a c locs cs Ha _ IH]; [reflexivity|].
  simpl. unfold bind. rewrite (read_course_holds _ _ _ Ha), IH. reflexivity.
Qed.

(** [findIndex] over the references against [findIndex] over the
    values. *)
Lemma find_index_holds (courseId : string) (h : heap) (locs : list loc)
    (cs : list Course) (i0 : nat) :
  Forall2 (holds_course h) locs cs ->
  find_index courseId locs i0 h
  = Some (match list_find (fun c => id c = courseId) cs with
          | Some (i, _) =>
              match locs !! i with
              | Some a => Some ((i0 + i)%nat, a)
              | None => None
              end
          | None => None
          end, h).
Proof.
  intros H. revert i0.
  induction H as [|a c locs cs (o & Ho & Hid & _) _ IH]; intros i0;
    [reflexivity|].
  simpl. unfold bind, read_obj. rewrite Ho. rewrite <- Hid.
  destruct (decide (o_id o = courseId)) as [E|E].
  - simpl. rewrite Nat.add_0_r. reflexivity.
  - rewrite IH. destruct (list_find _ cs) as [[i x]|]; simpl; [|reflexivity].
    destruct (locs !! i); [|reflexivity]. rewrite Nat.add_succ_r. reflexivity.
Qed.

Lemma find_list_find (courseId : string) (cs : list Course) :
  find (fun c => bool_decide (id c = courseId)) cs
  = snd <$> list_find (fun c => id c = courseId) cs.
Proof.
  induction cs as [|c cs IH]; [reflexivity|]. simpl.
  case_bool_decide as E.
  - rewrite decide_True by exact E. reflexivity.
  - rewrite decide_False by exact E. rewrite IH.
    destruct (list_find _ cs) as [[i x]|]; reflexivity.
Qed.


Lemma lookup_fresh (h : list cell) (x : cell) :
  (h ++ [x]) !! length h = Some x.
Proof. apply list_lookup_middle. reflexivity. Qed.

(** [JSON.parse] of one course: the new object sits in fresh cells and
    holds the course. *)
Lemma new_course_spec (c : Course) (h : list cell) :
  exists a ext,
    new_course c h = Some (a, h ++ ext)
    /\ (length h <= a)%nat
    /\ holds_course (h ++ ext) a c.
Proof.
  destruct c as [cid cinfo cpub [l|] [k|]];
    unfold new_course, alloc_opt, bind, alloc, ret; simpl.
  - set (o := mkObj cid cinfo cpub (Some (length h)) (Some (S (length h)))).
    exists (S (S (length h))), [CStrings l; CComments k; CObj o].
    split; [|split; [lia|]].
    + rewrite !length_app. simpl. rewrite <- !app_assoc. simpl.
      repeat f_equal; lia.
    + exists o. repeat split; simpl.
      * rewrite lookup_app_r by lia.
        replace (S (S (length h)) - length h)%nat with 2%nat by lia.
        reflexivity.
      * rewrite lookup_app_r by lia. rewrite Nat.sub_diag. reflexivity.
      * rewrite lookup_app_r by lia.
        replace (S (length h) - length h)%nat with 1%nat by lia.
        reflexivity.
  - set (o := mkObj cid cinfo cpub (Some (length h)) None).
    exists (S (length h)), [CStrings l; CObj o].
    split; [|split; [lia|]].
    + rewrite !length_app. simpl. rewrite <- !app_assoc. simpl.
      repeat f_equal; lia.
    + exists o. repeat split; simpl.
      * rewrite lookup_app_r by lia.
        replace (S (length h) - length h)%nat with 1%nat by lia.
        reflexivity.
      * rewrite lookup_app_r by lia. rewrite Nat.sub_diag. reflexivity.
  - set (o := mkObj cid cinfo cpub None (Some (length h))).
    exists (S (length h)), [CComments k; CObj o].
    split; [|split; [lia|]].
    + rewrite !length_app. simpl. rewrite <- !app_assoc. simpl.
      repeat f_equal; lia.
    + exists o. repeat split; simpl.
      * rewrite lookup_app_r by lia.
        replace (S (length h) - length h)%nat with 1%nat by lia.
        reflexivity.
      * rewrite lookup_app_r by lia. rewrite Nat.sub_diag. reflexivity.
  - exists (length h), [CObj (mkObj cid cinfo cpub None None)].
    split; [reflexivity|split; [lia|]].
    exists (mkObj cid cinfo cpub None None).
    repeat split; simpl. apply lookup_fresh.
Qed.

Lemma holds_course_lt (h : list cell) (a : nat) (c : Course) :
  holds_course h a c -> (a < length h)%nat.
Proof. intros (o & Ho & _). eapply lookup_lt_Some, Ho. Qed.

(** [JSON.parse] of the stored list: fresh, pairwise distinct objects. *)
Lemma new_courses_spec (cs : list Course) (h : list cell) :
  exists locs ext,
    new_courses cs h = Some (locs, h ++ ext)
    /\ Forall2 (holds_course (h ++ ext)) locs cs
    /\ Forall (fun a => (length h <= a)%nat) locs
    /\ NoDup locs.
Proof.
  revert h. induction cs as [|c cs IH]; intros h.
  - exists [], []. rewrite app_nil_r. repeat split; constructor.
  - destruct (new_course_spec c h) as (a & ext1 & Hnew & Hge & Hholds).
    destruct (IH (h ++ ext1)) as (more & ext2 & Hmore & Hall & Hfresh & Hnd).
    exists (a :: more), (ext1 ++ ext2).
    simpl. unfold bind. rewrite Hnew, Hmore. unfold ret.
    rewrite app_assoc. split; [reflexivity|]. split; [|split].
    + constructor; [apply holds_course_app; exact Hholds | exact Hall].
    + constructor; [exact Hge|].
      eapply Forall_impl; [exact Hfresh|]. simpl. intros b Hb.
      rewrite length_app in Hb. lia.
    + constructor; [|exact Hnd]. intros Hin.
      rewrite Forall_forall in Hfresh. specialize (Hfresh _ Hin).
      apply holds_course_lt in Hholds. lia.
Qed.

(** One course of the parsed list is rewritten, the others are left
    alone. *)
Lemma holds_after_update (h h' : list cell) (locs : list nat)
    (cs : list Course) (i : nat) (a : nat) (c' : Course) :
  Forall2 (holds_course h) locs cs -> NoDup locs -> locs !! i = Some a ->
  (forall b c, b <> a -> holds_course h b c -> holds_course h' b c) ->
  holds_course h' a c' ->
  Forall2 (holds_course h') locs (<[i := c']> cs).
Proof.
  intros H. revert i. induction H as [|b c locs cs Hb Hrest IH];
    intros i Hnd Hi Hframe Ha; [constructor|].
  apply NoDup_cons in Hnd as [Hnotin Hnd].
  destruct i as [|i]; simpl in Hi |- *.
  - injection Hi as ->. constructor; [exact Ha|].
    clear IH Hb Ha. induction Hrest as [|b0 c0 locs cs Hb0 Hrest IH];
      constructor.
    + apply Hframe; [|exact Hb0]. intros ->. apply Hnotin. left.
    + apply IH.
      * intros Hin. apply Hnotin. right. exact Hin.
      * apply NoDup_cons in Hnd as [_ Hnd]. exact Hnd.
  - constructor; [|apply IH; assumption].
    apply Hframe; [|exact Hb]. intros ->.
    apply Hnotin. eapply list_elem_of_lookup_2, Hi.
Qed.


Lemma holds_course_obj (h : list cell) (a : nat) (c : Course) :
  holds_course h a c ->
  (forall l, h !! a <> Some (CStrings l))
  /\ (forall l, h !! a <> Some (CComments l))
  /\ (forall l, h !! a <> Some (CCourses l)).
Proof. intros (o & Ho & _). rewrite Ho. repeat split; discriminate. Qed.

Lemma or_empty_strings (h : list cell) (a : option nat)
    (v : option (list string)) :
  holds_opt CStrings h a v ->
  exists ll ext,
    or_empty (CStrings []) a h = Some (ll, h ++ ext)
    /\ (h ++ ext) !! ll = Some (CStrings (default [] v)).
Proof.
  destruct a as [a|], v as [l|]; simpl; try tauto.
  - intros H. exists a, []. rewrite app_nil_r. split; [reflexivity|exact H].
  - intros _. exists (length h), [CStrings []].
    split; [reflexivity | apply lookup_fresh].
Qed.

Lemma or_empty_comments (h : list cell) (a : option nat)
    (v : option (list Comment)) :
  holds_opt CComments h a v ->
  exists ll ext,
    or_empty (CComments []) a h = Some (ll, h ++ ext)
    /\ (h ++ ext) !! ll = Some (CComments (default [] v)).
Proof.
  destruct a as [a|], v as [l|]; simpl; try tauto.
  - intros H. exists a, []. rewrite app_nil_r. split; [reflexivity|exact H].
  - intros _. exists (length h), [CComments []].
    split; [reflexivity | apply lookup_fresh].
Qed.

(** The heap after [course.field = fresh array; courses[i] = course]
    holds the parsed list with course [i] replaced. *)
Lemma inplace_update (h2 : list cell) (ext : list cell) (A a i : nat)
    (locs : list nat) (cs : list Course) (c' : Course) (o o' : CourseObj)
    (x : cell) (db : Db) :
  let h4 := (h2 ++ ext) ++ [x] in
  let h6 := <[A := CCourses (<[i := a]> locs)]> (<[a := CObj o']> h4) in
  h2 !! A = Some (CCourses locs) ->
  Forall2 (holds_course h2) locs cs -> NoDup locs ->
  locs !! i = Some a -> h2 !! a = Some (CObj o) ->
  holds_course (<[a := CObj o']> h4) a c' ->
  exists h',
    (let! _ := write a (CObj o') in
     let! _ := write A (CCourses (<[i := a]> locs)) in
     save_array A db) h4
    = Some (save_courses (<[i := c']> cs) db, h')
    /\ (forall b, (b < length h2)%nat -> b <> a -> b <> A ->
          h' !! b = h2 !! b).
Proof.
  intros h4 h6 HA Hholds Hnd Hi Ho Hnew.
  assert (Ha4 : h4 !! a = Some (CObj o)).
  { unfold h4. rewrite !lookup_app_l; [exact Ho| |].
    - eapply lookup_lt_Some, Ho.
    - rewrite length_app. apply lookup_lt_Some in Ho. lia. }
  assert (HA4 : h4 !! A = Some (CCourses locs)).
  { unfold h4. rewrite !lookup_app_l; [exact HA| |].
    - eapply lookup_lt_Some, HA.
    - rewrite length_app. apply lookup_lt_Some in HA. lia. }
  assert (HaA : a <> A) by (intros ->; congruence).
  exists h6. split.
  - unfold bind, write.
    rewrite (proj2 (Nat.ltb_lt _ _) (lookup_lt_Some _ _ _ Ha4)).
    assert (HA5 : (A <? length (<[a := CObj o']> h4))%nat = true).
    { apply Nat.ltb_lt. rewrite length_insert. eapply lookup_lt_Some, HA4. }
    rewrite HA5. fold h6. unfold save_array, bind, read_courses.
    assert (HA6 : h6 !! A = Some (CCourses (<[i := a]> locs))).
    { unfold h6. apply list_lookup_insert_eq. apply Nat.ltb_lt, HA5. }
    rewrite HA6. rewrite (list_insert_id _ _ _ Hi).
    rewrite (read_all_holds h6 locs (<[i := c']> cs)); [reflexivity|].
    apply (holds_after_update h2 h6 locs cs i a c' Hholds Hnd Hi).
    + intros b cb Hb Hcb.
      destruct (holds_course_obj _ _ _ Hcb) as (_ & _ & HnotA).
      assert (HbA : A <> b) by (intros ->; exact (HnotA _ HA)).
      unfold h6. apply holds_course_write; [exact HbA | | |].
      * intros l. rewrite list_lookup_insert_ne by exact HaA. congruence.
      * intros l. rewrite list_lookup_insert_ne by exact HaA. congruence.
      * apply holds_course_write; [congruence| | |].
        -- intros l. congruence.
        -- intros l. congruence.
        -- unfold h4. do 2 apply holds_course_app. exact Hcb.
    + unfold h6. apply holds_course_write; [congruence | | | exact Hnew].
      * intros l. rewrite list_lookup_insert_ne by exact HaA. congruence.
      * intros l. rewrite list_lookup_insert_ne by exact HaA. congruence.
  - intros b Hb Hba HbA. unfold h6, h4.
    rewrite !list_lookup_insert_ne by congruence.
    rewrite !lookup_app_l; [reflexivity|exact Hb|rewrite length_app; lia].
Qed.


(** The heap after [courses.push(newCourse)] holds the parsed list with
    the new course at its end. *)
Lemma push_save (h5 : list cell) (A N : nat) (locs : list nat)
    (cs : list Course) (c' : Course) (db : Db) :
  h5 !! A = Some (CCourses locs) ->
  Forall2 (holds_course h5) locs cs -> holds_course h5 N c' ->
  (let! _ := write A (CCourses (locs ++ [N])) in save_array A db) h5
  = Some (save_courses (cs ++ [c']) db, <[A := CCourses (locs ++ [N])]> h5).
Proof.
  intros HA Hholds HN.
  assert (Hlt : (A <? length h5)%nat = true).
  { apply Nat.ltb_lt. eapply lookup_lt_Some, HA. }
  unfold bind, write. rewrite Hlt. unfold save_array, bind, read_courses.
  rewrite list_lookup_insert_eq by (apply Nat.ltb_lt, Hlt).
  rewrite (read_all_holds _ (locs ++ [N]) (cs ++ [c'])); [reflexivity|].
  assert (Hkeep : forall b c, holds_course h5 b c ->
            holds_course (<[A := CCourses (locs ++ [N])]> h5) b c).
  { intros b c Hb. destruct (holds_course_obj _ _ _ Hb) as (_ & _ & HnotA).
    apply holds_course_write; [| | |exact Hb].
    - intros ->. exact (HnotA _ HA).
    - intros l. congruence.
    - intros l. congruence. }
  apply Forall2_app.
  - eapply Forall2_impl; [exact Hholds|]. intros b c. apply Hkeep.
  - constructor; [apply Hkeep; exact HN | constructor].
Qed.

Ltac old_cell :=
  repeat (rewrite lookup_app_l;
          [| repeat rewrite length_app; simpl; lia]).

Lemma toggle_refines (load_time : Z) (sys : nat) (courseId username : string)
    (db : Db) (h : list cell) :
  seeded load_time h sys ->
  exists h',
    ObjectHeap.toggleLikeCourse sys courseId username db h
    = Some (MockBackend.toggleLikeCourse load_time courseId username db, h')
    /\ untouched h h'.
Proof.
  intros (slocs & Hsys & Hseeds).
  unfold MockBackend.toggleLikeCourse, find_course.
  set (SYS := SYSTEM_COURSES load_time) in *. clearbody SYS.
  set (cs := default [] (stored_courses db)).
  destruct (new_courses_spec cs h) as (locs & ext & Hnew & Hholds & Hfresh & Hnd).
  unfold ObjectHeap.toggleLikeCourse, get_courses. fold cs.
  unfold bind at 1. unfold bind at 1. rewrite Hnew.
  unfold alloc at 1.
  set (A := length (h ++ ext)).
  set (h2 := (h ++ ext) ++ [CCourses locs]).
  assert (HA : h2 !! A = Some (CCourses locs)) by apply lookup_fresh.
  assert (Hholds2 : Forall2 (holds_course h2) locs cs).
  { eapply Forall2_impl; [exact Hholds|]. intros. apply holds_course_app.
    assumption. }
  assert (Hlen2 : (length h <= A)%nat /\ (A < length h2)%nat).
  { unfold A, h2. rewrite !length_app. simpl. lia. }
  unfold bind at 1. unfold read_courses at 1. rewrite HA.
  unfold bind at 1. rewrite (find_index_holds courseId h2 locs cs 0 Hholds2).
  destruct (list_find (fun c => id c = courseId) cs) as [[i c]|] eqn:Hfind.
  - (* the stored course is edited in place *)
    apply list_find_Some in Hfind as (Hci & _ & _).
    destruct (Forall2_lookup_r _ _ _ _ _ Hholds2 Hci) as (a & Hi & Hc).
    rewrite Hi. simpl.
    destruct Hc as (o & Ho & Hid & Hinfo & Hpub & Hl & Hk).
    unfold bind at 1. unfold read_obj at 1. rewrite Ho.
    destruct (or_empty_strings _ _ _ Hl) as (ll & ext3 & Hor & Hll).
    unfold bind at 1. rewrite Hor.
    unfold bind at 1. unfold read_strings at 1. rewrite Hll.
    unfold bind at 1. unfold alloc at 1.
    set (l := default [] (likes c)) in *.
    set (F := length (h2 ++ ext3)).
    set (c' := with_likes c (toggled l username)).
    destruct (inplace_update h2 ext3 A a i locs cs c' o (set_likes o F)
                (CStrings (toggled l username)) db HA Hholds2 Hnd Hi Ho)
      as (h' & Hrun & Hframe).
    { assert (Hlt : (a < length h2)%nat) by (eapply lookup_lt_Some, Ho).
      exists (set_likes o F). repeat split; try assumption.
      - apply list_lookup_insert_eq. rewrite !length_app. simpl. lia.
      - simpl. rewrite list_lookup_insert_ne by (unfold F; rewrite length_app; lia).
        apply lookup_fresh.
      - simpl. apply holds_opt_write.
        + intros y. old_cell. congruence.
        + do 2 apply holds_opt_app. exact Hk. }
    exists h'. split; [exact Hrun|].
    intros b Hb.
    assert (Hage : (length h <= a)%nat).
    { rewrite Forall_forall in Hfresh. apply Hfresh.
      eapply list_elem_of_lookup_2, Hi. }
    rewrite Hframe by lia. unfold h2. old_cell. reflexivity.
  - (* copy on write *)
    simpl.
    assert (Hsys2 : h2 !! sys = Some (CCourses slocs)).
    { unfold h2. apply lookup_lt_Some in Hsys as Hlt. old_cell. exact Hsys. }
    assert (Hseeds2 : Forall2 (holds_course h2) slocs SYS).
    { eapply Forall2_impl; [exact Hseeds|]. intros. unfold h2.
      do 2 apply holds_course_app. assumption. }
    unfold bind at 1. unfold read_courses at 1. rewrite Hsys2.
    unfold bind at 1.
    rewrite (find_index_holds courseId h2 slocs SYS 0 Hseeds2).
    rewrite find_list_find.
    destruct (list_find (fun c => id c = courseId) SYS) as [[j seed]|] eqn:Hsfind.
    + apply list_find_Some in Hsfind as (Hsj & _ & _).
      destruct (Forall2_lookup_r _ _ _ _ _ Hseeds2 Hsj) as (s & Hj & Hs).
      rewrite Hj. simpl.
      destruct Hs as (so & Hso & Hid & Hinfo & Hpub & Hl & Hk).
      unfold bind at 1. unfold read_obj at 1. rewrite Hso.
      destruct (or_empty_strings _ _ _ Hl) as (ll & ext3 & Hor & Hll).
      unfold bind at 1. rewrite Hor.
      unfold bind at 1. unfold read_strings at 1. rewrite Hll.
      set (l0 := default [] (likes seed)) in *.
      unfold bind at 1. unfold alloc at 1.
      unfold bind at 1. unfold alloc at 1.
      set (h3 := h2 ++ ext3) in *.
      set (C := length h3).
      set (N := length (h3 ++ [CStrings l0])).
      set (h4 := (h3 ++ [CStrings l0]) ++ [CObj (set_likes so C)]).
      assert (HC : h4 !! C = Some (CStrings l0)).
      { unfold h4. rewrite lookup_app_l by (rewrite length_app; simpl; unfold C; lia).
        apply lookup_fresh. }
      unfold bind at 1. unfold read_strings at 1. rewrite HC.
      unfold bind at 1. unfold alloc at 1.
      set (F := length h4).
      set (h4' := h4 ++ [CStrings (toggled l0 username)]).
      assert (HN : (N <? length h4')%nat = true).
      { apply Nat.ltb_lt. unfold h4', h4, N. rewrite !length_app. simpl. lia. }
      unfold bind at 1. unfold write at 1. rewrite HN.
      set (h5 := <[N := CObj (set_likes so F)]> h4').
      set (c' := with_likes (with_likes seed l0)
                   (toggled (default [] (likes (with_likes seed l0))) username)).
      assert (Hlens : (length h2 <= N)%nat /\ (N < F)%nat
                      /\ (F < length h4')%nat).
      { unfold h4', F, h4, N, h3. rewrite !length_app. simpl. lia. }
      assert (HNobj : h4' !! N = Some (CObj (set_likes so C))).
      { unfold h4', h4.
        rewrite lookup_app_l by (unfold N; rewrite !length_app; simpl; lia).
        unfold N. apply lookup_fresh. }
      rewrite (push_save h5 A N locs cs c' db).
      * eexists. split; [reflexivity|].
        intros b Hb. unfold h5, h4', h4, h3, h2.
        rewrite !list_lookup_insert_ne by lia. old_cell. reflexivity.
      * unfold h5. rewrite list_lookup_insert_ne by lia.
        unfold h4', h4, h3. old_cell. exact HA.
      * eapply Forall2_impl; [exact Hholds2|]. intros b cb Hb.
        unfold h5. apply holds_course_write.
        -- apply holds_course_lt in Hb. lia.
        -- intros y. rewrite HNobj. discriminate.
        -- intros y. rewrite HNobj. discriminate.
        -- unfold h4', h4, h3. do 4 apply holds_course_app. exact Hb.
      * exists (set_likes so F). unfold h5. repeat split; try assumption.
        -- apply list_lookup_insert_eq. apply Nat.ltb_lt, HN.
        -- simpl. rewrite list_lookup_insert_ne by lia. apply lookup_fresh.
        -- simpl. apply holds_opt_write.
           ++ intros y. rewrite HNobj. discriminate.
           ++ unfold h4', h4, h3. do 4 apply holds_opt_app. exact Hk.
    + simpl. exists h2. split; [reflexivity|].
      intros b Hb. unfold h2. old_cell. reflexivity.
Qed.


Lemma comment_refines (load_time : Z) (sys : nat) (courseId : string)
    (comment : Comment) (db : Db) (h : list cell) :
  seeded load_time h sys ->
  exists h',
    ObjectHeap.addCommentToCourse sys courseId comment db h
    = Some (MockBackend.addCommentToCourse load_time courseId comment db, h')
    /\ untouched h h'.
Proof.
  intros (slocs & Hsys & Hseeds).
  unfold MockBackend.addCommentToCourse, find_course.
  set (SYS := SYSTEM_COURSES load_time) in *. clearbody SYS.
  set (cs := default [] (stored_courses db)).
  destruct (new_courses_spec cs h) as (locs & ext & Hnew & Hholds & Hfresh & Hnd).
  unfold ObjectHeap.addCommentToCourse, get_courses. fold cs.
  unfold bind at 1. unfold bind at 1. rewrite Hnew.
  unfold alloc at 1.
  set (A := length (h ++ ext)).
  set (h2 := (h ++ ext) ++ [CCourses locs]).
  assert (HA : h2 !! A = Some (CCourses locs)) by apply lookup_fresh.
  assert (Hholds2 : Forall2 (holds_course h2) locs cs).
  { eapply Forall2_impl; [exact Hholds|]. intros. apply holds_course_app.
    assumption. }
  assert (Hlen2 : (length h <= A)%nat /\ (A < length h2)%nat).
  { unfold A, h2. rewrite !length_app. simpl. lia. }
  unfold bind at 1. unfold read_courses at 1. rewrite HA.
  unfold bind at 1. rewrite (find_index_holds courseId h2 locs cs 0 Hholds2).
  destruct (list_find (fun c => id c = courseId) cs) as [[i c]|] eqn:Hfind.
  - (* the stored course is edited in place *)
    apply list_find_Some in Hfind as (Hci & _ & _).
    destruct (Forall2_lookup_r _ _ _ _ _ Hholds2 Hci) as (a & Hi & Hc).
    rewrite Hi. simpl.
    destruct Hc as (o & Ho & Hid & Hinfo & Hpub & Hl & Hk).
    unfold bind at 1. unfold read_obj at 1. rewrite Ho.
    destruct (or_empty_comments _ _ _ Hk) as (ll & ext3 & Hor & Hll).
    unfold bind at 1. rewrite Hor.
    unfold bind at 1. unfold read_comments at 1. rewrite Hll.
    unfold bind at 1. unfold alloc at 1.
    set (l := default [] (comments c)) in *.
    set (F := length (h2 ++ ext3)).
    set (c' := with_comments c (comment :: l)).
    destruct (inplace_update h2 ext3 A a i locs cs c' o (set_comments o F)
                (CComments (comment :: l)) db HA Hholds2 Hnd Hi Ho)
      as (h' & Hrun & Hframe).
    { assert (Hlt : (a < length h2)%nat) by (eapply lookup_lt_Some, Ho).
      exists (set_comments o F). repeat split; try assumption.
      - apply list_lookup_insert_eq. rewrite !length_app. simpl. lia.
      - simpl. apply holds_opt_write.
        + intros y. old_cell. congruence.
        + do 2 apply holds_opt_app. exact Hl.
      - simpl. rewrite list_lookup_insert_ne by (unfold F; rewrite length_app; lia).
        apply lookup_fresh. }
    exists h'. split; [exact Hrun|].
    intros b Hb.
    assert (Hage : (length h <= a)%nat).
    { rewrite Forall_forall in Hfresh. apply Hfresh.
      eapply list_elem_of_lookup_2, Hi. }
    rewrite Hframe by lia. unfold h2. old_cell. reflexivity.
  - (* copy on write *)
    simpl.
    assert (Hsys2 : h2 !! sys = Some (CCourses slocs)).
    { unfold h2. apply lookup_lt_Some in Hsys as Hlt. old_cell. exact Hsys. }
    assert (Hseeds2 : Forall2 (holds_course h2) slocs SYS).
    { eapply Forall2_impl; [exact Hseeds|]. intros. unfold h2.
      do 2 apply holds_course_app. assumption. }
    unfold bind at 1. unfold read_courses at 1. rewrite Hsys2.
    unfold bind at 1.
    rewrite (find_index_holds courseId h2 slocs SYS 0 Hseeds2).
    rewrite find_list_find.
    destruct (list_find (fun c => id c = courseId) SYS) as [[j seed]|] eqn:Hsfind.
    + apply list_find_Some in Hsfind as (Hsj & _ & _).
      destruct (Forall2_lookup_r _ _ _ _ _ Hseeds2 Hsj) as (s & Hj & Hs).
      rewrite Hj. simpl.
      destruct Hs as (so & Hso & Hid & Hinfo & Hpub & Hl & Hk).
      unfold bind at 1. unfold read_obj at 1. rewrite Hso.
      destruct (or_empty_comments _ _ _ Hk) as (ll & ext3 & Hor & Hll).
      unfold bind at 1. rewrite Hor.
      unfold bind at 1. unfold read_comments at 1. rewrite Hll.
      set (l := default [] (comments seed)) in *.
      unfold bind at 1. unfold alloc at 1.
      unfold bind at 1. unfold alloc at 1.
      set (h3 := h2 ++ ext3) in *.
      set (F := length h3).
      set (N := length (h3 ++ [CComments (comment :: l)])).
      set (h5 := (h3 ++ [CComments (comment :: l)]) ++ [CObj (set_comments so F)]).
      set (c' := with_comments seed (comment :: l)).
      assert (Hlens : (length h2 <= F)%nat /\ (F < N)%nat
                      /\ (N < length h5)%nat).
      { unfold h5, N, F, h3. rewrite !length_app. simpl. lia. }
      rewrite (push_save h5 A N locs cs c' db).
      * eexists. split; [reflexivity|].
        intros b Hb. unfold h5, h3, h2.
        rewrite !list_lookup_insert_ne by lia. old_cell. reflexivity.
      * unfold h5, h3. old_cell. exact HA.
      * eapply Forall2_impl; [exact Hholds2|]. intros b cb Hb.
        unfold h5, h3. do 3 apply holds_course_app. exact Hb.
      * exists (set_comments so F). unfold h5. repeat split; try assumption.
        -- unfold N. apply lookup_fresh.
        -- simpl. unfold h3. do 3 apply holds_opt_app. exact Hl.
        -- simpl. rewrite lookup_app_l by (rewrite length_app; simpl; unfold F; lia).
           apply lookup_fresh.
    + simpl. exists h2. split; [reflexivity|].
      intros b Hb. unfold h2. old_cell. reflexivity.
Qed.

(** Loading the module seeds any heap. *)
Lemma load_module_seeded (load_time : Z) (h : list cell) :
  exists sys h', load_module load_time h = Some (sys, h')
    /\ seeded load_time h' sys /\ untouched h h'.
Proof.
  unfold load_module, bind.
  destruct (new_courses_spec (SYSTEM_COURSES load_time) h)
    as (locs & ext & Hnew & Hholds & _ & _).
  rewrite Hnew. eexists _, _. split; [reflexivity|]. split.
  - exists locs. split; [apply lookup_fresh|].
    eapply Forall2_impl; [exact Hholds|]. intros. apply holds_course_app.
    assumption.
  - intros b Hb. old_cell. reflexivity.
Qed.


Lemma holds_opt_untouched {A} (mk : A -> cell) (h h' : list cell)
    (a : option nat) (v : option A) :
  untouched h h' -> holds_opt mk h a v -> holds_opt mk h' a v.
Proof.
  intros Hu. destruct a as [a|], v as [x|]; simpl; try tauto. intros H.
  rewrite Hu; [exact H|]. eapply lookup_lt_Some, H.
Qed.

Lemma holds_course_untouched (h h' : list cell) (a : nat) (c : Course) :
  untouched h h' -> holds_course h a c -> holds_course h' a c.
Proof.
  intros Hu (o & Ho & Hid & Hinfo & Hpub & Hl & Hk). exists o.
  repeat split; try assumption;
    try (eapply holds_opt_untouched; eassumption).
  rewrite Hu; [exact Ho|]. eapply lookup_lt_Some, Ho.
Qed.

(** The seed is still what the module loaded. *)
Lemma seeded_untouched (load_time : Z) (h h' : list cell) (sys : nat) :
  untouched h h' -> seeded load_time h sys -> seeded load_time h' sys.
Proof.
  intros Hu (locs & Hsys & Hall). exists locs. split.
  - rewrite Hu; [exact Hsys|]. eapply lookup_lt_Some, Hsys.
  - eapply Forall2_impl; [exact Hall|]. intros a c.
    apply holds_course_untouched. exact Hu.
Qed.

End HeapFacts.

(** C2, as stated, fails on the second edit of a system course: once the
    copy of lumi-sys-quant-002 with alice's like is stored, bob's like is
    written into that stored copy; the list keeps its single course and no
    copy of the seed is appended. *)
Lemma C2_counterexample :
  exists sys h0 db1 h1 db2 h2 c1 c2,
    ObjectHeap.load_module 1700000000000 [] = Some (sys, h0)
    /\ ObjectHeap.toggleLikeCourse sys "lumi-sys-quant-002" "alice"
         (MockBackend.mkDb None None) h0 = Some (db1, h1)
    /\ MockBackend.stored_courses db1 = Some [c1]
    /\ ObjectHeap.toggleLikeCourse sys "lumi-sys-quant-002" "bob" db1 h1
       = Some (db2, h2)
    /\ MockBackend.stored_courses db2 = Some [c2]
    /\ MockBackend.likes c2 = Some ["curator"; "alice"; "bob"]
    /\ ~ (exists copy, MockBackend.stored_courses db2 = Some ([c1] ++ [copy])).
Proof.
  do 8 eexists.
  split; [vm_compute; reflexivity|].
  split; [vm_compute; reflexivity|].
  split; [reflexivity|].
  split; [vm_compute; reflexivity|].
  split; [reflexivity|].
  split; [reflexivity|].
  intros (copy & H). discriminate H.
Qed.

(** C2, amended. [toggleLikeCourse] and [addCommentToCourse] applied to
    the id of a system course never write to a cell that existed before the
    call, so the seed objects and their arrays stay as the module loaded
    them.  When no stored course has that id, a copy of the seed course
    with a fresh likes (comments) array is edited and appended to the stored
    list; when a stored course has it (an earlier copy), that stored course
    is edited in its place.  Every other stored course is unchanged. *)
Theorem C2_system_edits_leave_the_seed (load_time : Z) (sys : nat)
    (h : list ObjectHeap.cell) (db : MockBackend.Db)
    (courseId username : string) (comment : MockBackend.Comment)
    (seed : MockBackend.Course) :
  ObjectHeap.seeded load_time h sys ->
  find (fun c => bool_decide (MockBackend.id c = courseId))
    (MockBackend.SYSTEM_COURSES load_time) = Some seed ->
  let stored := default [] (MockBackend.stored_courses db) in
  (exists db' h',
     ObjectHeap.toggleLikeCourse sys courseId username db h = Some (db', h')
     /\ ObjectHeap.untouched h h'
     /\ ObjectHeap.seeded load_time h' sys
     /\ (MockBackend.find_course courseId stored = None ->
         MockBackend.stored_courses db'
         = Some (stored ++
                 [MockBackend.with_likes seed
                    (MockBackend.toggled (default [] (MockBackend.likes seed))
                       username)]))
     /\ (forall i c, MockBackend.find_course courseId stored = Some (i, c) ->
           MockBackend.stored_courses db'
           = Some (<[i := MockBackend.with_likes c
                       (MockBackend.toggled (default [] (MockBackend.likes c))
                          username)]> stored)))
  /\ (exists db' h',
       ObjectHeap.addCommentToCourse sys courseId comment db h = Some (db', h')
       /\ ObjectHeap.untouched h h'
       /\ ObjectHeap.seeded load_time h' sys
       /\ (MockBackend.find_course courseId stored = None ->
           MockBackend.stored_courses db'
           = Some (stored ++
                   [MockBackend.with_comments seed
                      (comment :: default [] (MockBackend.comments seed))]))
       /\ (forall i c, MockBackend.find_course courseId stored = Some (i, c) ->
             MockBackend.stored_courses db'
             = Some (<[i := MockBackend.with_comments c
                         (comment :: default [] (MockBackend.comments c))]>
                       stored))).
Proof.
  intros Hseeded Hseed stored. split.
  - destruct (toggle_refines load_time sys courseId username db h Hseeded)
      as (h' & Hrun & Hframe).
    eexists _, h'. split; [exact Hrun|]. split; [exact Hframe|].
    split; [eapply seeded_untouched; eassumption|].
    unfold MockBackend.toggleLikeCourse. fold stored. split.
    + intros Hnone. rewrite Hnone, Hseed. reflexivity.
    + intros i c Hsome. rewrite Hsome. reflexivity.
  - destruct (comment_refines load_time sys courseId comment db h Hseeded)
      as (h' & Hrun & Hframe).
    eexists _, h'. split; [exact Hrun|]. split; [exact Hframe|].
    split; [eapply seeded_untouched; eassumption|].
    unfold MockBackend.addCommentToCourse. fold stored. split.
    + intros Hnone. rewrite Hnone, Hseed. reflexivity.
    + intros i c Hsome. rewrite Hsome. reflexivity.
Qed.

(** On the freshly loaded module, alice likes lumi-sys-quant-002: the copy
    is appended and the heap the module loaded is as it was. *)
Lemma C2_witness :
  exists sys h0 db' h',
    ObjectHeap.load_module 0 [] = Some (sys, h0)
    /\ ObjectHeap.toggleLikeCourse sys "lumi-sys-quant-002" "alice"
         (MockBackend.mkDb None None) h0 = Some (db', h')
    /\ ObjectHeap.untouched h0 h'
    /\ length (default [] (MockBackend.stored_courses db')) = 1%nat.
Proof.
  destruct (load_module_seeded 0 []) as (sys & h0 & Hload & Hseeded & _).
  destruct (C2_system_edits_leave_the_seed 0 sys h0 (MockBackend.mkDb None None)
              "lumi-sys-quant-002" "alice"
              (MockBackend.mkComment "c-1" "alice" "Nice." 1)
              (MockBackend.mkCourse "lumi-sys-quant-002"
                 (MockBackend.mkInfo "Quantum Physics: Wave Mechanics" "Physics"
                    MockBackend.mixed "Undergraduate" "LUMI AI")
                 (Some true) (Some ["curator"]) (Some []))
              Hseeded eq_refl)
    as ((db' & h' & Hrun & Hframe & _ & Happend & _) & _).
  exists sys, h0, db', h'. repeat split; try assumption.
  rewrite Happend; reflexivity.
Defined.

(** * Further properties of the embedded code *)

(** ** Lookups in JavaScript objects *)

Section JsObjectFacts.
Import JsObject.

(** Off the names of [Object.prototype] a lookup reads the own
    properties only. *)
Lemma property_plain {A} (obj : gmap string A) (name : string) :
  name ∉ OBJECT_PROTOTYPE ->
  property obj name
  = match obj !! name with Some a => Own a | None => Undefined end.
Proof.
  intros Hname. unfold property. destruct (obj !! name); [reflexivity|].
  rewrite bool_decide_eq_false_2 by exact Hname. reflexivity.
Qed.


Lemma property_Own {A} (obj : gmap string A) (name : string) (a : A) :
  property obj name = Own a -> obj !! name = Some a.
Proof.
  unfold property. destruct (obj !! name); [congruence|].
  case_bool_decide; discriminate.
Qed.

Lemma insert_nonempty {A} (obj : gmap string A) (name : string) (a : A) :
  bool_decide (<[name := a]> obj = ∅) = false.
Proof. apply bool_decide_eq_false_2, insert_non_empty. Qed.

End JsObjectFacts.

(** ** CourseViewer: what the progression lets through *)

Section ViewerReach.
Import CourseViewer.

(** The stage shown is an unlocked one, and the Application stage is
    unlocked only behind a submitted quiz with a score of 60 or more. *)
Definition gated (s : State) : Prop :=
  level_num (currentLevel s) <= level_num (maxUnlockedLevel s)
  /\ (2 <= level_num (maxUnlockedLevel s) ->
      quizSubmitted s = true /\ jsnum_ge (quizScore s) (Num 60) = true).

Lemma unlockLevel_levels (l : Level) (s : State) :
  currentLevel (unlockLevel l s) = l
  /\ level_num (maxUnlockedLevel (unlockLevel l s))
     = Z.max (level_num l) (level_num (maxUnlockedLevel s))
  /\ quizSubmitted (unlockLevel l s) = quizSubmitted s
  /\ quizScore (unlockLevel l s) = quizScore s.
Proof.
  repeat split. rewrite unlockLevel_max.
  destruct (level_num l >? level_num (maxUnlockedLevel s)) eqn:E.
  - apply Z.gtb_lt in E. lia.
  - rewrite Z.gtb_ltb in E. apply Z.ltb_ge in E. lia.
Qed.

Lemma step_gated (p : Props) (s : State) (a : Action) :
  gated s -> gated (step p s a).
Proof.
  intros [Hcur Hquiz]. unfold step.
  destruct (enabled p s a) eqn:En; [|(split; [exact Hcur | exact Hquiz])].
  destruct a; cbn [handle enabled] in *.
  - (* a button of the progression bar *)
    rewrite En. unfold isUnlocked in En. apply Z.geb_le in En.
    split; [exact En | exact Hquiz].
  - (split; [exact Hcur | exact Hquiz]).
  - (split; [exact Hcur | exact Hquiz]).
  - (split; [exact Hcur | exact Hquiz]).
  - (* Take The Test *)
    unfold handleFinishFlashcards.
    destruct (unlockLevel_levels QUIZ s) as (Hc & Hm & Hs & Hq).
    unfold gated. rewrite Hc, Hm, Hs, Hq. simpl. split; [lia|].
    intros H. apply Hquiz. lia.
  - unfold handleQuizSelect. destruct (quizSubmitted s) eqn:Hsub.
    + split; [exact Hcur|]. rewrite Hsub. exact Hquiz.
    + split; [exact Hcur | exact Hquiz].
  - (* Submit Answers: rendered only before the quiz is submitted *)
    apply andb_true_iff in En as [_ En]. apply negb_true_iff in En.
    unfold submitQuiz. destruct (_ <? _)%nat.
    + (split; [exact Hcur | exact Hquiz]).
    + split; [exact Hcur|]. simpl. intros H.
      destruct (Hquiz H) as [Hsub _]. congruence.
  - (* Proceed to Praxis *)
    apply andb_true_iff in En as [En Hge].
    apply andb_true_iff in En as [_ Hsub].
    unfold handleFinishQuiz. rewrite Hge.
    destruct (unlockLevel_levels APPLICATION s) as (Hc & Hm & Hs & Hq).
    unfold gated. rewrite Hc, Hm, Hs, Hq. simpl. split; [lia|].
    intros _. split; [exact Hsub | exact Hge].
  - (* Unlock Deeper Wisdom *)
    apply andb_true_iff in En as [En _]. apply bool_decide_eq_true in En.
    unfold handleFinishApplication.
    destruct (unlockLevel_levels DEEP_DIVE s) as (Hc & Hm & Hs & Hq).
    unfold gated. rewrite Hc, Hm, Hs, Hq. simpl. split; [lia|].
    intros _. apply Hquiz. rewrite En in Hcur. simpl in Hcur. exact Hcur.
  - unfold handleFinishDeepDive.
    destruct (currentUser p) as [u|]; [destruct (String.eqb u "")|];
      (split; [exact Hcur | exact Hquiz]).
  - (split; [exact Hcur | exact Hquiz]).
  - (split; [exact Hcur | exact Hquiz]).
  - (split; [exact Hcur | exact Hquiz]).
  - (split; [exact Hcur | exact Hquiz]).
  - (split; [exact Hcur | exact Hquiz]).
  - (split; [exact Hcur | exact Hquiz]).
Qed.

Lemma run_gated (p : Props) (acts : list Action) (s : State) :
  gated s -> gated (run p s acts).
Proof.
  revert s. induction acts as [|a acts IH]; intros s H; simpl; [exact H|].
  apply IH, step_gated, H.
Qed.

Lemma initial_gated (p : Props) : gated (initial p).
Proof. split; simpl; lia. Qed.

(** After a quiz submitted below 60 nothing moves the score or the
    unlocked maximum any more. *)
Definition failed (score : jsnum) (s : State) : Prop :=
  quizSubmitted s = true /\ quizScore s = score
  /\ level_num (currentLevel s) <= 1 /\ level_num (maxUnlockedLevel s) <= 1.

Lemma step_failed (p : Props) (score : jsnum) (s : State) (a : Action) :
  jsnum_ge score (Num 60) = false -> failed score s -> failed score (step p s a).
Proof.
  intros Hlow (Hsub & Hsc & Hcur & Hmax). unfold step.
  destruct (enabled p s a) eqn:En; [|(split; [exact Hsub | split; [exact Hsc | split; [exact Hcur | exact Hmax]]])].
  destruct a; cbn [handle enabled] in *;
    try ((split; [exact Hsub | split; [exact Hsc | split; [exact Hcur | exact Hmax]]])).
  - rewrite En. unfold isUnlocked in En. apply Z.geb_le in En.
    repeat split; simpl; try assumption. lia.
  - unfold handleFinishFlashcards.
    destruct (unlockLevel_levels QUIZ s) as (Hc & Hm & Hs & Hq).
    unfold failed. rewrite Hc, Hm, Hs, Hq. simpl. repeat split; try assumption; lia.
  - unfold handleQuizSelect. rewrite Hsub. (split; [exact Hsub | split; [exact Hsc | split; [exact Hcur | exact Hmax]]]).
  - rewrite Hsub in En. rewrite andb_false_r in En. discriminate.
  - rewrite Hsc, Hlow in En. rewrite andb_false_r in En. discriminate.
  - apply andb_true_iff in En as [En _]. apply bool_decide_eq_true in En.
    rewrite En in Hcur. simpl in Hcur. lia.
  - apply andb_true_iff in En as [En _]. apply bool_decide_eq_true in En.
    rewrite En in Hcur. simpl in Hcur. lia.
Qed.

Lemma run_failed (p : Props) (score : jsnum) (acts : list Action) (s : State) :
  jsnum_ge score (Num 60) = false -> failed score s ->
  failed score (run p s acts).
Proof.
  intros Hlow. revert s. induction acts as [|a acts IH]; intros s H; simpl;
    [exact H|]. apply IH, step_failed; assumption.
Qed.

End ViewerReach.

(** X1. In every state the course viewer reaches from its initial state
    the stage on display is an unlocked one: [currentLevel] never exceeds
    [maxUnlockedLevel]. *)
Theorem viewer_shows_only_unlocked_stages (p : CourseViewer.Props)
    (acts : list CourseViewer.Action) :
  let s := CourseViewer.run p (CourseViewer.initial p) acts in
  CourseViewer.isUnlocked s (CourseViewer.currentLevel s) = true.
Proof.
  intros s. destruct (run_gated p acts _ (initial_gated p)) as [H _].
  unfold CourseViewer.isUnlocked. apply Z.geb_le. exact H.
Qed.

(** X2. However the viewer is driven from its initial state, the
    Application stage (and so the Deep Dive behind it) is unlocked only
    after the quiz was submitted with a score of at least 60. *)
Theorem viewer_praxis_needs_passed_quiz (p : CourseViewer.Props)
    (acts : list CourseViewer.Action) :
  let s := CourseViewer.run p (CourseViewer.initial p) acts in
  CourseViewer.isUnlocked s CourseViewer.APPLICATION = true ->
  CourseViewer.quizSubmitted s = true
  /\ jsnum_ge (CourseViewer.quizScore s) (Num 60) = true.
Proof.
  intros s Hun. destruct (run_gated p acts _ (initial_gated p)) as [_ H].
  apply H. unfold CourseViewer.isUnlocked in Hun. apply Z.geb_le in Hun.
  exact Hun.
Qed.

Lemma viewer_praxis_needs_passed_quiz_witness :
  let p := CourseViewer.mkProps 1
             [CourseViewer.mkQuestion "q" ["a"; "b"] 1] None in
  let s := CourseViewer.run p (CourseViewer.initial p)
             [CourseViewer.FinishFlashcards; CourseViewer.QuizSelect 0 1;
              CourseViewer.SubmitQuiz; CourseViewer.FinishQuiz;
              CourseViewer.FinishApplication] in
  CourseViewer.maxUnlockedLevel s = CourseViewer.DEEP_DIVE
  /\ jsnum_ge (CourseViewer.quizScore s) (Num 60) = true.
Proof.
  intros p s. split; [reflexivity|].
  apply (viewer_praxis_needs_passed_quiz p
           [CourseViewer.FinishFlashcards; CourseViewer.QuizSelect 0 1;
            CourseViewer.SubmitQuiz; CourseViewer.FinishQuiz;
            CourseViewer.FinishApplication]).
  reflexivity.
Defined.

(** X3. A quiz submitted with a score below 60 (or a score that is not a
    number) cannot be taken again: from then on no sequence of actions
    changes the score or unlocks the Application stage. *)
Theorem viewer_failed_quiz_is_final (p : CourseViewer.Props)
    (before after : list CourseViewer.Action) :
  let s := CourseViewer.run p (CourseViewer.initial p) before in
  let s' := CourseViewer.run p s after in
  CourseViewer.quizSubmitted s = true ->
  jsnum_ge (CourseViewer.quizScore s) (Num 60) = false ->
  CourseViewer.isUnlocked s' CourseViewer.APPLICATION = false
  /\ CourseViewer.quizScore s' = CourseViewer.quizScore s
  /\ CourseViewer.quizSubmitted s' = true.
Proof.
  intros s s' Hsub Hlow.
  destruct (run_gated p before _ (initial_gated p)) as [Hcur Hquiz].
  fold s in Hcur, Hquiz.
  assert (Hmax : CourseViewer.level_num (CourseViewer.maxUnlockedLevel s) <= 1).
  { destruct (Z_le_gt_dec 2 (CourseViewer.level_num
                               (CourseViewer.maxUnlockedLevel s))) as [H|H];
      [|lia]. destruct (Hquiz H) as [_ Hge]. congruence. }
  destruct (run_failed p (CourseViewer.quizScore s) after s Hlow)
    as (Hs & Hq & _ & Hm).
  { repeat split; try assumption; lia. }
  fold s' in Hs, Hq, Hm. split; [|split; assumption].
  unfold CourseViewer.isUnlocked. rewrite Z.geb_leb. apply Z.leb_gt.
  simpl. lia.
Qed.

Lemma viewer_failed_quiz_is_final_witness :
  let p := CourseViewer.mkProps 1
             [CourseViewer.mkQuestion "q" ["a"; "b"] 1] None in
  let before := [CourseViewer.FinishFlashcards; CourseViewer.QuizSelect 0 0;
                 CourseViewer.SubmitQuiz] in
  let after := [CourseViewer.FinishQuiz; CourseViewer.QuizSelect 0 1;
                CourseViewer.SubmitQuiz; CourseViewer.FinishQuiz;
                CourseViewer.ClickLevel CourseViewer.FLASHCARDS;
                CourseViewer.FinishFlashcards; CourseViewer.QuizSelect 0 1;
                CourseViewer.SubmitQuiz; CourseViewer.FinishQuiz] in
  CourseViewer.isUnlocked
    (CourseViewer.run p
       (CourseViewer.run p (CourseViewer.initial p) before) after)
    CourseViewer.APPLICATION = false.
Proof.
  intros p before after.
  apply (viewer_failed_quiz_is_final p before after); reflexivity.
Defined.

Section ViewerCards.
Import CourseViewer.

(** With no flashcards the card index is 0 or NaN, and the viewer is
    still at the first stage. *)
Definition no_cards (s : State) : Prop :=
  currentLevel s = FLASHCARDS /\ maxUnlockedLevel s = FLASHCARDS
  /\ (currentCard s = Some O \/ currentCard s = None).

Lemma step_no_cards (p : Props) (s : State) (a : Action) :
  flashcards p = O -> no_cards s -> no_cards (step p s a).
Proof.
  intros Hn (Hcur & Hmax & Hcard). unfold step.
  destruct (enabled p s a) eqn:En; [|repeat split; assumption].
  assert (Hlast : isLastCard p s = false).
  { unfold isLastCard. rewrite Hn. destruct Hcard as [-> | ->]; reflexivity. }
  destruct a; cbn [handle enabled] in *;
    rewrite ?Hcur, ?Hlast in En; simpl in En; try discriminate;
    try (split; [exact Hcur | split; [exact Hmax | exact Hcard]]).
  - rewrite En. unfold isUnlocked in En. rewrite Hmax in En.
    destruct l; try discriminate. split; [reflexivity|].
    split; [exact Hmax | exact Hcard].
  - unfold handleNextCard. rewrite Hn.
    split; [exact Hcur | split; [exact Hmax|]]. right.
    simpl. destruct (currentCard s); reflexivity.
  - unfold handlePrevCard. rewrite Hn.
    split; [exact Hcur | split; [exact Hmax|]]. right.
    simpl. destruct (currentCard s); reflexivity.
Qed.

Lemma run_no_cards (p : Props) (acts : list Action) (s : State) :
  flashcards p = O -> no_cards s -> no_cards (run p s acts).
Proof.
  intros Hn. revert s. induction acts as [|a acts IH]; intros s H; simpl;
    [exact H|]. apply IH, step_no_cards; assumption.
Qed.

(** With cards, the index is one of them. *)
Definition on_a_card (p : Props) (s : State) : Prop :=
  exists k, currentCard s = Some k /\ (k < flashcards p)%nat.

Lemma next_on_a_card (p : Props) (s : State) :
  on_a_card p s -> on_a_card p (handleNextCard p s).
Proof.
  intros (k & Hk & Hlt). unfold handleNextCard, on_a_card. rewrite Hk.
  destruct (flashcards p) as [|n] eqn:Hn; [lia|].
  exists ((k + 1) `mod` S n)%nat. split; [reflexivity|].
  apply Nat.mod_upper_bound. lia.
Qed.

Lemma prev_on_a_card (p : Props) (s : State) :
  on_a_card p s -> on_a_card p (handlePrevCard p s).
Proof.
  intros (k & Hk & Hlt). unfold handlePrevCard, on_a_card. rewrite Hk.
  destruct (flashcards p) as [|n] eqn:Hn; [lia|].
  exists (Z.to_nat ((Z.of_nat k - 1 + Z.of_nat (S n)) `mod` Z.of_nat (S n))).
  split; [reflexivity|].
  pose proof (Z.mod_pos_bound (Z.of_nat k - 1 + Z.of_nat (S n))
                (Z.of_nat (S n))). lia.
Qed.

Lemma step_on_a_card (p : Props) (s : State) (a : Action) :
  on_a_card p s -> on_a_card p (step p s a).
Proof.
  intros H. unfold step. destruct (enabled p s a); [|exact H].
  destruct a; cbn [handle];
    first [ apply next_on_a_card, H | apply prev_on_a_card, H | idtac ];
    try exact H.
  - destruct (isUnlocked s l); exact H.
  - unfold handleQuizSelect. destruct (quizSubmitted s); exact H.
  - unfold submitQuiz. destruct (_ <? _)%nat; exact H.
  - unfold handleFinishQuiz. destruct (jsnum_ge _ _); exact H.
  - unfold handleFinishDeepDive.
    destruct (currentUser p) as [u|]; [destruct (String.eqb u "")|]; exact H.
Qed.

Lemma run_on_a_card (p : Props) (acts : list Action) (s : State) :
  on_a_card p s -> on_a_card p (run p s acts).
Proof.
  revert s. induction acts as [|a acts IH]; intros s H; simpl; [exact H|].
  apply IH, step_on_a_card, H.
Qed.

End ViewerCards.

(** X4. A course without flashcards can never be left behind: the card
    index is 0 or, after a first Next or Previous, NaN, neither equals
    [flashcards.length - 1], so "Take The Test" is never offered and no
    sequence of actions unlocks the quiz. *)
Theorem viewer_empty_deck_never_unlocks (p : CourseViewer.Props)
    (acts : list CourseViewer.Action) :
  CourseViewer.flashcards p = O ->
  let s := CourseViewer.run p (CourseViewer.initial p) acts in
  CourseViewer.maxUnlockedLevel s = CourseViewer.FLASHCARDS
  /\ CourseViewer.currentLevel s = CourseViewer.FLASHCARDS
  /\ CourseViewer.isLastCard p s = false.
Proof.
  intros Hn s.
  destruct (run_no_cards p acts (CourseViewer.initial p) Hn)
    as (Hcur & Hmax & Hcard).
  { repeat split. left. reflexivity. }
  fold s in Hcur, Hmax, Hcard. repeat split; try assumption.
  unfold CourseViewer.isLastCard. rewrite Hn.
  destruct Hcard as [-> | ->]; reflexivity.
Qed.

Lemma viewer_empty_deck_never_unlocks_witness :
  let p := CourseViewer.mkProps 0 [] (Some "scholar") in
  CourseViewer.maxUnlockedLevel
    (CourseViewer.run p (CourseViewer.initial p)
       [CourseViewer.NextCard; CourseViewer.FinishFlashcards;
        CourseViewer.PrevCard; CourseViewer.ClickLevel CourseViewer.QUIZ])
  = CourseViewer.FLASHCARDS.
Proof.
  intros p.
  apply (viewer_empty_deck_never_unlocks p
           [CourseViewer.NextCard; CourseViewer.FinishFlashcards;
            CourseViewer.PrevCard; CourseViewer.ClickLevel CourseViewer.QUIZ]).
  reflexivity.
Defined.

(** X5. With at least one flashcard the card index always names a card,
    whatever the sequence of actions: Next and Previous wrap around modulo
    the number of cards. *)
Theorem viewer_card_index_in_range (p : CourseViewer.Props)
    (acts : list CourseViewer.Action) :
  (0 < CourseViewer.flashcards p)%nat ->
  exists k,
    CourseViewer.currentCard
      (CourseViewer.run p (CourseViewer.initial p) acts) = Some k
    /\ (k < CourseViewer.flashcards p)%nat.
Proof.
  intros Hn. apply run_on_a_card. exists O. split; [reflexivity | exact Hn].
Qed.

Lemma viewer_card_index_in_range_witness :
  exists k,
    CourseViewer.currentCard
      (CourseViewer.run (CourseViewer.mkProps 3 [] None)
         (CourseViewer.initial (CourseViewer.mkProps 3 [] None))
         [CourseViewer.PrevCard; CourseViewer.PrevCard]) = Some k
    /\ (k < 3)%nat.
Proof.
  apply (viewer_card_index_in_range (CourseViewer.mkProps 3 [] None)
           [CourseViewer.PrevCard; CourseViewer.PrevCard]).
  simpl. lia.
Defined.

Section CardArithmetic.

Lemma wrap_back (k N : nat) :
  (k < N)%nat ->
  Z.to_nat ((Z.of_nat ((k + 1) `mod` N) - 1 + Z.of_nat N) `mod` Z.of_nat N) = k.
Proof.
  intros Hlt. destruct (decide (k + 1 = N)%nat) as [E|E].
  - rewrite E, Nat.Div0.mod_same.
    assert (H : Z.of_nat 0 - 1 + Z.of_nat N = Z.of_nat k) by lia.
    rewrite H, Z.mod_small by lia. lia.
  - rewrite (Nat.mod_small (k + 1) N) by lia.
    assert (H : Z.of_nat (k + 1) - 1 + Z.of_nat N
                = Z.of_nat k + 1 * Z.of_nat N) by lia.
    rewrite H, Z.mod_add by lia. rewrite Z.mod_small by lia. lia.
Qed.

Lemma wrap_forth (k N : nat) :
  (k < N)%nat ->
  ((Z.to_nat ((Z.of_nat k - 1 + Z.of_nat N) `mod` Z.of_nat N) + 1) `mod` N)%nat
  = k.
Proof.
  intros Hlt. destruct (decide (k = O)) as [E|E].
  - subst k.
    assert (H : Z.of_nat 0 - 1 + Z.of_nat N = Z.of_nat N - 1) by lia.
    rewrite H, Z.mod_small by lia.
    assert (H' : (Z.to_nat (Z.of_nat N - 1) + 1)%nat = N) by lia.
    rewrite H'. apply Nat.Div0.mod_same.
  - assert (H : Z.of_nat k - 1 + Z.of_nat N
                = Z.of_nat k - 1 + 1 * Z.of_nat N) by lia.
    rewrite H, Z.mod_add by lia. rewrite Z.mod_small by lia.
    assert (H' : (Z.to_nat (Z.of_nat k - 1) + 1)%nat = k) by lia.
    rewrite H'. apply Nat.mod_small. exact Hlt.
Qed.

End CardArithmetic.

(** X6. On a card of the deck, Next followed by Previous, and Previous
    followed by Next, come back to the same card, the first and the last
    card included. *)
Theorem viewer_next_prev_roundtrip (p : CourseViewer.Props)
    (s : CourseViewer.State) (k : nat) :
  CourseViewer.currentCard s = Some k ->
  (k < CourseViewer.flashcards p)%nat ->
  CourseViewer.currentCard
    (CourseViewer.handlePrevCard p (CourseViewer.handleNextCard p s)) = Some k
  /\ CourseViewer.currentCard
       (CourseViewer.handleNextCard p (CourseViewer.handlePrevCard p s))
     = Some k.
Proof.
  intros Hk Hlt.
  pose proof (wrap_back k _ Hlt) as Hb. pose proof (wrap_forth k _ Hlt) as Hf.
  unfold CourseViewer.handlePrevCard, CourseViewer.handleNextCard.
  cbn [CourseViewer.currentCard CourseViewer.set_card]. rewrite Hk.
  destruct (CourseViewer.flashcards p) as [|n] eqn:Hn; [lia|].
  split; f_equal; assumption.
Qed.

Lemma viewer_next_prev_roundtrip_witness :
  let p := CourseViewer.mkProps 3 [] None in
  let s := CourseViewer.handlePrevCard p (CourseViewer.initial p) in
  CourseViewer.currentCard s = Some 2%nat
  /\ CourseViewer.currentCard
       (CourseViewer.handlePrevCard p (CourseViewer.handleNextCard p s))
     = Some 2%nat.
Proof.
  intros p s. split; [reflexivity|].
  apply (viewer_next_prev_roundtrip p s 2); [reflexivity | simpl; lia].
Defined.

Section ArrayFacts.

Lemma array_read_assign_eq {A} (arr : list (option A)) (i : nat) (x : A) :
  array_read (array_assign arr i x) i = Some x.
Proof.
  unfold array_read, array_assign.
  destruct (Nat.ltb_spec i (length arr)) as [H|H].
  - rewrite list_lookup_insert_eq by exact H. reflexivity.
  - rewrite lookup_app_r by exact H.
    rewrite lookup_app_r by (rewrite length_replicate; lia).
    rewrite length_replicate, Nat.sub_diag. reflexivity.
Qed.

Lemma array_read_assign_ne {A} (arr : list (option A)) (i j : nat) (x : A) :
  j <> i -> array_read (array_assign arr i x) j = array_read arr j.
Proof.
  intros Hne. unfold array_read, array_assign.
  destruct (Nat.ltb_spec i (length arr)) as [H|H].
  - rewrite list_lookup_insert_ne by congruence. reflexivity.
  - destruct (Nat.lt_ge_cases j (length arr)) as [Hj|Hj].
    + rewrite lookup_app_l by exact Hj. reflexivity.
    + rewrite lookup_app_r by exact Hj.
      rewrite (lookup_ge_None_2 arr j) by exact Hj.
      destruct (Nat.lt_ge_cases (j - length arr) (i - length arr)) as [Hh|Hh].
      * rewrite lookup_app_l by (rewrite length_replicate; exact Hh).
        rewrite lookup_replicate_2 by exact Hh. reflexivity.
      * rewrite lookup_app_r by (rewrite length_replicate; exact Hh).
        rewrite length_replicate.
        destruct (j - length arr - (i - length arr))%nat as [|d] eqn:Hd;
          [lia | reflexivity].
Qed.

Lemma array_assign_length {A} (arr : list (option A)) (i : nat) (x : A) :
  length (array_assign arr i x) = Nat.max (length arr) (S i).
Proof.
  unfold array_assign. destruct (Nat.ltb_spec i (length arr)) as [H|H].
  - rewrite length_insert. lia.
  - rewrite !length_app, length_replicate. simpl. lia.
Qed.

End ArrayFacts.

(** X7. Choosing an option before the quiz is submitted records it for
    that question and for no other: the answer read back at the question's
    index is the chosen option, every other index reads as before, and the
    array of answers grows to reach the index (the slots skipped are
    holes).  After the quiz is submitted a choice changes nothing. *)
Theorem viewer_quiz_choice_is_recorded (s : CourseViewer.State)
    (qIndex optionIndex : nat) :
  let s' := CourseViewer.handleQuizSelect qIndex optionIndex s in
  (CourseViewer.quizSubmitted s = false ->
   array_read (CourseViewer.quizAnswers s') qIndex
   = Some (Z.of_nat optionIndex)
   /\ (forall j, j <> qIndex ->
         array_read (CourseViewer.quizAnswers s') j
         = array_read (CourseViewer.quizAnswers s) j)
   /\ length (CourseViewer.quizAnswers s')
      = Nat.max (length (CourseViewer.quizAnswers s)) (S qIndex))
  /\ (CourseViewer.quizSubmitted s = true -> s' = s).
Proof.
  intros s'. subst s'. unfold CourseViewer.handleQuizSelect. split.
  - intros ->. simpl. split; [apply array_read_assign_eq|].
    split; [intros j Hj; apply array_read_assign_ne, Hj|].
    apply array_assign_length.
  - intros ->. reflexivity.
Qed.

Lemma viewer_quiz_choice_is_recorded_witness :
  let p := CourseViewer.mkProps 1
             [CourseViewer.mkQuestion "q0" ["a"; "b"] 0;
              CourseViewer.mkQuestion "q1" ["a"; "b"] 1;
              CourseViewer.mkQuestion "q2" ["a"; "b"] 1] None in
  let s' := CourseViewer.handleQuizSelect 2 1 (CourseViewer.initial p) in
  array_read (CourseViewer.quizAnswers s') 2 = Some 1
  /\ array_read (CourseViewer.quizAnswers s') 0 = None
  /\ length (CourseViewer.quizAnswers s') = 3%nat.
Proof.
  intros p s'.
  destruct (viewer_quiz_choice_is_recorded (CourseViewer.initial p) 2 1)
    as [H _].
  destruct H as (H1 & H2 & H3); [reflexivity|].
  split; [exact H1|]. split; [|exact H3].
  subst s'. rewrite (H2 O); [reflexivity | lia].
Defined.



(** ** The calculus tome: where the page can be *)

Section TomeReach.
Import Calculus.

(** The page was left only from the last step, answered right. *)
Definition finished_at_end (s : State) : Prop :=
  left_page s = true ->
  currentChapterIndex s = 2 /\ currentStepIndex s = 2 /\ feedback s = correct.

Ltac tome_cases ci si :=
  let Hci := fresh "Hci" in
  let Hsi := fresh "Hsi" in
  assert (Hci : ci = 0 \/ ci = 1 \/ ci = 2) by lia;
  assert (Hsi : si = 0 \/ si = 1 \/ si = 2) by lia;
  destruct Hci as [-> | [-> | ->]]; destruct Hsi as [-> | [-> | ->]].

Lemma step_finished (s : State) (a : Action) :
  in_range s -> finished_at_end s ->
  finished_at_end (step CALCULUS_CURRICULUM s a).
Proof.
  intros [Hc Hs] Hfin. unfold step.
  destruct (enabled CALCULUS_CURRICULUM s a) eqn:En; [|exact Hfin].
  assert (Hlp : left_page s = false).
  { unfold enabled in En. apply andb_true_iff in En as [En _].
    apply negb_true_iff in En. exact En. }
  destruct s as [ci si sl inp fb lp]. simpl in Hc, Hs, Hlp. subst lp.
  destruct a as [v| | | |v]; cbn [handle].
  - intros H. discriminate H.
  - tome_cases ci si; intros H; try discriminate H;
      unfold checkAnswer in H; simpl in H;
      destruct (ustring_eqb _ _) in H; discriminate H.
  - tome_cases ci si; intros H; try discriminate H.
    unfold enabled, next_disabled in En. simpl in En.
    destruct fb; try discriminate En. repeat split.
  - tome_cases ci si; intros H; discriminate H.
  - intros H. discriminate H.
Qed.

Lemma run_finished (acts : list Action) (s : State) :
  in_range s /\ answered s -> finished_at_end s ->
  finished_at_end (run CALCULUS_CURRICULUM s acts).
Proof.
  revert s. induction acts as [|a acts IH]; intros s H Hfin; simpl;
    [exact Hfin|].
  apply IH; [apply step_preserves, H | apply step_finished; tauto].
Qed.

Lemma reachable_in_range (acts : list Action) :
  in_range (run CALCULUS_CURRICULUM (initial CALCULUS_CURRICULUM) acts).
Proof. apply (run_preserves acts _ initial_ok). Qed.

End TomeReach.

(** X9. However the calculus page is driven from its initial state, the
    two indices always name a chapter of the curriculum and a step of that
    chapter: [CALCULUS_CURRICULUM[currentChapterIndex]] and
    [chapter.steps[currentStepIndex]] are never undefined. *)
Theorem tome_indices_name_a_step (acts : list Calculus.Action) :
  let cur := Calculus.CALCULUS_CURRICULUM in
  let s := Calculus.run cur (Calculus.initial cur) acts in
  exists ch st,
    Calculus.chapter_of cur s = Some ch
    /\ Calculus.step_of cur s = Some st
    /\ ch ∈ cur /\ st ∈ Calculus.steps ch.
Proof.
  intros cur s.
  destruct (in_range_step_of s (reachable_in_range acts)) as [st Hst].
  unfold Calculus.step_of in Hst.
  destruct (Calculus.chapter_of Calculus.CALCULUS_CURRICULUM s) as [ch|] eqn:Hch;
    [|discriminate].
  exists ch, st. unfold cur, Calculus.step_of. rewrite Hch.
  split; [reflexivity|]. split; [exact Hst|].
  split; eapply at_index_elem; eassumption.
Qed.

(** X10. Whenever an action moves the page to another step, the answer
    box is emptied, the feedback is back to neutral, and the slider stands
    at the default of the new step when it has one: an answer given before
    does not carry over, also when coming back to a step answered
    earlier. *)
Theorem tome_moving_resets_the_step (acts : list Calculus.Action)
    (a : Calculus.Action) :
  let cur := Calculus.CALCULUS_CURRICULUM in
  let s := Calculus.run cur (Calculus.initial cur) acts in
  let s' := Calculus.step cur s a in
  (Calculus.currentChapterIndex s' <> Calculus.currentChapterIndex s
   \/ Calculus.currentStepIndex s' <> Calculus.currentStepIndex s) ->
  Calculus.feedback s' = Calculus.neutral
  /\ Calculus.userInput s' = []
  /\ (forall st d, Calculus.step_of cur s' = Some st ->
        Calculus.slider_default st = Some d ->
        Calculus.sliderValue s' = d).
Proof.
  intros cur s s'. pose proof (reachable_in_range acts) as [Hc Hs].
  fold cur in Hc, Hs. fold s in Hc, Hs. subst s'. unfold Calculus.step.
  destruct (Calculus.enabled cur s a); [|intros [H|H]; congruence].
  destruct s as [ci si sl inp fb lp]. simpl in Hc, Hs.
  destruct a as [v| | | |v]; cbn [Calculus.handle].
  - simpl. intros [H|H]; congruence.
  - unfold Calculus.checkAnswer.
    destruct (Calculus.step_of _ _) as [st|]; [|simpl; intros [H|H]; congruence].
    destruct (Calculus.no_answer st); simpl; intros [H|H]; congruence.
  - assert (Hci : ci = 0 \/ ci = 1 \/ ci = 2) by lia.
    assert (Hsi : si = 0 \/ si = 1 \/ si = 2) by lia.
    destruct Hci as [-> | [-> | ->]]; destruct Hsi as [-> | [-> | ->]];
      simpl; intros [H|H]; try congruence;
      (split; [reflexivity | split; [reflexivity|]]);
      intros st d Hst Hd; injection Hst as <-; simpl in Hd;
      congruence.
  - assert (Hci : ci = 0 \/ ci = 1 \/ ci = 2) by lia.
    assert (Hsi : si = 0 \/ si = 1 \/ si = 2) by lia.
    destruct Hci as [-> | [-> | ->]]; destruct Hsi as [-> | [-> | ->]];
      simpl; intros [H|H]; try congruence;
      (split; [reflexivity | split; [reflexivity|]]);
      intros st d Hst Hd; injection Hst as <-; simpl in Hd;
      congruence.
  - simpl. intros [H|H]; congruence.
Qed.

Lemma tome_moving_resets_the_step_witness :
  let cur := Calculus.CALCULUS_CURRICULUM in
  let acts := [Calculus.Next; Calculus.Next;
               Calculus.SetInput (ustring_of "2.1"); Calculus.Check;
               Calculus.Next] in
  let s := Calculus.run cur (Calculus.initial cur) acts in
  let s' := Calculus.step cur s Calculus.Prev in
  Calculus.feedback s' = Calculus.neutral /\ Calculus.userInput s' = [].
Proof.
  intros cur acts s s'.
  destruct (tome_moving_resets_the_step acts Calculus.Prev) as (H1 & H2 & _).
  - left. vm_compute. intros H. discriminate H.
  - split; assumption.
Defined.

(** X11. The page is left ("You have mastered the introductory tome.")
    only from the last step of the last chapter with its question
    answered right, the text in the box being the answer 9 up to white
    space around it; and after that no action changes the state. *)
Theorem tome_is_left_only_at_the_end (acts : list Calculus.Action) :
  let cur := Calculus.CALCULUS_CURRICULUM in
  let s := Calculus.run cur (Calculus.initial cur) acts in
  Calculus.left_page s = true ->
  Calculus.currentChapterIndex s = 2
  /\ Calculus.currentStepIndex s = 2
  /\ Calculus.feedback s = Calculus.correct
  /\ trim (Calculus.userInput s) = ustring_of "9"
  /\ (forall a, Calculus.step cur s a = s).
Proof.
  intros cur s Hleft.
  destruct (run_preserves acts _ initial_ok) as [Hr Hans].
  pose proof (run_finished acts _ initial_ok) as Hfin.
  fold cur in Hr, Hans, Hfin. fold s in Hr, Hans, Hfin.
  destruct Hfin as (Hc & Hs & Hfb); [intros H; discriminate H | exact Hleft |].
  split; [exact Hc|]. split; [exact Hs|]. split; [exact Hfb|]. split.
  - destruct (Hans Hfb) as (st & ans & Hst & Ha & Htrim).
    unfold Calculus.step_of, Calculus.chapter_of in Hst.
    rewrite Hc, Hs in Hst. simpl in Hst. injection Hst as <-.
    simpl in Ha. injection Ha as <-. exact Htrim.
  - intros a. unfold Calculus.step, Calculus.enabled. rewrite Hleft.
    reflexivity.
Qed.

Lemma tome_is_left_only_at_the_end_witness :
  let cur := Calculus.CALCULUS_CURRICULUM in
  let acts := [Calculus.Next; Calculus.Next;
               Calculus.SetInput (ustring_of "2.1"); Calculus.Check;
               Calculus.Next; Calculus.Next; Calculus.Next;
               Calculus.SetInput (ustring_of "6"); Calculus.Check;
               Calculus.Next; Calculus.Next; Calculus.Next;
               Calculus.SetInput (ustring_of " 9"); Calculus.Check;
               Calculus.Next] in
  let s := Calculus.run cur (Calculus.initial cur) acts in
  Calculus.left_page s = true
  /\ trim (Calculus.userInput s) = ustring_of "9".
Proof.
  intros cur acts s. split; [reflexivity|].
  destruct (tome_is_left_only_at_the_end acts) as (_ & _ & _ & H & _);
    [reflexivity | exact H].
Defined.

(** X12. Away from the two ends of the tome the buttons undo each other
    as far as the position goes: Previous after Next, and Next after
    Previous, lead back to the same chapter and step, across chapter
    boundaries too. *)
Theorem tome_prev_and_next_are_inverse (acts : list Calculus.Action) :
  let cur := Calculus.CALCULUS_CURRICULUM in
  let s := Calculus.run cur (Calculus.initial cur) acts in
  let back := Calculus.handlePrev cur (Calculus.handleNext cur s) in
  let forth := Calculus.handleNext cur (Calculus.handlePrev cur s) in
  (~ (Calculus.currentChapterIndex s = 2 /\ Calculus.currentStepIndex s = 2) ->
   Calculus.currentChapterIndex back = Calculus.currentChapterIndex s
   /\ Calculus.currentStepIndex back = Calculus.currentStepIndex s)
  /\ (~ (Calculus.currentChapterIndex s = 0 /\ Calculus.currentStepIndex s = 0) ->
      Calculus.currentChapterIndex forth = Calculus.currentChapterIndex s
      /\ Calculus.currentStepIndex forth = Calculus.currentStepIndex s).
Proof.
  intros cur s back forth. pose proof (reachable_in_range acts) as [Hc Hs].
  fold cur in Hc, Hs. fold s in Hc, Hs. subst back forth.
  destruct s as [ci si sl inp fb lp]. simpl in Hc, Hs.
  assert (Hci : ci = 0 \/ ci = 1 \/ ci = 2) by lia.
  assert (Hsi : si = 0 \/ si = 1 \/ si = 2) by lia.
  destruct Hci as [-> | [-> | ->]]; destruct Hsi as [-> | [-> | ->]];
    (split; intros H; simpl; first [split; reflexivity | exfalso; apply H; split; reflexivity]).
Qed.

Lemma tome_prev_and_next_are_inverse_witness :
  let cur := Calculus.CALCULUS_CURRICULUM in
  let s := Calculus.run cur (Calculus.initial cur)
             [Calculus.Next; Calculus.Next] in
  Calculus.currentChapterIndex
    (Calculus.handlePrev cur (Calculus.handleNext cur s)) = 0
  /\ Calculus.currentStepIndex
       (Calculus.handlePrev cur (Calculus.handleNext cur s)) = 2.
Proof.
  intros cur s.
  destruct (tome_prev_and_next_are_inverse [Calculus.Next; Calculus.Next])
    as [H _].
  apply H. simpl. lia.
Defined.

(** ** The [db] wrapper: keys do not interfere *)

(** X13. [db.save] under one key leaves what [db.get] reads under every
    other key as it was, and a second [db.save] under the same key
    replaces the first: the value read back is the one saved last,
    whatever the key held before. *)
Theorem db_save_touches_one_key (key other : string) (v w : Json.json)
    (store : gmap string string) :
  (other <> key ->
   LocalDb.db_get other (LocalDb.db_save key v store)
   = LocalDb.db_get other store)
  /\ LocalDb.db_get key (LocalDb.db_save key w (LocalDb.db_save key v store))
     = w.
Proof.
  split.
  - intros Hne. unfold LocalDb.db_get, LocalDb.db_save, LocalDb.get,
      LocalDb.save, LocalDb.getItem, LocalDb.setItem.
    rewrite lookup_insert_ne by congruence. reflexivity.
  - unfold LocalDb.db_get, LocalDb.db_save.
    apply get_save_roundtrip; [apply parse_stringify | reflexivity].
Qed.

Lemma db_save_touches_one_key_witness :
  LocalDb.db_get "lumi_db_courses"
    (LocalDb.db_save "lumi_db_history" (Json.JObject [])
       {["lumi_db_courses" := "[]"]})
  = Json.JArray [].
Proof.
  destruct (db_save_touches_one_key "lumi_db_history" "lumi_db_courses"
              (Json.JObject []) Json.JNull {["lumi_db_courses" := "[]"]})
    as [H _].
  rewrite H; [reflexivity | discriminate].
Defined.

(** ** The mock backend: the stored course list *)

Section CourseListFacts.
Import MockBackend.

Lemma find_course_id (courseId : string) (courses : list Course)
    (i : nat) (c : Course) :
  find_course courseId courses = Some (i, c) ->
  courses !! i = Some c /\ id c = courseId.
Proof.
  unfold find_course. intros H.
  apply list_find_Some in H as (Hi & Hc & _). split; assumption.
Qed.

Lemma find_course_None (courseId : string) (courses : list Course) :
  find_course courseId courses = None -> courseId ∉ map id courses.
Proof.
  unfold find_course. intros H Hin.
  apply list_elem_of_In, in_map_iff in Hin as (c & Hid & Hc).
  apply list_elem_of_In in Hc.
  rewrite list_find_None, Forall_forall in H. exact (H c Hc Hid).
Qed.

Lemma find_course_snoc (courses : list Course) (c : Course) :
  find_course (id c) courses = None ->
  find_course (id c) (courses ++ [c]) = Some (length courses, c).
Proof.
  unfold find_course. intros H. rewrite list_find_app_r by exact H.
  simpl. rewrite decide_True by reflexivity. reflexivity.
Qed.

(** Replacing a course by one with the same id keeps the ids. *)
Lemma ids_insert (courses : list Course) (i : nat) (c c' : Course) :
  courses !! i = Some c -> id c' = id c ->
  map id (<[i := c']> courses) = map id courses.
Proof.
  intros Hi Hid. change (map id) with (fmap (M := list) id).
  rewrite list_fmap_insert, Hid. apply list_insert_id.
  rewrite list_lookup_fmap, Hi. reflexivity.
Qed.

Lemma ids_snoc (courses : list Course) (c : Course) :
  NoDup (map id courses) -> id c ∉ map id courses ->
  NoDup (map id (courses ++ [c])).
Proof.
  intros Hnd Hnew. rewrite map_app. apply NoDup_app. split; [exact Hnd|].
  split; [|apply NoDup_singleton].
  intros x Hx Hx'. simpl in Hx'. apply list_elem_of_singleton in Hx'.
  subst x. contradiction.
Qed.

Lemma find_system_id (load_time : Z) (courseId : string) (c : Course) :
  find (fun c => bool_decide (id c = courseId)) (SYSTEM_COURSES load_time)
  = Some c -> id c = courseId.
Proof.
  intros H. apply find_some in H as [_ H]. apply bool_decide_eq_true in H.
  exact H.
Qed.

(** The filter of [getCourses] does not see a course with a system id
    replaced or appended. *)
Lemma filter_insert_hidden {A} (P : A -> Prop) `{!forall x, Decision (P x)}
    (l : list A) (i : nat) (x y : A) :
  l !! i = Some x -> ~ P x -> ~ P y ->
  filter P (<[i := y]> l) = filter P l.
Proof.
  revert i. induction l as [|z l IH]; intros i Hi Hx Hy; [discriminate|].
  destruct i as [|i]; simpl in *.
  - injection Hi as ->. rewrite !filter_cons.
    rewrite !decide_False by assumption. reflexivity.
  - rewrite !filter_cons. rewrite (IH i Hi Hx Hy). reflexivity.
Qed.

Lemma filter_snoc_hidden {A} (P : A -> Prop) `{!forall x, Decision (P x)}
    (l : list A) (y : A) :
  ~ P y -> filter P (l ++ [y]) = filter P l.
Proof.
  intros Hy. rewrite filter_app, filter_cons, decide_False by exact Hy.
  rewrite filter_nil. apply app_nil_r.
Qed.

Lemma getCourses_stored (load_time : Z) (db db' : Db) :
  filter (fun c => is_system_id (id c) = false) (default [] (stored_courses db'))
  = filter (fun c => is_system_id (id c) = false)
      (default [] (stored_courses db)) ->
  getCourses load_time db' = getCourses load_time db.
Proof. intros H. unfold getCourses. rewrite H. reflexivity. Qed.

End CourseListFacts.

(** X14. [saveCourse] is an insert-or-replace keyed by the course id:
    afterwards the first stored course with that id is the saved one, every
    other position of the list is as before, the list keeps its length when
    the id was stored already and grows by the saved course at its end
    otherwise, the history is untouched, and saving the same course again
    changes nothing. *)
Theorem saveCourse_inserts_or_replaces (course : MockBackend.Course)
    (db : MockBackend.Db) :
  let db' := MockBackend.saveCourse course db in
  let old := default [] (MockBackend.stored_courses db) in
  let new := default [] (MockBackend.stored_courses db') in
  exists i,
    MockBackend.find_course (MockBackend.id course) new = Some (i, course)
    /\ (forall j, j <> i -> new !! j = old !! j)
    /\ ((i < length old)%nat -> length new = length old)
    /\ ((length old <= i)%nat -> new = old ++ [course])
    /\ MockBackend.stored_history db' = MockBackend.stored_history db
    /\ MockBackend.saveCourse course db' = db'.
Proof.
  intros db' old new. subst db' new. unfold MockBackend.saveCourse. fold old.
  destruct (MockBackend.find_course (MockBackend.id course) old)
    as [[i c0]|] eqn:Hfind.
  - destruct (find_course_id _ _ _ _ Hfind) as [Hi Hid].
    assert (Hlt : (i < length old)%nat) by (eapply lookup_lt_Some, Hi).
    assert (Hnew : MockBackend.find_course (MockBackend.id course)
                     (<[i := course]> old) = Some (i, course)).
    { apply (find_course_insert _ _ _ c0); [exact Hfind | congruence]. }
    exists i. simpl. split; [exact Hnew|].
    split; [intros j Hj; apply list_lookup_insert_ne; congruence|].
    split; [intros _; apply length_insert|].
    split; [intros H; lia|]. split; [reflexivity|].
    rewrite Hnew. unfold MockBackend.save_courses. simpl.
    rewrite list_insert_insert_eq. reflexivity.
  - assert (Hnew : MockBackend.find_course (MockBackend.id course)
                     (old ++ [course]) = Some (length old, course))
      by (apply find_course_snoc, Hfind).
    exists (length old). simpl. split; [exact Hnew|].
    split.
    { intros j Hj. destruct (Nat.lt_ge_cases j (length old)) as [H|H].
      - apply lookup_app_l, H.
      - rewrite lookup_app_r by exact H.
        rewrite (lookup_ge_None_2 old j) by exact H.
        destruct (j - length old)%nat as [|d] eqn:Hd; [lia | reflexivity]. }
    split; [intros H; lia|]. split; [reflexivity|]. split; [reflexivity|].
    rewrite Hnew. unfold MockBackend.save_courses. simpl.
    rewrite list_insert_id; [reflexivity|].
    rewrite lookup_app_r, Nat.sub_diag by lia. reflexivity.
Qed.

(** X15. The three operations that write the stored course list,
    [saveCourse], [toggleLikeCourse] and [addCommentToCourse], keep its ids
    pairwise distinct: a list without two courses of one id stays so, so
    from the empty store on no id is ever stored twice. *)
Theorem stored_course_ids_stay_distinct (load_time : Z)
    (db : MockBackend.Db) :
  let ids d := map MockBackend.id (default [] (MockBackend.stored_courses d)) in
  NoDup (ids db) ->
  (forall course, NoDup (ids (MockBackend.saveCourse course db)))
  /\ (forall courseId username,
        NoDup (ids (MockBackend.toggleLikeCourse load_time courseId username db)))
  /\ (forall courseId comment,
        NoDup (ids (MockBackend.addCommentToCourse load_time courseId comment db))).
Proof.
  intros ids Hnd. subst ids. simpl in *.
  set (old := default [] (MockBackend.stored_courses db)) in *.
  split; [|split].
  - intros course. unfold MockBackend.saveCourse. fold old.
    destruct (MockBackend.find_course (MockBackend.id course) old)
      as [[i c0]|] eqn:Hfind; simpl.
    + destruct (find_course_id _ _ _ _ Hfind) as [Hi Hid].
      rewrite (ids_insert old i c0 course Hi) by congruence. exact Hnd.
    + apply ids_snoc; [exact Hnd | apply find_course_None, Hfind].
  - intros courseId username. unfold MockBackend.toggleLikeCourse. fold old.
    destruct (MockBackend.find_course courseId old) as [[i c0]|] eqn:Hfind.
    + destruct (find_course_id _ _ _ _ Hfind) as [Hi Hid]. simpl.
      rewrite (ids_insert old i c0) by (first [exact Hi | reflexivity]).
      exact Hnd.
    + destruct (find (fun c => bool_decide (MockBackend.id c = courseId))
                  (MockBackend.SYSTEM_COURSES load_time)) as [sys|] eqn:Hs;
        [|exact Hnd].
      apply find_system_id in Hs. simpl.
      apply ids_snoc; [exact Hnd|]. simpl.
      rewrite Hs. apply find_course_None, Hfind.
  - intros courseId comment. unfold MockBackend.addCommentToCourse. fold old.
    destruct (MockBackend.find_course courseId old) as [[i c0]|] eqn:Hfind.
    + destruct (find_course_id _ _ _ _ Hfind) as [Hi Hid]. simpl.
      rewrite (ids_insert old i c0) by (first [exact Hi | reflexivity]).
      exact Hnd.
    + destruct (find (fun c => bool_decide (MockBackend.id c = courseId))
                  (MockBackend.SYSTEM_COURSES load_time)) as [sys|] eqn:Hs;
        [|exact Hnd].
      apply find_system_id in Hs. simpl.
      apply ids_snoc; [exact Hnd|]. simpl.
      rewrite Hs. apply find_course_None, Hfind.
Qed.

Lemma stored_course_ids_stay_distinct_witness :
  NoDup (map MockBackend.id
           (default []
              (MockBackend.stored_courses
                 (MockBackend.toggleLikeCourse 0 "lumi-sys-calc-001" "alice"
                    (MockBackend.mkDb None None))))).
Proof.
  destruct (stored_course_ids_stay_distinct 0 (MockBackend.mkDb None None))
    as (_ & H & _); [apply NoDup_nil; exact I | apply H].
Defined.

(** X16. A like on a stored course whose id is not a system id is read
    back: when the first stored course with the id did not have the user's
    like, [getCourses] after [toggleLikeCourse] returns a course with that
    id whose likes include the user. *)
Theorem user_course_like_is_visible (load_time : Z)
    (courseId username : string) (db : MockBackend.Db) (i : nat)
    (c : MockBackend.Course) :
  MockBackend.find_course courseId (default [] (MockBackend.stored_courses db))
  = Some (i, c) ->
  MockBackend.is_system_id courseId = false ->
  username ∉ default [] (MockBackend.likes c) ->
  exists c',
    c' ∈ MockBackend.getCourses load_time
           (MockBackend.toggleLikeCourse load_time courseId username db)
    /\ MockBackend.id c' = courseId
    /\ MockBackend.likes c'
       = Some (default [] (MockBackend.likes c) ++ [username])
    /\ MockBackend.info c' = MockBackend.info c
    /\ MockBackend.comments c' = MockBackend.comments c
    /\ MockBackend.isPublic c' = MockBackend.isPublic c.
Proof.
  intros Hfind Hsys Hnew.
  destruct (find_course_id _ _ _ _ Hfind) as [Hi Hid].
  exists (MockBackend.with_likes c
            (MockBackend.toggled (default [] (MockBackend.likes c)) username)).
  split; [|split; [|split; [|repeat split]]].
  - unfold MockBackend.getCourses. apply elem_of_app. right.
    rewrite (toggle_stored load_time _ _ _ _ _ Hfind). simpl.
    apply list_elem_of_filter. split.
    + simpl. rewrite Hid. exact Hsys.
    + apply (list_elem_of_lookup_2 _ i), list_lookup_insert_eq.
      eapply lookup_lt_Some, Hi.
  - exact Hid.
  - simpl. unfold MockBackend.toggled.
    rewrite bool_decide_eq_false_2 by exact Hnew. reflexivity.
Qed.

Lemma user_course_like_is_visible_witness :
  let course := MockBackend.mkCourse "course-1700000000000"
                  (MockBackend.mkInfo "Knots" "Mathematics"
                     MockBackend.flashcard "Graduate" "bob")
                  (Some true) (Some ["bob"]) (Some []) in
  let db := MockBackend.mkDb (Some [course]) None in
  exists c',
    c' ∈ MockBackend.getCourses 0
           (MockBackend.toggleLikeCourse 0 "course-1700000000000" "alice" db)
    /\ MockBackend.likes c' = Some ["bob"; "alice"].
Proof.
  intros course db.
  destruct (user_course_like_is_visible 0 "course-1700000000000" "alice" db
              0 course) as (c' & Hin & _ & Hl & _).
  - reflexivity.
  - reflexivity.
  - simpl. intros H. apply list_elem_of_singleton in H. discriminate H.
  - exists c'. split; [exact Hin | exact Hl].
Defined.

(** X17. Nothing written under a system id is ever read: [saveCourse] of
    a course whose id starts with lumi-sys- (a customised copy of a seed
    course) and [addCommentToCourse] on such an id leave the result of
    [getCourses], and so of [getPublicCourses], exactly as it was. *)
Theorem system_id_writes_are_never_read (load_time : Z)
    (db : MockBackend.Db) :
  (forall course,
     MockBackend.is_system_id (MockBackend.id course) = true ->
     MockBackend.getCourses load_time (MockBackend.saveCourse course db)
     = MockBackend.getCourses load_time db
     /\ MockBackend.getPublicCourses load_time
          (MockBackend.saveCourse course db)
        = MockBackend.getPublicCourses load_time db)
  /\ (forall courseId comment,
        MockBackend.is_system_id courseId = true ->
        MockBackend.getCourses load_time
          (MockBackend.addCommentToCourse load_time courseId comment db)
        = MockBackend.getCourses load_time db
        /\ MockBackend.getPublicCourses load_time
             (MockBackend.addCommentToCourse load_time courseId comment db)
           = MockBackend.getPublicCourses load_time db).
Proof.
  set (old := default [] (MockBackend.stored_courses db)).
  assert (Hhide : forall c : MockBackend.Course,
            MockBackend.is_system_id (MockBackend.id c) = true ->
            ~ (MockBackend.is_system_id (MockBackend.id c) = false))
    by (intros c H; congruence).
  split.
  - intros course Hsys.
    assert (H : MockBackend.getCourses load_time
                  (MockBackend.saveCourse course db)
                = MockBackend.getCourses load_time db).
    { apply getCourses_stored. unfold MockBackend.saveCourse. fold old.
      destruct (MockBackend.find_course (MockBackend.id course) old)
        as [[i c0]|] eqn:Hfind; simpl.
      - destruct (find_course_id _ _ _ _ Hfind) as [Hi Hid].
        apply (filter_insert_hidden _ old i c0 course Hi); apply Hhide;
          congruence.
      - apply filter_snoc_hidden, Hhide, Hsys. }
    split; [exact H|]. unfold MockBackend.getPublicCourses. rewrite H.
    reflexivity.
  - intros courseId comment Hsys.
    assert (H : MockBackend.getCourses load_time
                  (MockBackend.addCommentToCourse load_time courseId comment db)
                = MockBackend.getCourses load_time db).
    { apply getCourses_stored. unfold MockBackend.addCommentToCourse. fold old.
      destruct (MockBackend.find_course courseId old) as [[i c0]|] eqn:Hfind.
      - destruct (find_course_id _ _ _ _ Hfind) as [Hi Hid]. simpl.
        apply (filter_insert_hidden _ old i c0 _ Hi); apply Hhide; simpl;
          congruence.
      - destruct (find (fun c => bool_decide (MockBackend.id c = courseId))
                    (MockBackend.SYSTEM_COURSES load_time))
          as [sys|] eqn:Hs; [|reflexivity].
        apply find_system_id in Hs. simpl.
        apply filter_snoc_hidden, Hhide. simpl.
        rewrite Hs. exact Hsys. }
    split; [exact H|]. unfold MockBackend.getPublicCourses. rewrite H.
    reflexivity.
Qed.

Lemma system_id_writes_are_never_read_witness :
  let custom := MockBackend.mkCourse "lumi-sys-eng-mod1"
                  (MockBackend.mkInfo "Module 1: Partial Derivatives"
                     "Engineering" MockBackend.flashcard "Undergraduate"
                     "LUMI AI")
                  None None None in
  MockBackend.getCourses 0
    (MockBackend.saveCourse custom (MockBackend.mkDb None None))
  = MockBackend.getCourses 0 (MockBackend.mkDb None None).
Proof.
  intros custom.
  destruct (system_id_writes_are_never_read 0 (MockBackend.mkDb None None))
    as [H _].
  apply (H custom). reflexivity.
Defined.

(** X18. [getPublicCourses] returns exactly the six seed courses, each
    normalized to public with its likes and comments defaulted, and the
    stored courses that have no system id and whose [isPublic] is true: a
    stored course that is private or lacks the field is never listed, and
    no stored state removes a seed course. *)
Theorem public_courses_are_seed_or_public (load_time : Z)
    (db : MockBackend.Db) (c : MockBackend.Course) :
  c ∈ MockBackend.getPublicCourses load_time db
  <-> (exists seed, seed ∈ MockBackend.SYSTEM_COURSES load_time
         /\ c = MockBackend.mkCourse (MockBackend.id seed)
                  (MockBackend.info seed) (Some true)
                  (Some (default [] (MockBackend.likes seed)))
                  (Some (default [] (MockBackend.comments seed))))
      \/ (c ∈ default [] (MockBackend.stored_courses db)
          /\ MockBackend.is_system_id (MockBackend.id c) = false
          /\ MockBackend.isPublic c = Some true).
Proof.
  unfold MockBackend.getPublicCourses, MockBackend.getCourses.
  rewrite list_elem_of_filter, elem_of_app, list_elem_of_filter. split.
  - intros [Hpub [Hin|[Hsys Hin]]].
    + left. apply list_elem_of_In, in_map_iff in Hin as (seed & <- & Hin).
      exists seed. split; [apply list_elem_of_In, Hin | reflexivity].
    + right. repeat split; assumption.
  - intros [(seed & Hin & ->)|(Hin & Hsys & Hpub)].
    + split; [reflexivity|]. left. apply list_elem_of_In, in_map_iff.
      exists seed. split; [reflexivity | apply list_elem_of_In, Hin].
    + split; [exact Hpub|]. right. split; assumption.
Qed.

(** X19. On a stored course, [addCommentToCourse] puts the comment in
    front of the comments of that course and changes nothing else: the
    likes and the other fields of the course, the other courses, the length
    of the list and the history stay; two comments in a row end up newest
    first. *)
Theorem comment_is_prepended (load_time : Z) (courseId : string)
    (first second : MockBackend.Comment) (db : MockBackend.Db) (i : nat)
    (c : MockBackend.Course) :
  MockBackend.find_course courseId (default [] (MockBackend.stored_courses db))
  = Some (i, c) ->
  let once := MockBackend.addCommentToCourse load_time courseId first db in
  let twice := MockBackend.addCommentToCourse load_time courseId second once in
  let old := default [] (MockBackend.stored_courses db) in
  default [] (MockBackend.stored_courses once)
  = <[i := MockBackend.with_comments c
             (first :: default [] (MockBackend.comments c))]> old
  /\ default [] (MockBackend.stored_courses twice)
     = <[i := MockBackend.with_comments c
               (second :: first :: default [] (MockBackend.comments c))]> old
  /\ MockBackend.stored_history twice = MockBackend.stored_history db
  /\ MockBackend.likes
       (MockBackend.with_comments c
          (second :: first :: default [] (MockBackend.comments c)))
     = MockBackend.likes c.
Proof.
  intros Hfind once twice old.
  destruct (find_course_id _ _ _ _ Hfind) as [Hi Hid].
  assert (Honce : MockBackend.stored_courses once
                  = Some (<[i := MockBackend.with_comments c
                             (first :: default [] (MockBackend.comments c))]> old)).
  { unfold once, MockBackend.addCommentToCourse. rewrite Hfind.
    reflexivity. }
  assert (Hfind1 : MockBackend.find_course courseId
                     (default [] (MockBackend.stored_courses once))
                   = Some (i, MockBackend.with_comments c
                                (first :: default [] (MockBackend.comments c)))).
  { rewrite Honce. simpl. apply (find_course_insert _ _ _ c); [exact Hfind|].
    reflexivity. }
  split; [rewrite Honce; reflexivity|]. split; [|split; [|reflexivity]].
  - unfold twice, MockBackend.addCommentToCourse at 1. rewrite Hfind1.
    rewrite Honce. simpl. rewrite list_insert_insert_eq. reflexivity.
  - unfold twice, MockBackend.addCommentToCourse at 1. rewrite Hfind1.
    simpl. unfold once, MockBackend.addCommentToCourse.
    rewrite Hfind. reflexivity.
Qed.

Lemma comment_is_prepended_witness :
  let course := MockBackend.mkCourse "course-1700000000000"
                  (MockBackend.mkInfo "Knots" "Mathematics"
                     MockBackend.flashcard "Graduate" "bob")
                  (Some true) (Some ["bob"]) None in
  let c1 := MockBackend.mkComment "c-1" "alice" "Clear." 1 in
  let c2 := MockBackend.mkComment "c-2" "bob" "Thanks." 2 in
  let db := MockBackend.mkDb (Some [course]) None in
  default []
    (MockBackend.stored_courses
       (MockBackend.addCommentToCourse 0 "course-1700000000000" c2
          (MockBackend.addCommentToCourse 0 "course-1700000000000" c1 db)))
  = [MockBackend.with_comments course [c2; c1]].
Proof.
  intros course c1 c2 db.
  destruct (comment_is_prepended 0 "course-1700000000000" c1 c2 db 0 course)
    as (_ & H & _); [reflexivity|].
  rewrite H. reflexivity.
Defined.

(** ** The mock backend: archives *)

Section ArchiveFacts.
Import JsObject Archives.

Lemma indexOf_Some (x : string) (arr : list string) (i : nat) :
  indexOf x arr = Some i ->
  arr !! i = Some x /\ (forall j, (j < i)%nat -> arr !! j <> Some x).
Proof.
  unfold indexOf. destruct (list_find _ arr) as [[k y]|] eqn:H; [|discriminate].
  simpl. intros [= <-]. apply list_find_Some in H as (Hk & -> & Hbefore).
  split; [exact Hk|]. intros j Hj Hx. exact (Hbefore j x Hx Hj eq_refl).
Qed.

Lemma indexOf_None (x : string) (arr : list string) :
  indexOf x arr = None -> x ∉ arr.
Proof.
  unfold indexOf. destruct (list_find _ arr) as [[k y]|] eqn:H; [discriminate|].
  intros _ Hin. rewrite list_find_None, Forall_forall in H.
  exact (H x Hin eq_refl).
Qed.

Lemma indexOf_snoc (x : string) (arr : list string) :
  x ∉ arr -> indexOf x (arr ++ [x]) = Some (length arr).
Proof.
  intros Hx. unfold indexOf. rewrite list_find_app_r.
  - simpl. rewrite decide_True by reflexivity. reflexivity.
  - apply list_find_None, Forall_forall. intros y Hy ->. contradiction.
Qed.

(** Without duplicates, deleting the position of [x] deletes [x]. *)
Lemma elem_of_delete_NoDup (arr : list string) (i : nat) (x y : string) :
  NoDup arr -> arr !! i = Some x ->
  (y ∈ delete i arr <-> y ∈ arr /\ y <> x).
Proof.
  intros Hnd Hi.
  pose proof (take_drop_middle arr i x Hi) as Hsplit.
  rewrite delete_take_drop. rewrite <- Hsplit in Hnd.
  apply NoDup_app in Hnd as (_ & Hcross & Hnd).
  apply NoDup_cons in Hnd as [Hx _].
  rewrite <- Hsplit at 3. rewrite !elem_of_app, elem_of_cons. split.
  - intros [H|H].
    + split; [left; exact H|]. intros ->. apply (Hcross x H). left.
    + split; [right; right; exact H|]. intros ->. contradiction.
  - intros [[H|[H|H]] Hne]; [left; exact H | contradiction | right; exact H].
Qed.

Lemma NoDup_delete (arr : list string) (i : nat) :
  NoDup arr -> NoDup (delete i arr).
Proof. intros H. eapply sublist_NoDup; [exact H | apply sublist_delete]. Qed.

Definition ids_of (username : string)
    (stored : option (gmap string (list string))) : list string :=
  default [] (default ∅ stored !! username).

Definition toggled (courseId : string) (ids : list string) : list string :=
  match indexOf courseId ids with
  | Some index => delete index ids
  | None => ids ++ [courseId]
  end.

Lemma getUserArchives_plain (username : string)
    (stored : option (gmap string (list string))) :
  username ∉ OBJECT_PROTOTYPE ->
  getUserArchives username stored = Some (ids_of username stored).
Proof.
  intros Hname. unfold getUserArchives, ids_of.
  rewrite (property_plain _ _ Hname).
  destruct (default ∅ stored !! username); reflexivity.
Qed.

Lemma toggleArchive_plain (username courseId : string)
    (stored : option (gmap string (list string))) :
  username ∉ OBJECT_PROTOTYPE ->
  toggleArchive username courseId stored
  = Saved (<[username := toggled courseId (ids_of username stored)]>
             (default ∅ stored)).
Proof.
  intros Hname. unfold toggleArchive, ids_of, toggled.
  rewrite (property_plain _ _ Hname).
  destruct (default ∅ stored !! username); reflexivity.
Qed.

Lemma ids_of_insert (username other : string) (ids : list string)
    (archives : gmap string (list string)) :
  ids_of other (Some (<[username := ids]> archives))
  = if decide (other = username) then ids else ids_of other (Some archives).
Proof.
  unfold ids_of. simpl. destruct (decide (other = username)) as [->|Hne].
  - rewrite lookup_insert_eq. reflexivity.
  - rewrite lookup_insert_ne by congruence. reflexivity.
Qed.

Lemma archive_toggled_flips (courseId : string) (ids : list string) :
  NoDup ids ->
  NoDup (toggled courseId ids)
  /\ (courseId ∈ toggled courseId ids <-> courseId ∉ ids)
  /\ (forall c, c <> courseId -> (c ∈ toggled courseId ids <-> c ∈ ids)).
Proof.
  intros Hnd. unfold toggled.
  destruct (indexOf courseId ids) as [i|] eqn:Hidx.
  - destruct (indexOf_Some _ _ _ Hidx) as [Hi _].
    assert (Hin : courseId ∈ ids) by (eapply list_elem_of_lookup_2, Hi).
    split; [apply NoDup_delete, Hnd|]. split.
    + rewrite (elem_of_delete_NoDup ids i courseId courseId Hnd Hi). tauto.
    + intros c Hc.
      rewrite (elem_of_delete_NoDup ids i courseId c Hnd Hi). tauto.
  - pose proof (indexOf_None _ _ Hidx) as Hno. split.
    { apply NoDup_app. split; [exact Hnd|].
      split; [|apply NoDup_singleton].
      intros x Hx Hx'. apply list_elem_of_singleton in Hx'. subst x.
      contradiction. }
    split.
    + rewrite elem_of_app, list_elem_of_singleton. tauto.
    + intros c Hc. rewrite elem_of_app, list_elem_of_singleton. tauto.
Qed.

Lemma archive_toggled_twice (courseId : string) (ids : list string) :
  courseId ∉ ids ->
  toggled courseId ids = ids ++ [courseId]
  /\ toggled courseId (ids ++ [courseId]) = ids.
Proof.
  intros Hno. unfold toggled at 1 2.
  assert (Hnone : indexOf courseId ids = None).
  { destruct (indexOf courseId ids) as [i|] eqn:Hidx; [|reflexivity].
    destruct (indexOf_Some _ _ _ Hidx) as [Hi _].
    exfalso. apply Hno. eapply list_elem_of_lookup_2, Hi. }
  rewrite Hnone. split; [reflexivity|].
  rewrite (indexOf_snoc _ _ Hno).
  rewrite delete_take_drop, take_app_length.
  rewrite drop_app_ge by lia.
  replace (S (length ids) - length ids)%nat with 1%nat by lia.
  simpl. apply app_nil_r.
Qed.

End ArchiveFacts.

(** X20. [toggleArchive] flips one course in one user's archive.  For a
    user name that [Object.prototype] does not define, the call saves, and
    [getUserArchives] reads a list before and after it.  While that list
    has no duplicates (it has none from the empty store on, and the
    operation keeps it so), afterwards the course is archived exactly if
    it was not before and every other course is archived exactly if it
    was; the archives of the other users are untouched.  A course that was
    not archived is appended, and a second toggle restores the list
    exactly. *)
Theorem archive_toggle_flips_one_course (username courseId : string)
    (stored : option (gmap string (list string))) :
  username ∉ JsObject.OBJECT_PROTOTYPE ->
  exists before once after,
    Archives.getUserArchives username stored = Some before
    /\ Archives.toggleArchive username courseId stored = Archives.Saved once
    /\ Archives.getUserArchives username (Some once) = Some after
    /\ (NoDup before ->
        NoDup after
        /\ (courseId ∈ after <-> courseId ∉ before)
        /\ (forall c, c <> courseId -> (c ∈ after <-> c ∈ before)))
    /\ (forall other, other <> username ->
          Archives.getUserArchives other (Some once)
          = Archives.getUserArchives other stored)
    /\ (courseId ∉ before ->
        after = before ++ [courseId]
        /\ exists twice,
             Archives.toggleArchive username courseId (Some once)
             = Archives.Saved twice
             /\ Archives.getUserArchives username (Some twice) = Some before).
Proof.
  intros Hname.
  set (before := ids_of username stored).
  set (once := <[username := toggled courseId before]> (default ∅ stored)).
  exists before, once, (toggled courseId before).
  assert (Hread : ids_of username (Some once) = toggled courseId before).
  { unfold once. rewrite ids_of_insert, decide_True by reflexivity.
    reflexivity. }
  split; [apply getUserArchives_plain, Hname|].
  split; [apply toggleArchive_plain, Hname|].
  split; [rewrite (getUserArchives_plain _ _ Hname), Hread; reflexivity|].
  split; [apply archive_toggled_flips|]. split.
  - intros other Hne. unfold Archives.getUserArchives, once. simpl.
    unfold JsObject.property. rewrite lookup_insert_ne by congruence.
    reflexivity.
  - intros Hno. destruct (archive_toggled_twice _ _ Hno) as [Hone Htwo].
    split; [exact Hone|].
    eexists. split; [apply toggleArchive_plain, Hname|].
    rewrite (getUserArchives_plain _ _ Hname).
    rewrite ids_of_insert, decide_True by reflexivity.
    rewrite Hread, Hone, Htwo. reflexivity.
Qed.

Lemma archive_toggle_flips_one_course_witness :
  let stored := Some {["scholar" := ["lumi-sys-calc-001"; "course-17"]]} in
  exists once,
    Archives.toggleArchive "scholar" "lumi-sys-calc-001" stored
    = Archives.Saved once
    /\ Archives.getUserArchives "scholar" (Some once) = Some ["course-17"].
Proof.
  intros stored.
  destruct (archive_toggle_flips_one_course "scholar" "lumi-sys-calc-001"
              stored)
    as (before & once & after & Hb & Hsave & Ha & _).
  - vm_compute. intros H. repeat (apply elem_of_cons in H as [H|H];
      [discriminate H|]). inversion H.
  - exists once. split; [exact Hsave|].
    unfold stored in Hsave. injection Hsave as <-. reflexivity.
Defined.

(** ** Base64 and the audio helpers *)

Section Base64Facts.
Import Base64.
Local Open Scope N_scope.

Ltac euclid := zify; Z.to_euclidean_division_equations; lia.

(** Induction over a list three elements at a time. *)
Lemma list_ind3 {A} (P : list A -> Prop) :
  P [] -> (forall a, P [a]) -> (forall a b, P [a; b]) ->
  (forall a b c l, P l -> P (a :: b :: c :: l)) ->
  forall l, P l.
Proof.
  intros H0 H1 H2 H3.
  assert (H : forall l, P l /\ (forall a, P (a :: l))
                        /\ (forall a b, P (a :: b :: l))).
  { induction l as [|x l (IH0 & IH1 & IH2)].
    - repeat split; auto.
    - repeat split; auto. }
  intros l. apply H.
Qed.

Lemma unit_of_sextet (n : N) : n < 64 -> unit_sextet (sextet_unit n) = Some n.
Proof.
  intros Hn. unfold sextet_unit.
  destruct (N.ltb_spec n 26) as [H26|H26].
  { unfold unit_sextet.
    replace ((65 <=? 65 + n) && (65 + n <=? 90))%bool with true
      by (symmetry; apply andb_true_iff; split; apply N.leb_le; lia).
    f_equal. lia. }
  destruct (N.ltb_spec n 52) as [H52|H52].
  { unfold unit_sextet.
    replace ((65 <=? 97 + (n - 26)) && (97 + (n - 26) <=? 90))%bool with false
      by (symmetry; apply andb_false_iff; right; apply N.leb_gt; lia).
    replace ((97 <=? 97 + (n - 26)) && (97 + (n - 26) <=? 122))%bool with true
      by (symmetry; apply andb_true_iff; split; apply N.leb_le; lia).
    f_equal. lia. }
  destruct (N.ltb_spec n 62) as [H62|H62].
  { unfold unit_sextet.
    replace ((65 <=? 48 + (n - 52)) && (48 + (n - 52) <=? 90))%bool with false
      by (symmetry; apply andb_false_iff; left; apply N.leb_gt; lia).
    replace ((97 <=? 48 + (n - 52)) && (48 + (n - 52) <=? 122))%bool with false
      by (symmetry; apply andb_false_iff; left; apply N.leb_gt; lia).
    replace ((48 <=? 48 + (n - 52)) && (48 + (n - 52) <=? 57))%bool with true
      by (symmetry; apply andb_true_iff; split; apply N.leb_le; lia).
    f_equal. lia. }
  destruct (N.eqb_spec n 62) as [->|Hne]; [reflexivity|].
  assert (n = 63) as -> by lia. reflexivity.
Qed.

(** A character of the alphabet is neither [=] nor white space. *)
Lemma sextet_unit_plain (n : N) :
  n < 64 ->
  sextet_unit n <> 61 /\ is_ascii_whitespace (sextet_unit n) = false
  /\ sextet_unit n <= 255.
Proof.
  intros Hn. unfold sextet_unit, is_ascii_whitespace.
  destruct (N.ltb_spec n 26); [|destruct (N.ltb_spec n 52);
    [|destruct (N.ltb_spec n 62); [|destruct (N.eqb_spec n 62)]]];
    (split; [lia|]); (split; [|lia]);
    repeat (apply orb_false_iff; split); apply N.eqb_neq; lia.
Qed.

Lemma sextets_small (bs : list N) :
  Forall (fun b => b <= 255) bs -> Forall (fun s => s < 64) (sextets bs).
Proof.
  induction bs as [| a | a b | a b c l IH] using list_ind3; intros H.
  - constructor.
  - apply Forall_cons in H as [Ha _]. simpl.
    repeat (apply Forall_cons; split); [euclid | euclid | constructor].
  - apply Forall_cons in H as [Ha H]. apply Forall_cons in H as [Hb _].
    simpl.
    repeat (apply Forall_cons; split); [euclid | euclid | euclid | constructor].
  - apply Forall_cons in H as [Ha H]. apply Forall_cons in H as [Hb H].
    apply Forall_cons in H as [Hc H]. cbn [sextets].
    repeat (apply Forall_cons; split); [euclid | euclid | euclid | euclid |].
    apply IH, H.
Qed.

Lemma octets_sextets (bs : list N) :
  Forall (fun b => b <= 255) bs -> octets (sextets bs) = bs.
Proof.
  induction bs as [| a | a b | a b c l IH] using list_ind3; intros H.
  - reflexivity.
  - apply Forall_cons in H as [Ha _]. simpl. f_equal. euclid.
  - apply Forall_cons in H as [Ha H]. apply Forall_cons in H as [Hb _].
    simpl. f_equal; [euclid|]. f_equal. euclid.
  - apply Forall_cons in H as [Ha H]. apply Forall_cons in H as [Hb H].
    apply Forall_cons in H as [Hc H]. cbn [sextets octets].
    rewrite (IH H). f_equal; [euclid|]. f_equal; [euclid|]. f_equal. euclid.
Qed.

(** How many sextets: [4k], [4k+2] or [4k+3] for [3k], [3k+1] or [3k+2]
    octets. *)
Lemma sextets_count (bs : list N) :
  exists k,
    (length bs = 3 * k /\ length (sextets bs) = 4 * k)%nat
    \/ (length bs = 3 * k + 1 /\ length (sextets bs) = 4 * k + 2)%nat
    \/ (length bs = 3 * k + 2 /\ length (sextets bs) = 4 * k + 3)%nat.
Proof.
  induction bs as [| a | a b | a b c l (k & IH)] using list_ind3.
  - exists O. left. split; reflexivity.
  - exists O. right. left. split; reflexivity.
  - exists O. right. right. split; reflexivity.
  - exists (S k). cbn [sextets length]. lia.
Qed.

Lemma mapM_unit_sextet (ss : list N) :
  Forall (fun s => s < 64) ss ->
  mapM unit_sextet (map sextet_unit ss) = Some ss.
Proof.
  induction 1 as [|s ss Hs _ IH]; [reflexivity|].
  cbn [map mapM]. rewrite (unit_of_sextet s Hs). simpl.
  change (mapM unit_sextet (map sextet_unit ss)) with
    (mapM unit_sextet (map sextet_unit ss)).
  rewrite IH. reflexivity.
Qed.

Lemma filter_plain (ss : list N) :
  Forall (fun s => s < 64) ss ->
  filter (fun u => is_ascii_whitespace u = false) (map sextet_unit ss)
  = map sextet_unit ss.
Proof.
  induction 1 as [|s ss Hs _ IH]; [reflexivity|].
  cbn [map]. rewrite filter_cons, IH.
  destruct (sextet_unit_plain s Hs) as (_ & Hw & _).
  rewrite decide_True by exact Hw. reflexivity.
Qed.

Lemma last_unit_plain (ss : list N) (u : N) (r : list N) :
  Forall (fun s => s < 64) ss ->
  rev (map sextet_unit ss) = u :: r -> (u =? 61) = false.
Proof.
  intros Hss Hrev.
  assert (Hin : In u (map sextet_unit ss)).
  { apply in_rev. rewrite Hrev. left. reflexivity. }
  apply in_map_iff in Hin as (s & <- & Hin).
  apply list_elem_of_In in Hin. rewrite Forall_forall in Hss.
  destruct (sextet_unit_plain s (Hss s Hin)) as (Hne & _).
  apply N.eqb_neq, Hne.
Qed.

(** The padding comes off, and nothing else. *)
Lemma strip_padding_encode (bs : list N) :
  Forall (fun b => b <= 255) bs ->
  strip_padding (encode bs) = map sextet_unit (sextets bs)
  /\ (length (map sextet_unit (sextets bs)) mod 4 =? 1)%nat = false
  /\ (length (encode bs) = 4 * ((length bs + 2) / 3))%nat.
Proof.
  intros Hbs. pose proof (sextets_small bs Hbs) as Hss.
  set (xs := map sextet_unit (sextets bs)).
  assert (Hxs : length xs = length (sextets bs)) by apply length_map.
  destruct (sextets_count bs) as (k & [[Hb Hs]|[[Hb Hs]|[Hb Hs]]]);
    unfold encode, padding; fold xs; rewrite Hb; rewrite Hs in Hxs.
  - replace ((3 * k) mod 3)%nat with O
      by (apply (Nat.mod_unique _ _ k); lia).
    rewrite app_nil_r. unfold strip_padding. rewrite Hxs.
    replace ((4 * k) mod 4)%nat with O
      by (apply (Nat.mod_unique _ _ k); lia).
    replace ((3 * k + 2) / 3)%nat with k
      by (apply (Nat.div_unique _ _ k 2); lia).
    split; [|split; [reflexivity | lia]].
    cbn [Nat.eqb].
    destruct (rev xs) as [|u [|v r]] eqn:Hrev; [reflexivity | |];
      rewrite (last_unit_plain _ _ _ Hss Hrev); reflexivity.
  - replace ((3 * k + 1) mod 3)%nat with 1%nat
      by (apply (Nat.mod_unique _ _ k); lia).
    unfold strip_padding. rewrite length_app, Hxs. cbn [length].
    replace ((4 * k + 2 + 2) mod 4)%nat with O
      by (apply (Nat.mod_unique _ _ (S k)); lia).
    replace ((4 * k + 2) mod 4)%nat with 2%nat
      by (apply (Nat.mod_unique _ _ k); lia).
    replace ((3 * k + 1 + 2) / 3)%nat with (S k)
      by (apply (Nat.div_unique _ _ (S k) 0); lia).
    rewrite rev_app_distr. cbn [rev app Nat.eqb]. cbn [N.eqb Pos.eqb].
    rewrite rev_involutive.
    split; [reflexivity|]. split; [reflexivity | lia].
  - replace ((3 * k + 2) mod 3)%nat with 2%nat
      by (apply (Nat.mod_unique _ _ k); lia).
    unfold strip_padding. rewrite length_app, Hxs. cbn [length].
    replace ((4 * k + 3 + 1) mod 4)%nat with O
      by (apply (Nat.mod_unique _ _ (S k)); lia).
    replace ((4 * k + 3) mod 4)%nat with 3%nat
      by (apply (Nat.mod_unique _ _ k); lia).
    replace ((3 * k + 2 + 2) / 3)%nat with (S k)
      by (apply (Nat.div_unique _ _ (S k) 1); lia).
    rewrite rev_app_distr. change (rev [61]) with [61]. cbn [app Nat.eqb].
    destruct (rev xs) as [|v r] eqn:Hrev.
    { apply (f_equal (@length N)) in Hrev.
      rewrite length_rev, Hxs in Hrev. simpl in Hrev. lia. }
    cbn [N.eqb Pos.eqb].
    rewrite (last_unit_plain _ _ _ Hss Hrev).
    rewrite <- Hrev, rev_involutive.
    split; [reflexivity|]. split; [reflexivity | lia].
Qed.

Lemma filter_encode (bs : list N) :
  Forall (fun b => b <= 255) bs ->
  filter (B := list N) (fun u => is_ascii_whitespace u = false) (encode bs)
  = encode bs.
Proof.
  intros Hbs. unfold encode. rewrite filter_app.
  rewrite (filter_plain _ (sextets_small bs Hbs)). f_equal.
  unfold padding. destruct (length bs mod 3)%nat as [|[|[|n]]]; reflexivity.
Qed.

Lemma atob_encode (bs : list N) :
  Forall (fun b => b <= 255) bs -> atob (encode bs) = Some bs.
Proof.
  intros Hbs. unfold atob. rewrite (filter_encode bs Hbs).
  destruct (strip_padding_encode bs Hbs) as (-> & -> & _).
  rewrite (mapM_unit_sextet _ (sextets_small bs Hbs)). simpl.
  rewrite (octets_sextets bs Hbs). reflexivity.
Qed.

Lemma bytes_small (bytes : list Byte.byte) :
  Forall (fun b => b <= 255) (map Byte.to_N bytes).
Proof.
  induction bytes as [|b bytes IH]; [constructor|].
  constructor; [apply Byte.to_N_bounded | exact IH].
Qed.

Lemma to_uint8_byte (bytes : list Byte.byte) :
  map Audio.to_uint8 (map Byte.to_N bytes) = bytes.
Proof.
  induction bytes as [|b bytes IH]; [reflexivity|].
  cbn [map]. rewrite IH. f_equal. unfold Audio.to_uint8.
  pose proof (Byte.to_N_bounded b).
  rewrite N.mod_small by lia. rewrite Byte.of_to_N. reflexivity.
Qed.

Lemma encode_units (bs : list N) :
  Forall (fun b => b <= 255) bs ->
  Forall (fun u => unit_sextet u <> None \/ u = 61) (encode bs).
Proof.
  intros Hbs. unfold encode. apply Forall_app. split.
  - pose proof (sextets_small bs Hbs) as Hss.
    induction Hss as [|s ss Hs _ IH]; [constructor|].
    cbn [map]. constructor; [|exact IH]. left.
    rewrite (unit_of_sextet s Hs). discriminate.
  - unfold padding.
    destruct (length bs mod 3)%nat as [|[|[|n]]];
      repeat constructor; right; reflexivity.
Qed.

End Base64Facts.

(** X21. [decodeAudio] inverts [encodeAudio]: for every byte array,
    [encodeAudio] returns a text ([btoa] does not throw on it), of
    [4 * ceil(n / 3)] characters, each from the base64 alphabet or [=], and
    [decodeAudio] of that text returns the same bytes. *)
Theorem audio_decode_inverts_encode (bytes : list Byte.byte) :
  exists text,
    Audio.encodeAudio bytes = Some text
    /\ Audio.decodeAudio text = Some bytes
    /\ length text = (4 * ((length bytes + 2) / 3))%nat
    /\ Forall (fun u => Base64.unit_sextet u <> None \/ u = 61%N) text.
Proof.
  pose proof (bytes_small bytes) as Hbs.
  exists (Base64.encode (map Byte.to_N bytes)). split; [|split; [|split]].
  - unfold Audio.encodeAudio, Base64.btoa.
    replace (forallb (fun u => (u <=? 255)%N) (map Byte.to_N bytes)) with true;
      [reflexivity|].
    symmetry. apply forallb_forall. intros u Hu. apply N.leb_le.
    rewrite Forall_forall in Hbs. apply Hbs, list_elem_of_In, Hu.
  - unfold Audio.decodeAudio. rewrite (atob_encode _ Hbs). simpl.
    rewrite to_uint8_byte. reflexivity.
  - destruct (strip_padding_encode _ Hbs) as (_ & _ & ->).
    rewrite length_map. reflexivity.
  - apply encode_units, Hbs.
Qed.

(** ** The standard debate: scores of a round *)

Section DebateFacts.
Import Debate.

Lemma ustring_of_nonempty (c : ascii) (s : string) :
  ustring_of (String c s) <> [].
Proof. discriminate. Qed.

Lemma score_or_50_nonzero (j : option Gemini.Judgement) : score_or_50 j <> 0.
Proof.
  destruct j as [res|]; simpl; [|discriminate].
  destruct (Z.eqb_spec (Gemini.j_score res) 0); [discriminate | assumption].
Qed.

Lemma feedback_or_adequate_nonempty (j : option Gemini.Judgement) :
  feedback_or_adequate j <> [].
Proof.
  destruct j as [res|]; simpl; [|discriminate].
  destruct (Gemini.j_feedback res); discriminate.
Qed.

Lemma verdict_for_None (judgment : list Gemini.Judgement) (a : Entry) :
  user a ∉ map Gemini.j_user judgment -> verdict_for judgment a = None.
Proof.
  intros Hno. unfold verdict_for.
  destruct (find _ judgment) as [res|] eqn:H; [|reflexivity].
  apply find_some in H as [Hin Hu]. apply bool_decide_eq_true in Hu.
  exfalso. apply Hno. rewrite <- Hu.
  apply list_elem_of_In, in_map, Hin.
Qed.

(** One step of the [forEach] touches one name. *)
Lemma add_scores_cons (prev : gmap string Z) (r : Scored) (rs : list Scored) :
  s_user r ∉ JsObject.OBJECT_PROTOTYPE ->
  add_scores prev (r :: rs)
  = add_scores (<[s_user r := or_zero (prev !! s_user r) + s_score r]> prev) rs.
Proof.
  intros Hname. unfold add_scores. cbn [foldl mbind option_bind].
  rewrite (property_plain _ _ Hname).
  destruct (prev !! s_user r); reflexivity.
Qed.

Lemma add_scores_lookup (results : list Scored) :
  forall prev : gmap string Z,
  NoDup (map s_user results) ->
  Forall (fun r => s_user r ∉ JsObject.OBJECT_PROTOTYPE) results ->
  exists next,
    add_scores prev results = Some next
    /\ forall u,
         next !! u
         = match find (fun r => bool_decide (s_user r = u)) results with
           | Some r => Some (or_zero (prev !! u) + s_score r)
           | None => prev !! u
           end.
Proof.
  induction results as [|r rs IH]; intros prev Hnd Hnames.
  { exists prev. split; reflexivity. }
  cbn [map] in Hnd. apply NoDup_cons in Hnd as [Hfresh Hnd].
  apply Forall_cons in Hnames as [Hname Hnames].
  destruct (IH (<[s_user r := or_zero (prev !! s_user r) + s_score r]> prev)
              Hnd Hnames) as (next & Hnext & Hlook).
  exists next. split; [rewrite (add_scores_cons _ _ _ Hname); exact Hnext|].
  intros u. rewrite Hlook. cbn [find].
  case_bool_decide as Hu.
  - subst u.
    destruct (find (fun r0 => bool_decide (s_user r0 = s_user r)) rs)
      as [r'|] eqn:Hf.
    + apply find_some in Hf as [Hin Hu']. apply bool_decide_eq_true in Hu'.
      exfalso. apply Hfresh. rewrite <- Hu'.
      apply list_elem_of_In, in_map, Hin.
    + apply lookup_insert_eq.
  - rewrite lookup_insert_ne by congruence. reflexivity.
Qed.

End DebateFacts.

(** X22. The results of a debate round list the participants and their
    answers in the order of the answers, and none of them carries a score
    of 0 or an empty feedback: a participant the judge left out is shown
    with 50 and "Adequate.", and so is one the judge gave the score 0, a
    zero being falsy in [j?.score || 50]; any other score is the judge's
    first entry for that participant. *)
Theorem debate_zero_score_is_shown_as_fifty
    (judgment : list Gemini.Judgement) (answers : list Debate.Entry) :
  let results := Debate.finalResults judgment answers in
  map Debate.s_user results = map Debate.user answers
  /\ map Debate.s_answer results = map Debate.answer answers
  /\ Forall (fun r => Debate.s_score r <> 0 /\ Debate.s_feedback r <> [])
       results
  /\ (forall i a, answers !! i = Some a ->
        exists r, results !! i = Some r
          /\ (Debate.user a ∉ map Gemini.j_user judgment ->
              Debate.s_score r = 50
              /\ Debate.s_feedback r = ustring_of "Adequate.")
          /\ (forall res, Debate.verdict_for judgment a = Some res ->
                (Gemini.j_score res = 0 -> Debate.s_score r = 50)
                /\ (Gemini.j_score res <> 0 ->
                    Debate.s_score r = Gemini.j_score res))).
Proof.
  intros results. subst results. unfold Debate.finalResults.
  split; [rewrite map_map; reflexivity|].
  split; [rewrite map_map; reflexivity|]. split.
  - apply Forall_forall. intros r Hr.
    apply list_elem_of_In, in_map_iff in Hr as (a & <- & _). simpl.
    split; [apply score_or_50_nonzero | apply feedback_or_adequate_nonempty].
  - intros i a Hi. eexists. split.
    + change (map ?f answers) with (f <$> answers).
      rewrite list_lookup_fmap, Hi. reflexivity.
    + simpl. split.
      * intros Hno. rewrite (verdict_for_None _ _ Hno). split; reflexivity.
      * intros res ->. simpl. split.
        -- intros ->. reflexivity.
        -- intros Hne. destruct (Z.eqb_spec (Gemini.j_score res) 0);
             [contradiction | reflexivity].
Qed.

(** X23. The running totals of a debate grow by each participant's score
    of the round, once: with pairwise distinct participant names, none of
    them a name that [Object.prototype] defines, the totals stay numbers,
    the new total of a participant is the old one (0 when there was none)
    plus the score shown for the round, and the entry of everybody else is
    untouched. *)
Theorem debate_totals_add_the_round (prev : gmap string Z)
    (results : list Debate.Scored) :
  NoDup (map Debate.s_user results) ->
  Forall (fun r => Debate.s_user r ∉ JsObject.OBJECT_PROTOTYPE) results ->
  exists next,
    Debate.add_scores prev results = Some next
    /\ (forall r, r ∈ results ->
          next !! Debate.s_user r
          = Some (default 0 (prev !! Debate.s_user r) + Debate.s_score r))
    /\ (forall u, u ∉ map Debate.s_user results -> next !! u = prev !! u).
Proof.
  intros Hnd Hnames.
  destruct (add_scores_lookup results prev Hnd Hnames) as (next & Hnext & Hlook).
  exists next. split; [exact Hnext|]. split.
  - intros r Hr. rewrite Hlook.
    destruct (find (fun r0 => bool_decide (Debate.s_user r0 = Debate.s_user r))
                results) as [r'|] eqn:Hf.
    + apply find_some in Hf as [Hin Hu']. apply bool_decide_eq_true in Hu'.
      assert (r' = r) as ->; [|reflexivity].
      apply list_elem_of_In in Hin.
      apply list_elem_of_lookup in Hin as [i Hi].
      apply list_elem_of_lookup in Hr as [j Hj].
      assert (i = j) as ->.
      { eapply NoDup_lookup; [exact Hnd | |].
        - change (map ?f results) with (f <$> results).
          rewrite list_lookup_fmap, Hi. simpl. rewrite Hu'. reflexivity.
        - change (map ?f results) with (f <$> results).
          rewrite list_lookup_fmap, Hj. reflexivity. }
      congruence.
    + exfalso. apply list_elem_of_In in Hr.
      pose proof (find_none _ _ Hf r Hr) as Hn. simpl in Hn.
      apply bool_decide_eq_false in Hn. apply Hn. reflexivity.
  - intros u Hno. rewrite Hlook.
    destruct (find (fun r0 => bool_decide (Debate.s_user r0 = u)) results)
      as [r'|] eqn:Hf; [|reflexivity].
    apply find_some in Hf as [Hin Hu']. apply bool_decide_eq_true in Hu'.
    exfalso. apply Hno. rewrite <- Hu'. apply list_elem_of_In, in_map, Hin.
Qed.

Lemma debate_totals_add_the_round_witness :
  let answers := Debate.allAnswers "alice" [] ["The Poet"]
                   (fun _ => ustring_of "Beauty is truth.") in
  let judgment := [Gemini.mkJudgement "The Poet" 80 (ustring_of "Lyrical.");
                   Gemini.mkJudgement "alice" 0 (ustring_of "Silent.")] in
  let results := Debate.finalResults judgment answers in
  exists next,
    Debate.add_scores {["alice" := 70]} results = Some next
    /\ next !! "alice" = Some 120.
Proof.
  intros answers judgment results.
  destruct (debate_totals_add_the_round {["alice" := 70]} results)
    as (next & Hnext & Hin & _).
  - vm_compute. repeat constructor; intros H; inversion H; subst;
      try discriminate; inversion H2.
  - vm_compute. repeat constructor; intros H;
      repeat (apply elem_of_cons in H as [H|H]; [discriminate H|]);
      inversion H.
  - exists next. split; [exact Hnext|].
    apply (Hin (Debate.mkScored "alice"
                  (ustring_of "(No argument presented)") 50
                  (ustring_of "Silent."))).
    left.
Defined.

(** ** The profile page: badges *)

Section ProfileFacts.
Import MockBackend Profile.





End ProfileFacts.




(** ** The course editor *)

Section EditorFacts.
Import Editor.

Lemma without_index_from {A} (l : list A) (index k : nat) :
  map snd (List.filter (fun ix => negb (fst ix =? index)%nat)
             (imap (fun j x => ((k + j)%nat, x)) l))
  = if (index <? k)%nat then l else delete (index - k)%nat l.
Proof.
  revert k. induction l as [|x l IH]; intros k.
  - simpl. destruct (index <? k)%nat; reflexivity.
  - rewrite imap_cons. cbn [List.filter fst].
    rewrite (imap_ext _ (fun j y => ((S k + j)%nat, y)) l)
      by (intros j y _; simpl; f_equal; lia).
    rewrite Nat.add_0_r.
    destruct (Nat.eqb_spec k index) as [->|Hne]; cbn [negb].
    + rewrite IH. rewrite Nat.sub_diag.
      destruct (Nat.ltb_spec index index) as [H|_]; [lia|].
      destruct (Nat.ltb_spec index (S index)) as [_|H]; [reflexivity | lia].
    + cbn [map snd]. rewrite IH.
      destruct (Nat.ltb_spec index k) as [Hlt|Hge].
      * destruct (Nat.ltb_spec index (S k)) as [_|H]; [reflexivity | lia].
      * destruct (Nat.ltb_spec index (S k)) as [H|_]; [lia|].
        replace (index - k)%nat with (S (index - S k)) by lia. reflexivity.
Qed.

Lemma without_index_delete {A} (index : nat) (l : list A) :
  without_index index l = delete index l.
Proof.
  unfold without_index.
  rewrite (imap_ext pair (fun j x => ((0 + j)%nat, x)) l)
    by (intros; reflexivity).
  rewrite without_index_from. simpl. rewrite Nat.sub_0_r. reflexivity.
Qed.

End EditorFacts.

(** X26. [removeCard] takes out exactly the card at the index: the cards
    before it keep their index, the cards after it move down by one, and
    with an index beyond the last card the list stays as it is; removing
    the card that [addCard] has just appended gives the cards as they
    were. *)
Theorem removeCard_removes_one_card (index : nat) (c : Editor.EditorCourse) :
  let cards := default [] (Editor.content c) in
  let left := default [] (Editor.content (Editor.removeCard index c)) in
  (forall j, (j < index)%nat -> left !! j = cards !! j)
  /\ (forall j, (index <= j)%nat -> left !! j = cards !! S j)
  /\ ((index < length cards)%nat -> S (length left) = length cards)
  /\ ((length cards <= index)%nat -> left = cards)
  /\ Editor.content
       (Editor.removeCard (length cards) (Editor.addCard c)) = Some cards.
Proof.
  intros cards left. subst left. unfold Editor.removeCard. simpl. fold cards.
  rewrite without_index_delete.
  split; [intros j Hj; apply list_lookup_delete_lt, Hj|].
  split; [intros j Hj; apply list_lookup_delete_ge, Hj|].
  split.
  { intros Hlt. rewrite length_delete; [lia|].
    apply lookup_lt_is_Some_2, Hlt. }
  split.
  { intros Hge. rewrite delete_take_drop.
    rewrite take_ge by exact Hge. rewrite drop_ge by lia. apply app_nil_r. }
  unfold Editor.addCard. simpl. fold cards. f_equal.
  rewrite without_index_delete, delete_take_drop, take_app_length.
  rewrite drop_app_ge by lia.
  replace (S (length cards) - length cards)%nat with 1%nat by lia.
  simpl. apply app_nil_r.
Qed.

Lemma removeCard_removes_one_card_witness :
  let c := Editor.mkEditor (Some "Limits") None None None
             (Some [Editor.mkCard "a" "1"; Editor.mkCard "b" "2";
                    Editor.mkCard "c" "3"]) in
  default [] (Editor.content (Editor.removeCard 1 c)) !! 1%nat
  = Some (Editor.mkCard "c" "3").
Proof.
  intros c.
  destruct (removeCard_removes_one_card 1 c) as (_ & H & _).
  rewrite (H 1%nat); [reflexivity | lia].
Defined.

Section EditorSaveFacts.
Import MockBackend.

Lemma saveCourse_stored (course : Course) (db : Db) :
  course ∈ default [] (stored_courses (saveCourse course db)).
Proof.
  unfold saveCourse.
  destruct (find_course (id course) (default [] (stored_courses db)))
    as [[i c0]|] eqn:Hfind; simpl.
  - destruct (find_course_id _ _ _ _ Hfind) as [Hi _].
    apply (list_elem_of_lookup_2 _ i), list_lookup_insert_eq.
    eapply lookup_lt_Some, Hi.
  - apply elem_of_app. right. apply list_elem_of_singleton. reflexivity.
Qed.

Lemma course_id_not_system (suffix : string) :
  is_system_id ("course-" +:+ suffix) = false.
Proof. reflexivity. Qed.

End EditorSaveFacts.

(** X27. [saveEditorCourse] refuses, with an alert and nothing stored, a
    course without a title or without cards; otherwise the course it
    stores, under the id course-<Date.now()>, with the current user as
    author, public, with no likes and no comments, is returned by
    [getCourses] and by [getPublicCourses]: unlike a customised copy saved
    under a system id, a course saved from the editor is always listed. *)
Theorem editor_saved_course_is_listed (load_time now : Z)
    (currentUser : string) (c : Editor.EditorCourse) (db : MockBackend.Db) :
  ((Editor.falsy_text (Editor.title c) = true
    \/ default [] (Editor.content c) = []) ->
   Editor.saveEditorCourse now currentUser c db
   = Editor.Alerted "Please provide a title and at least one flashcard.")
  /\ (Editor.falsy_text (Editor.title c) = false ->
      default [] (Editor.content c) <> [] ->
      exists course db',
        Editor.saveEditorCourse now currentUser c db = Editor.Stored db'
        /\ course ∈ MockBackend.getCourses load_time db'
        /\ course ∈ MockBackend.getPublicCourses load_time db'
        /\ MockBackend.id course = "course-" +:+ pretty now
        /\ Some (MockBackend.title (MockBackend.info course)) = Editor.title c
        /\ MockBackend.author (MockBackend.info course) = currentUser
        /\ MockBackend.likes course = Some []
        /\ MockBackend.comments course = Some []).
Proof.
  unfold Editor.saveEditorCourse. split.
  - intros [H|H].
    + rewrite H. reflexivity.
    + rewrite H. rewrite orb_true_r. reflexivity.
  - intros Ht Hc. rewrite Ht.
    destruct (default [] (Editor.content c)) as [|card cards] eqn:Hcards;
      [congruence|]. simpl.
    eexists. eexists. split; [reflexivity|].
    assert (Hin : forall course d,
              MockBackend.is_system_id (MockBackend.id course) = false ->
              course ∈ MockBackend.getCourses load_time
                         (MockBackend.saveCourse course d)).
    { intros course d Hsys. unfold MockBackend.getCourses.
      apply elem_of_app. right. apply list_elem_of_filter.
      split; [exact Hsys | apply saveCourse_stored]. }
    split; [apply Hin, course_id_not_system|].
    split.
    { unfold MockBackend.getPublicCourses. apply list_elem_of_filter.
      split; [reflexivity | apply Hin, course_id_not_system]. }
    split; [reflexivity|]. split.
    { simpl. destruct (Editor.title c) as [[|a r]|]; try discriminate Ht.
      reflexivity. }
    repeat split.
Qed.

Lemma editor_saved_course_is_listed_witness :
  let c := Editor.mkEditor (Some "Module 1: Partial Derivatives")
             (Some "Engineering Calculus") (Some "Undergraduate")
             (Some "Definitions.")
             (Some [Editor.mkCard "Define partial derivative." "A derivative."]) in
  exists course db',
    Editor.saveEditorCourse 1700000000000 "alice" c
      (MockBackend.mkDb None None) = Editor.Stored db'
    /\ course ∈ MockBackend.getPublicCourses 0 db'
    /\ MockBackend.author (MockBackend.info course) = "alice".
Proof.
  intros c.
  destruct (editor_saved_course_is_listed 0 1700000000000 "alice" c
              (MockBackend.mkDb None None)) as [_ H].
  destruct H as (course & db' & Hs & _ & Hp & _ & _ & Ha & _);
    [reflexivity | discriminate |].
  exists course, db'. repeat split; assumption.
Defined.

(** ** The mock backend: accounts and sessions *)




(** X29. The three default accounts come into being only through a call
    that finds no user at all.  On a store without users a login attempt
    seeds them first and can already use them (scholar with password123),
    while [getAllScholars] seeds them too but still returns the empty list
    it read before; and once somebody has registered on such a store the
    defaults are never created: the login as scholar is refused. *)
Theorem default_accounts_are_seeded_by_an_empty_store
    (sha256_hex : string -> string) (salts : string * string * string)
    (token : string) (st : Accounts.Store) :
  default ∅ (Accounts.stored_users st) = ∅ ->
  (exists scholar st',
     Accounts.loginUser sha256_hex salts token "scholar" "password123" st
     = (Some (scholar, token), st')
     /\ Accounts.username scholar = "scholar"
     /\ (forall name,
           is_Some (default ∅ (Accounts.stored_users st') !! name)
           <-> name ∈ ["scholar"; "curator"; "novice"]))
  /\ (exists st',
        Accounts.getAllScholars sha256_hex salts st = ([], st')
        /\ (forall name,
              is_Some (default ∅ (Accounts.stored_users st') !! name)
              <-> name ∈ ["scholar"; "curator"; "novice"]))
  /\ (forall salt u password registered,
        Accounts.saveUser sha256_hex salt u password st
        = Accounts.Returns true registered ->
        Accounts.username u <> "scholar" ->
        Accounts.loginUser sha256_hex salts token "scholar" "password123"
          registered
        = (None, registered)).
Proof.
  intros Hempty. destruct salts as [[s1 s2] s3].
  assert (Hseeded : forall (r1 r2 r3 : Accounts.UserRecord) name,
            is_Some ((<["novice" := r3]> (<["curator" := r2]>
                        (<["scholar" := r1]> (∅ : gmap string _)))) !! name)
            <-> name ∈ ["scholar"; "curator"; "novice"]).
  { intros r1 r2 r3 name. rewrite !lookup_insert_is_Some, lookup_empty.
    rewrite !elem_of_cons, elem_of_nil. split.
    - intros [<-|[_ [<-|[_ [<-|[_ H]]]]]]; auto.
      destruct H as [x Hx]. discriminate Hx.
    - intros [->|[->|[->|[]]]].
      + right. split; [discriminate|]. right. split; [discriminate|].
        left. reflexivity.
      + right. split; [discriminate|]. left. reflexivity.
      + left. reflexivity. }
  split; [|split].
  - unfold Accounts.loginUser. rewrite Hempty.
    rewrite bool_decide_eq_true_2 by reflexivity.
    cbn [Accounts.initDefaultUsers].
    unfold JsObject.property.
    rewrite lookup_insert_ne by discriminate.
    rewrite lookup_insert_ne by discriminate.
    rewrite lookup_insert_eq.
    cbn [Accounts.salt Accounts.passwordHash Accounts.default_record
         Accounts.user].
    rewrite String.eqb_refl.
    eexists. eexists. split; [reflexivity|]. split; [reflexivity|].
    intros name. cbn [Accounts.stored_users Accounts.save_users default].
    apply Hseeded.
  - unfold Accounts.getAllScholars. rewrite Hempty.
    rewrite bool_decide_eq_true_2 by reflexivity.
    rewrite map_to_list_empty. eexists. split; [reflexivity|].
    intros name. apply Hseeded.
  - intros salt u password registered Hsave Hne.
    unfold Accounts.saveUser in Hsave. rewrite Hempty in Hsave.
    destruct (JsObject.property ∅ (Accounts.username u)) eqn:Hp;
      try discriminate Hsave.
    injection Hsave as <-. unfold Accounts.loginUser. simpl.
    rewrite insert_nonempty. unfold JsObject.property.
    rewrite lookup_insert_ne by congruence. rewrite lookup_empty.
    reflexivity.
Qed.

Lemma default_accounts_are_seeded_by_an_empty_store_witness :
  exists scholar st',
    Accounts.loginUser (fun text => text) ("s1", "s2", "s3") "k3x9q"
      "scholar" "password123" (Accounts.mkStore None None None None)
    = (Some (scholar, "k3x9q"), st')
    /\ Accounts.username scholar = "scholar".
Proof.
  destruct (default_accounts_are_seeded_by_an_empty_store (fun text => text)
              ("s1", "s2", "s3") "k3x9q"
              (Accounts.mkStore None None None None))
    as [(scholar & st' & H1 & H2 & _) _]; [reflexivity|].
  exists scholar, st'. split; assumption.
Defined.

(** X30. No account and no session ever goes by a name that
    [Object.prototype] defines.  While no stored user has such a name,
    [saveUser] returns only for a name of another kind, [loginUser]
    succeeds only for such a name, with the token it drew, and both leave
    a store without such a user: the names under which the history and the
    archives are read are own properties of the objects read. *)
Theorem accounts_never_take_prototype_names (sha256_hex : string -> string)
    (salt token : string) (salts : string * string * string)
    (st : Accounts.Store) :
  let plain_names s :=
    forall name, is_Some (default ∅ (Accounts.stored_users s) !! name) ->
                 name ∉ JsObject.OBJECT_PROTOTYPE in
  plain_names st ->
  (forall u password st',
     Accounts.saveUser sha256_hex salt u password st
     = Accounts.Returns true st' ->
     (Accounts.username u ∉ JsObject.OBJECT_PROTOTYPE) /\ plain_names st')
  /\ (forall username password u t st',
        Accounts.loginUser sha256_hex salts token username password st
        = (Some (u, t), st') ->
        (username ∉ JsObject.OBJECT_PROTOTYPE) /\ t = token /\ plain_names st').
Proof.
  intros plain_names Hplain. split.
  - intros u password st' Hsave. unfold Accounts.saveUser in Hsave.
    destruct (JsObject.property _ (Accounts.username u)) eqn:Hp;
      try discriminate Hsave.
    injection Hsave as <-.
    assert (Hname : Accounts.username u ∉ JsObject.OBJECT_PROTOTYPE).
    { unfold JsObject.property in Hp.
      destruct (default ∅ (Accounts.stored_users st) !! Accounts.username u);
        [discriminate Hp|].
      case_bool_decide; [discriminate Hp | assumption]. }
    split; [exact Hname|]. intros name. simpl.
    rewrite lookup_insert_is_Some. intros [<-|[_ H]]; [exact Hname|].
    apply Hplain, H.
  - intros username password u t st' Hlogin.
    unfold Accounts.loginUser in Hlogin.
    destruct salts as [[s1 s2] s3].
    case_bool_decide as Hempty.
    + cbn [Accounts.initDefaultUsers] in Hlogin.
      destruct (JsObject.property _ username) as [record| |] eqn:Hp;
        try discriminate Hlogin.
      apply property_Own in Hp.
      assert (Hseeded : forall name (r1 r2 r3 : Accounts.UserRecord),
                is_Some ((<["novice" := r3]> (<["curator" := r2]>
                            (<["scholar" := r1]> (∅ : gmap string _))))
                         !! name) ->
                name ∉ JsObject.OBJECT_PROTOTYPE).
      { intros name r1 r2 r3.
        rewrite !lookup_insert_is_Some, lookup_empty.
        intros [<-|[_ [<-|[_ [<-|[_ [x Hx]]]]]]]; try discriminate Hx;
          intros H;
          repeat (apply elem_of_cons in H as [H|H]; [discriminate H|]);
          inversion H. }
      destruct (String.eqb _ _); [|discriminate Hlogin].
      injection Hlogin as <- <- <-.
      split; [eapply Hseeded; rewrite Hp; eexists; reflexivity|].
      split; [reflexivity|]. intros name. simpl. apply Hseeded.
    + destruct (JsObject.property _ username) as [record| |] eqn:Hp;
        try discriminate Hlogin.
      apply property_Own in Hp.
      destruct (String.eqb _ _); [|discriminate Hlogin].
      injection Hlogin as <- <- <-.
      split; [apply Hplain; rewrite Hp; eexists; reflexivity|].
      split; [reflexivity|]. exact Hplain.
Qed.

Lemma accounts_never_take_prototype_names_witness :
  let alice := Accounts.mkUser "alice" "alice@lumi.ai"
                 "https://api.dicebear.com/7.x/avataaars/svg?seed=alice"
                 "A scholar embarking on a journey of enlightenment."
                 ["Novice"] 1 0 0 None in
  Accounts.username alice ∉ JsObject.OBJECT_PROTOTYPE.
Proof.
  intros alice.
  destruct (accounts_never_take_prototype_names (fun text => text)
              "c2FsdA==" "k3x9q" ("s1", "s2", "s3")
              (Accounts.mkStore None None None None)) as [H _].
  - simpl. intros name [x Hx]. rewrite lookup_empty in Hx. discriminate Hx.
  - exact (proj1 (H alice "secret" _ eq_refl)).
Defined.
